(** * IntelliForm backend: conversation-driven form acquisition

    A shallow embedding of the two engines that live in the repository:

    - the legacy single-file server ([server.js]): [getSession],
      [callClaudeAI] with its two deterministic fall-backs, [validateField],
      [processConversation] and the hourly [cleanup];
    - the LangChain services: [LangChainSession], [getSession] and
      [cleanupSessions] of [services/sessionService.js]; the registry
      [VERIFIED_GOVERNMENT_FORMS], [validateFieldInput] and
      [processUserMessage], which the source tree keeps together in
      [services/formsDatabase.js] (the part headed [aiService.js]).

    Conventions of the embedding.
    - A JavaScript string is a sequence of UTF-16 code units; a [string]
      here is a sequence of code units below 256, so a character [c] is the
      one of code point [JS.code c], U+0000 to U+00FF.  On these strings the
      primitives below are the JavaScript ones exactly: [\s] and [trim] see
      TAB, LF, VT, FF, CR, SPACE and the no-break space U+00A0 (the other
      white-space characters of JavaScript lie from U+0100 on), [\d] is
      [0-9], and [toLowerCase] maps [A-Z] and the capital letters U+00C0 to
      U+00DE other than the multiplication sign.  Strings with a code unit
      from 256 on lie outside the embedding.  A literal of the source that
      holds such a character (the rupee sign and the pictographs of some
      questions and replies) is written with the bytes of its UTF-8 form;
      these texts are only handed back to the user and nothing reads them.
    - [new Date()] is an input [now : Z] (milliseconds); one handler call
      reads one instant.
    - [uuidv4()] is an input: the identifier the generator hands out.
    - The language model is an input as well: each call receives the outcome
      of the advisory invocation (a parsed reply, an unparsable reply, or a
      failure).  A parsed reply is read through the schema its prompt
      prescribes: a member the engines branch on or index with is either
      missing or of the prescribed type (a string, an integer
      [total_fields], a list of strings [fields_required], an object
      [form_details]); the [message], which is only stored and handed back,
      is taken as the string it is meant to be.  Confidence scores (floating
      point) are left out.
    - An object literal answers its own keys and, besides, the property names
      of [Object.prototype].  What such an inherited member answers when it
      is indexed in turn depends on the built-in objects of the engine; it is
      an input of the legacy engine ([Legacy.Builtins]).
    - A [try]/[catch] block is modelled by returning the session as mutated
      up to the throwing statement together with the handler's reply. *)

From Stdlib Require Import ZArith Lia List Bool Ascii String DecimalString.
From stdpp Require Import gmap strings.

Local Open Scope string_scope.

(** ** JavaScript string primitives *)

Module JS.

Definition code (c : ascii) : N := N_of_ascii c.

(** [\d] *)
Definition is_digit (c : ascii) : bool :=
  ((48 <=? code c) && (code c <=? 57))%N.

(** [\s], and the white space of [trim]: TAB, LF, VT, FF, CR, SPACE and
    the no-break space. *)
Definition is_space (c : ascii) : bool :=
  ((9 <=? code c) && (code c <=? 13) || (code c =? 32) || (code c =? 160))%N.

(** The lower-case mapping of one character: [A-Z], and the capital letters
    U+00C0 to U+00DE but for the multiplication sign U+00D7. *)
Definition lower (c : ascii) : ascii :=
  if ((65 <=? code c) && (code c <=? 90)
      || (192 <=? code c) && (code c <=? 222) && negb (code c =? 215))%N
  then ascii_of_N (code c + 32)
  else c.

Fixpoint toLowerCase (s : string) : string :=
  match s with
  | EmptyString => EmptyString
  | String c s' => String (lower c) (toLowerCase s')
  end.

Fixpoint trimStart (s : string) : string :=
  match s with
  | EmptyString => EmptyString
  | String c s' => if is_space c then trimStart s' else s
  end.

Fixpoint trimEnd (s : string) : string :=
  match s with
  | EmptyString => EmptyString
  | String c s' =>
      let t := trimEnd s' in
      if is_space c && String.eqb t "" then "" else String c t
  end.

Definition trim (s : string) : string := trimEnd (trimStart s).

(** [s.includes(sub)] *)
Fixpoint includes (s sub : string) : bool :=
  String.prefix sub s ||
  match s with
  | EmptyString => false
  | String _ s' => includes s' sub
  end.

(** [s.replace(/\D/g, '')] *)
Fixpoint stripNonDigits (s : string) : string :=
  match s with
  | EmptyString => EmptyString
  | String c s' =>
      if is_digit c then String c (stripNonDigits s') else stripNonDigits s'
  end.

(** JavaScript truthiness of a string. *)
Definition truthy (s : string) : bool := negb (String.eqb s "").

(** [`${n}`] for an integer-valued number. *)
Definition ofNumber (n : Z) : string := NilZero.string_of_int (Z.to_int n).

(** [xs.join(sep)] *)
Fixpoint join (sep : string) (xs : list string) : string :=
  match xs with
  | [] => ""
  | [x] => x
  | x :: rest => x ++ sep ++ join sep rest
  end.

(** [xs[i]] for a number [i]: [undefined] out of range. *)
Definition index {A} (xs : list A) (i : Z) : option A :=
  if (i <? 0)%Z then None else nth_error xs (Z.to_nat i).

(** [s.indexOf(c)] and [s.lastIndexOf(c)] for a one-character [c]: the
    position, or [-1]. *)
Fixpoint indexOf (c : ascii) (s : string) : Z :=
  match s with
  | EmptyString => -1
  | String x s' =>
      if Ascii.eqb x c then 0
      else let r := indexOf c s' in if (r =? -1)%Z then -1 else (r + 1)%Z
  end.

Fixpoint lastIndexOf (c : ascii) (s : string) : Z :=
  match s with
  | EmptyString => -1
  | String x s' =>
      let r := lastIndexOf c s' in
      if (r =? -1)%Z then (if Ascii.eqb x c then 0 else -1)%Z else (r + 1)%Z
  end.

(** [s.substring(a, b)]: both ends are clamped to the string and swapped
    when out of order. *)
Definition substring (a b : Z) (s : string) : string :=
  let len := Z.of_nat (String.length s) in
  let a' := Z.max 0 (Z.min a len) in
  let b' := Z.max 0 (Z.min b len) in
  String.substring (Z.to_nat (Z.min a' b'))
    (Z.to_nat (Z.max a' b' - Z.min a' b')) s.

(** The cleaning both engines apply to the model's text before
    [JSON.parse]: keep what lies between the first opening and the last
    closing brace, when they come in that order. *)
Definition extractJSON (text : string) : string :=
  let jsonStart := indexOf "{" text in
  let jsonEnd := (lastIndexOf "}" text + 1)%Z in
  if negb (jsonStart =? -1)%Z && (jsonEnd >? jsonStart)%Z
  then substring jsonStart jsonEnd text
  else text.

(** [xs.slice(start)]: a negative [start] counts from the end. *)
Definition slice {A} (start : Z) (xs : list A) : list A :=
  let len := Z.of_nat (length xs) in
  let from := if (start <? 0)%Z then Z.max (len + start) 0 else Z.min start len in
  skipn (Z.to_nat from) xs.

End JS.

(** ** Anchored regular expressions

    The three patterns of the validators are anchored at both ends
    ([^...$], no flags), so [re.test(s)] asks whether the whole of [s]
    belongs to the language.  Membership is decided with derivatives. *)

Module Regex.

Inductive regex : Type :=
| Void : regex
| Eps : regex
| Class : (ascii -> bool) -> regex
| Seq : regex -> regex -> regex
| Alt : regex -> regex -> regex
| Star : regex -> regex.

Definition Chr (c : ascii) : regex := Class (Ascii.eqb c).
Definition Plus (r : regex) : regex := Seq r (Star r).

Fixpoint Repeat (n : nat) (r : regex) : regex :=
  match n with
  | O => Eps
  | S n' => Seq r (Repeat n' r)
  end.

Fixpoint nullable (r : regex) : bool :=
  match r with
  | Void => false
  | Eps => true
  | Class _ => false
  | Seq r1 r2 => nullable r1 && nullable r2
  | Alt r1 r2 => nullable r1 || nullable r2
  | Star _ => true
  end.

Fixpoint deriv (c : ascii) (r : regex) : regex :=
  match r with
  | Void => Void
  | Eps => Void
  | Class p => if p c then Eps else Void
  | Seq r1 r2 =>
      if nullable r1
      then Alt (Seq (deriv c r1) r2) (deriv c r2)
      else Seq (deriv c r1) r2
  | Alt r1 r2 => Alt (deriv c r1) (deriv c r2)
  | Star r1 => Seq (deriv c r1) (Star r1)
  end.

Fixpoint accepts (r : regex) (w : list ascii) : bool :=
  match w with
  | [] => nullable r
  | c :: w' => accepts (deriv c r) w'
  end.

(** [re.test(s)] for an anchored pattern. *)
Definition test (r : regex) (s : string) : bool :=
  accepts r (list_ascii_of_string s).

(** The language of a pattern, as a relation. *)
Inductive lang : regex -> list ascii -> Prop :=
| lang_eps : lang Eps []
| lang_class p c : p c = true -> lang (Class p) [c]
| lang_seq r1 r2 w1 w2 : lang r1 w1 -> lang r2 w2 -> lang (Seq r1 r2) (w1 ++ w2)
| lang_alt_l r1 r2 w : lang r1 w -> lang (Alt r1 r2) w
| lang_alt_r r1 r2 w : lang r2 w -> lang (Alt r1 r2) w
| lang_star_nil r : lang (Star r) []
| lang_star_app r w1 w2 : lang r w1 -> lang (Star r) w2 -> lang (Star r) (w1 ++ w2).

End Regex.

(** ** Data shared by the two engines *)

(** [session.state]: the three values the code assigns, and
    ['FORM_DISCOVERY'], which [processUserMessage] tests for. *)
Inductive State : Type := INIT | FORM_DISCOVERY | COLLECTING | COMPLETE.

(** [sessionId] as read from a request body: [None] is [undefined]/[null]. *)
Definition falsy (sessionId : option string) : bool :=
  match sessionId with
  | None => true
  | Some s => negb (JS.truthy s)
  end.

(** [x || y] on possibly-undefined strings. *)
Definition orElse (x : option string) (y : option string) : option string :=
  match x with
  | Some s => if JS.truthy s then Some s else y
  | None => y
  end.

(** The own keys of an object literal. *)
Fixpoint assoc {A} (key : string) (table : list (string * A)) : option A :=
  match table with
  | [] => None
  | (k, v) :: rest => if String.eqb k key then Some v else assoc key rest
  end.

(** The property names of [Object.prototype], which every object literal
    answers besides its own keys: eleven functions, and under [__proto__]
    the prototype itself.  All twelve values are truthy, and none of them
    has a property the code reads ([verified_fields], [fields],
    [fields_required], [total_fields], [question]). *)
Definition objectPrototype : list string :=
  [ "constructor"; "__defineGetter__"; "__defineSetter__"; "hasOwnProperty";
    "__lookupGetter__"; "__lookupSetter__"; "isPrototypeOf";
    "propertyIsEnumerable"; "toString"; "valueOf"; "__proto__";
    "toLocaleString" ].

(** [table[key]] on an object literal: the value under an own key, else the
    member of [Object.prototype] of that name, else [undefined]. *)
Inductive Property (A : Type) : Type :=
| own (v : A)
| inherited (key : string)
| undefined.

Arguments own {A} v.
Arguments inherited {A} key.
Arguments undefined {A}.

Definition getProperty {A} (key : string) (table : list (string * A))
    : Property A :=
  match assoc key table with
  | Some v => own v
  | None =>
      if existsb (String.eqb key) objectPrototype then inherited key
      else undefined
  end.

(** A field of a form: [{ name, question, type, options, required }].
    A missing [required] reads as [false]; every [choice] field of the two
    registries carries its [options]. *)
Record Field : Type := mkField {
  name : string;
  question : string;
  type : string;
  options : list string;
  required : bool
}.

Definition dq : string := String (ascii_of_nat 34) EmptyString.

(** The anchored patterns of the validators: [/^[^\s@]+@[^\s@]+\.[^\s@]+$/],
    [/^[6-9]\d{9}$/] and [/^\d{2}\/\d{2}\/\d{4}$/]. *)
Definition notSpaceOrAt (c : ascii) : bool :=
  negb (JS.is_space c || Ascii.eqb c "@").

Definition emailRegex : Regex.regex :=
  Regex.Seq (Regex.Plus (Regex.Class notSpaceOrAt))
    (Regex.Seq (Regex.Chr "@")
       (Regex.Seq (Regex.Plus (Regex.Class notSpaceOrAt))
          (Regex.Seq (Regex.Chr ".") (Regex.Plus (Regex.Class notSpaceOrAt))))).

Definition sixToNine (c : ascii) : bool :=
  ((54 <=? JS.code c) && (JS.code c <=? 57))%N.

Definition phoneRegex : Regex.regex :=
  Regex.Seq (Regex.Class sixToNine) (Regex.Repeat 9 (Regex.Class JS.is_digit)).

Definition dateRegex : Regex.regex :=
  Regex.Seq (Regex.Repeat 2 (Regex.Class JS.is_digit))
    (Regex.Seq (Regex.Chr "/")
       (Regex.Seq (Regex.Repeat 2 (Regex.Class JS.is_digit))
          (Regex.Seq (Regex.Chr "/") (Regex.Repeat 4 (Regex.Class JS.is_digit))))).

(** ** The legacy engine ([server.js]) *)

Module Legacy.

Inductive Intent : Type :=
| form_discovery
| field_collection
| validation_error
| clarification_needed
| other_intent (label : string).

(** [form_details] as the code reads it: the value the reply carried, kept
    as sent, or the one [generateUniversalFormDetails] built.  A member is
    [None] when the value does not have it.  The rendering metadata
    ([documents_needed], [fees], [processing_time]) plays no part in the
    conversation and is left out. *)
Record FormDetails : Type := mkDetails {
  form_name : option string;
  authority : option string;
  form_number : option string;
  fields_required : option (list string);
  total_fields : option Z
}.

(** A value used as a question: a string, or a truthy value that is not a
    string (a member of [Object.prototype], or what such a member answers). *)
Inductive Question : Type :=
| worded (q : string)
| foreign.

(** [q || ...]: the question when it is truthy. *)
Definition asked (q : option Question) : option Question :=
  match q with
  | Some (worded s) => if JS.truthy s then q else None
  | Some foreign => q
  | None => None
  end.

(** [table[key] || ...] on an object literal of strings. *)
Definition questionOf (key : string) (table : list (string * string))
    : option Question :=
  match getProperty key table with
  | own q => asked (Some (worded q))
  | inherited _ => Some foreign
  | undefined => None
  end.

Record AiResponse : Type := mkResponse {
  intent : Intent;
  form_type : option string;
  form_details : option FormDetails;
  current_question : option Question;
  field_being_asked : option string;
  message : string
}.

Inductive Speaker : Type := user | bot.

(** An entry of [session.conversation]; its [type] is called [speaker]
    here. *)
Record Turn : Type := mkTurn {
  speaker : Speaker;
  content : string;
  timestamp : Z
}.

(** An entry of [generatedFiles], without its [path] and [downloadUrl]. *)
Record GeneratedFile : Type := mkFile {
  filename : string;
  formType : option string;
  generatedAt : Z
}.

(** The session object of [createSession]; its [metadata], never read
    again, is left out. *)
Record Session : Type := mkSession {
  id : string;
  createdAt : Z;
  lastActivity : Z;
  state : State;
  conversation : list Turn;
  currentForm : option string;
  formData : gmap string string;
  currentField : Z;
  generatedFiles : list GeneratedFile;
  dynamicFormDetails : option FormDetails
}.

Definition withActivity (now : Z) (s : Session) : Session :=
  mkSession (id s) (createdAt s) now (state s) (conversation s)
    (currentForm s) (formData s) (currentField s) (generatedFiles s)
    (dynamicFormDetails s).

Definition withState (st : State) (s : Session) : Session :=
  mkSession (id s) (createdAt s) (lastActivity s) st (conversation s)
    (currentForm s) (formData s) (currentField s) (generatedFiles s)
    (dynamicFormDetails s).

Definition withConversation (c : list Turn) (s : Session) : Session :=
  mkSession (id s) (createdAt s) (lastActivity s) (state s) c
    (currentForm s) (formData s) (currentField s) (generatedFiles s)
    (dynamicFormDetails s).

(** [session.formData[key] = value].  Under [__proto__] an object literal
    stores nothing: the assignment reaches the setter of [Object.prototype],
    which ignores a string. *)
Definition withAnswer (key value : string) (s : Session) : Session :=
  mkSession (id s) (createdAt s) (lastActivity s) (state s) (conversation s)
    (currentForm s)
    (if String.eqb key "__proto__" then formData s
     else <[key := value]> (formData s))
    (currentField s) (generatedFiles s) (dynamicFormDetails s).

Definition withField (n : Z) (s : Session) : Session :=
  mkSession (id s) (createdAt s) (lastActivity s) (state s) (conversation s)
    (currentForm s) (formData s) n (generatedFiles s)
    (dynamicFormDetails s).

(** [createSession(sessionId)]: [uuid] is what [uuidv4()] would return. *)
Definition createSession (uuid : string) (now : Z) (sessionId : option string)
    (sessions : gmap string Session) : Session * gmap string Session :=
  let id := match orElse sessionId (Some uuid) with
            | Some i => i
            | None => uuid
            end in
  let session := mkSession id now now INIT [] None ∅ 0 [] None in
  (session, <[id := session]> sessions).

Definition getSession (uuid : string) (now : Z) (sessionId : option string)
    (sessions : gmap string Session) : Session * gmap string Session :=
  match sessionId with
  | Some sid =>
      if falsy sessionId then createSession uuid now sessionId sessions
      else
        match sessions !! sid with
        | None => createSession uuid now sessionId sessions
        | Some session =>
            let session := withActivity now session in
            (session, <[sid := session]> sessions)
        end
  | None => createSession uuid now sessionId sessions
  end.

(** [governmentFormKeywords], in the order of the object literal. *)
Definition governmentFormKeywords : list (string * (string * string)) :=
  [ ("fssai", ("fssai_food_license", "FSSAI Food License"));
    ("food license", ("fssai_food_license", "FSSAI Food License"));
    ("food safety", ("fssai_food_license", "FSSAI Food License"));
    ("restaurant license", ("fssai_food_license", "FSSAI Food License"));
    ("gst", ("gst_registration", "GST Registration"));
    ("goods and services tax", ("gst_registration", "GST Registration"));
    ("company registration", ("company_registration", "Company Registration"));
    ("business registration", ("business_registration", "Business Registration"));
    ("partnership", ("partnership_registration", "Partnership Registration"));
    ("llp", ("llp_registration", "LLP Registration"));
    ("trademark", ("trademark_registration", "Trademark Registration"));
    ("copyright", ("copyright_registration", "Copyright Registration"));
    ("patent", ("patent_application", "Patent Application"));
    ("import export", ("import_export_license", "Import Export License"));
    ("iec", ("import_export_license", "Import Export Code"));
    ("drug license", ("drug_license", "Drug License"));
    ("shop establishment", ("shop_establishment_license", "Shop & Establishment License"));
    ("pan", ("pan_card", "PAN Card"));
    ("passport", ("passport", "Passport"));
    ("driving", ("driving_license", "Driving License"));
    ("aadhaar", ("aadhaar_card", "Aadhaar Card"));
    ("voter", ("voter_id", "Voter ID Card"));
    ("income certificate", ("income_certificate", "Income Certificate"));
    ("caste certificate", ("caste_certificate", "Caste Certificate"));
    ("domicile", ("domicile_certificate", "Domicile Certificate"));
    ("marriage certificate", ("marriage_certificate", "Marriage Certificate"));
    ("birth certificate", ("birth_certificate", "Birth Certificate"));
    ("death certificate", ("death_certificate", "Death Certificate")) ].

(** The [for ... of Object.entries(...)] loop with its [break]. *)
Fixpoint detect (input : string) (table : list (string * (string * string)))
    : option (string * string) :=
  match table with
  | [] => None
  | (keyword, formInfo) :: rest =>
      if JS.includes input keyword then Some formInfo else detect input rest
  end.

Definition formTemplates : list (string * FormDetails) :=
  [ ("fssai_food_license",
     mkDetails (Some "FSSAI Food License")
       (Some "Food Safety and Standards Authority of India (FSSAI)")
       (Some "Form A/B/C (based on license type)")
       (Some [ "license_type"; "business_name"; "owner_name";
               "business_postal_address"; "owner_postal_address"; "email_address";
               "business_phone"; "food_category"; "business_type" ])
       (Some 9%Z));
    ("gst_registration",
     mkDetails (Some "GST Registration")
       (Some "Goods and Services Tax Network (GSTN)")
       (Some "GST REG-01")
       (Some [ "business_name"; "business_type"; "pan_number";
               "business_postal_address"; "proprietor_name"; "email_address";
               "mobile_number"; "bank_details"; "expected_turnover" ])
       (Some 9%Z));
    ("company_registration",
     mkDetails (Some "Company Registration")
       (Some "Registrar of Companies (ROC), Ministry of Corporate Affairs")
       (Some "INC-32 (SPICe+)")
       (Some [ "company_name"; "company_type"; "registered_office_address";
               "authorized_capital"; "director_details"; "business_activity";
               "email_address"; "mobile_number" ])
       (Some 8%Z)) ].

(** A member of [Object.prototype] read as form details: of the members
    above it only has a [name], the one the language gives its built-in
    functions ([Object] for the [constructor]; the prototype itself, under
    [__proto__], has none). *)
Definition builtinDetails (key : string) : FormDetails :=
  mkDetails
    (if String.eqb key "__proto__" then None
     else if String.eqb key "constructor" then Some "Object"
     else Some key)
    None None None None.

(** [formTemplates[formType] || { name: formName, ... }] *)
Definition generateUniversalFormDetails (formType formName : string)
    : FormDetails :=
  match getProperty formType formTemplates with
  | own details => details
  | inherited key => builtinDetails key
  | undefined =>
      mkDetails (Some formName) (Some "Government of India") (Some "As applicable")
        (Some [ "applicant_name"; "postal_address"; "email_address";
                "mobile_number"; "relevant_details"; "supporting_information" ])
        (Some 6%Z)
  end.

(** [firstQuestions[formType] || '...'] *)
Definition generateFirstQuestion (formType : string) : Question :=
  match questionOf formType
    [ ("fssai_food_license", "What type of FSSAI license do you need? (Basic Registration for turnover <₹12 lakh, State License for ₹12 lakh-₹20 crore, or Central License for >₹20 crore)");
      ("gst_registration", "What type of business entity are you registering for GST? (Proprietorship, Partnership, Private Limited Company, etc.)");
      ("company_registration", "What type of company do you want to register? (Private Limited, Public Limited, One Person Company, etc.)");
      ("trademark_registration", "What do you want to register as a trademark? (Brand name, logo, slogan, etc.)");
      ("import_export_license", "What type of Import Export Code (IEC) do you need? (Individual, Partnership, Company, etc.)") ]
  with
  | Some q => q
  | None => worded "What is the full legal name of the applicant for this form?"
  end.

(** The reply built when the model's text is not JSON. *)
Definition analyzeUniversalTextResponse (text userMessage : string)
    (session : Session) : AiResponse :=
  let input := JS.toLowerCase userMessage in
  let detectedForm := detect input governmentFormKeywords in
  match state session with
  | COLLECTING =>
      mkResponse field_collection (currentForm session) None None None
        "Thank you for providing that information."
  | _ =>
      match detectedForm with
      | Some (ftype, fname) =>
          mkResponse form_discovery (Some ftype)
            (Some (generateUniversalFormDetails ftype fname))
            (Some (generateFirstQuestion ftype)) None
            ("I can help you with " ++ fname ++
             ". Let me gather the required information.")
      | None =>
          mkResponse clarification_needed None None None None
            "I can help you with any Indian government form or document. This includes FSSAI food license, GST registration, company registration, trademark, PAN card, passport, driving license, and many more. What specific form do you need help with?"
      end
  end.

Definition govKeywords : list string :=
  [ "license"; "registration"; "certificate"; "card"; "permit";
    "application"; "form" ].

(** The reply built when every model invocation failed. *)
Definition universalFallback (userMessage : string) (session : Session)
    : AiResponse :=
  let message := JS.toLowerCase userMessage in
  let hasGovKeyword := existsb (fun keyword => JS.includes message keyword) govKeywords in
  if hasGovKeyword then
    mkResponse form_discovery (Some "general_government_form") None None None
      ("I can help you with government forms and documents. Could you please specify exactly which form or certificate you need? For example: "
       ++ dq ++ "FSSAI food license" ++ dq ++ ", "
       ++ dq ++ "GST registration" ++ dq ++ ", "
       ++ dq ++ "company registration" ++ dq ++ ", etc.")
  else
    mkResponse clarification_needed None None None None
      "I'm your government form assistant. I can help you with any Indian government form including FSSAI food license, GST registration, PAN card, passport, driving license, company registration, trademark registration, and many more. What specific government form or document do you need?".

(** What the advisory call came to. *)
Inductive Advisory : Type :=
| AllModelsFailed
| Parsed (reply : AiResponse)
| Unparsable (text : string).

Definition callClaudeAI (advisory : Advisory) (userMessage : string)
    (session : Session) : AiResponse :=
  match advisory with
  | Parsed reply => reply
  | Unparsable text => analyzeUniversalTextResponse text userMessage session
  | AllModelsFailed => universalFallback userMessage session
  end.

(** [universalQuestions] of [generateUniversalQuestion]. *)
Definition universalQuestions : list (string * string) :=
  [ ("email_address", "What is your EMAIL address? (Electronic mail like name@example.com)");
    ("mobile_number", "What is your mobile phone number? (10-digit number)");
    ("business_phone", "What is your business phone number?");
    ("postal_address", "What is your complete POSTAL address? (Include house/building number, street, area, city, state, and pincode)");
    ("business_postal_address", "What is your complete BUSINESS address? (Include building number, street, area, city, state, and pincode)");
    ("owner_postal_address", "What is your complete RESIDENTIAL address? (Include house number, street, city, state, and pincode)");
    ("registered_office_address", "What is the complete REGISTERED OFFICE address? (Include building number, street, area, city, state, and pincode)");
    ("applicant_name", "What is your full legal name as it appears on your official documents?");
    ("owner_name", "What is the full name of the business owner/proprietor?");
    ("proprietor_name", "What is the full name of the proprietor?");
    ("business_name", "What is the exact name of your business/company?");
    ("company_name", "What is your proposed company name?");
    ("business_type", "What type of business do you operate? (Manufacturing, Trading, Service, etc.)");
    ("company_type", "What type of company? (Private Limited, Public Limited, One Person Company, etc.)");
    ("food_category", "What type of food business? (Restaurant, Catering, Manufacturing, Trading, etc.)");
    ("license_type", "What type of license do you need?");
    ("business_activity", "What is the main business activity/nature of business?");
    ("authorized_capital", "What is the proposed authorized capital amount?");
    ("expected_turnover", "What is your expected annual business turnover?");
    ("bank_details", "What are your business bank account details? (Bank name, account number, IFSC)");
    ("pan_number", "What is your PAN (Permanent Account Number)? (Format: AAAAA9999A)");
    ("aadhaar_number", "What is your Aadhaar number? (12-digit number)");
    ("date_of_birth", "What is your date of birth? (DD/MM/YYYY format)");
    ("incorporation_date", "When do you want to incorporate the company? (DD/MM/YYYY)");
    ("director_details", "Who are the proposed directors? (Please provide names and details)");
    ("relevant_details", "Please provide any other relevant details for this application");
    ("supporting_information", "Do you have any additional supporting information?") ].

Definition contextQuestions : list (string * list (string * string)) :=
  [ ("fssai_food_license",
     [ ("business_name", "What is the name of your food business as you want it to appear on the FSSAI license?");
       ("food_category", "What type of food business are you operating? (Restaurant, Food Manufacturing, Catering, Online Food Business, etc.)") ]);
    ("gst_registration",
     [ ("business_name", "What is your business name for GST registration?");
       ("business_type", "What type of business entity? (Proprietorship, Partnership, Private Limited Company, etc.)") ]);
    ("company_registration",
     [ ("company_name", "What is your proposed company name? (It should end with Private Limited)");
       ("business_activity", "What will be the main business activity of your company?") ]) ].

(** [fieldName.replace(/_/g, ' ')] *)
Fixpoint underscoresToSpaces (s : string) : string :=
  match s with
  | EmptyString => EmptyString
  | String c s' =>
      String (if Ascii.eqb c "_" then " "%char else c) (underscoresToSpaces s')
  end.

(** What indexing a member of [Object.prototype] comes to: a falsy value
    ([undefined] as a rule), a truthy one, or a [TypeError] (the restricted
    [caller] and [arguments] of a built-in function). *)
Inductive Member : Type :=
| member_falsy
| member_truthy (q : Question)
| member_throws.

(** The built-in objects of the engine: [builtins holder key] is what
    [Object.prototype[holder][key]] comes to. *)
Definition Builtins : Type := string -> string -> Member.

(** The property name an index stands for: [undefined] indexes under
    ["undefined"]. *)
Definition propertyName (fieldName : option string) : string :=
  match fieldName with
  | Some f => f
  | None => "undefined"
  end.

(** [generateUniversalQuestion(fieldName, formType)]; [None] stands for a
    [TypeError]: the one raised by [fieldName.replace] when [fieldName] is
    [undefined] and neither table answers, or the one of a built-in
    object. *)
Definition generateUniversalQuestion (builtins : Builtins)
    (fieldName : option string) (formType : string) : option Question :=
  let contextual :=
    match getProperty formType contextQuestions with
    | own table =>
        match questionOf (propertyName fieldName) table with
        | Some q => member_truthy q
        | None => member_falsy
        end
    | inherited holder => builtins holder (propertyName fieldName)
    | undefined => member_falsy
    end in
  match contextual with
  | member_throws => None
  | member_truthy q => Some q
  | member_falsy =>
      match questionOf (propertyName fieldName) universalQuestions with
      | Some q => Some q
      | None =>
          match fieldName with
          | Some f =>
              Some (worded ("Please provide your " ++ underscoresToSpaces f ++ ":"))
          | None => None
          end
      end
  end.

(** [firstQuestions[formType] || '...'] *)
Definition generateUniversalFirstQuestion (formType : string) : Question :=
  match questionOf formType
    [ ("fssai_food_license", "What type of FSSAI license do you need? (Basic Registration for turnover <₹12 lakh, State License for ₹12 lakh-₹20 crore, or Central License for >₹20 crore)");
      ("gst_registration", "What type of business entity are you registering for GST? (Proprietorship, Partnership, Private Limited Company, etc.)");
      ("company_registration", "What type of company do you want to register? (Private Limited, Public Limited, One Person Company, etc.)");
      ("trademark_registration", "What do you want to register as a trademark? (Word mark, Logo, Device mark, etc.)");
      ("import_export_license", "Are you applying as an Individual, Partnership, or Company for the Import Export Code?");
      ("shop_establishment_license", "What type of establishment are you registering? (Shop, Office, Commercial Establishment, etc.)");
      ("drug_license", "What type of drug license do you need? (Manufacturing, Trading, Retail, etc.)");
      ("income_certificate", "For whom do you need the income certificate? (Self, Family member, etc.)");
      ("caste_certificate", "What is the category you belong to? (SC, ST, OBC, etc.)");
      ("birth_certificate", "For whom do you need the birth certificate? (Self, Child, etc.)");
      ("marriage_certificate", "What type of marriage certificate do you need? (Registration certificate, Court marriage certificate, etc.)") ]
  with
  | Some q => q
  | None => worded "What is your full legal name for this application?"
  end.

Inductive Action : Type :=
| start_universal_form (formType : string) (formDetails : FormDetails)
    (nextQuestion : Question)
| universal_form_complete (formData : gmap string string) (formType : string)
    (formDetails : FormDetails)
| ask_universal_question (question : Question) (fieldName : option string)
    (fieldNumber totalFields : Z)
| validation_error_action (message : string) (retry_question : option Question)
| clarification_needed_action (message : string).

(** [total_fields || fields_required.length]; [None] is the [TypeError] of
    [undefined.length]. *)
Definition totalFieldsOf (d : FormDetails) : option Z :=
  let length := option_map (fun fields => Z.of_nat (length fields)) (fields_required d) in
  match total_fields d with
  | Some n => if (n =? 0)%Z then length else Some n
  | None => length
  end.

(** [aiResponse.field_being_asked || fields_required[currentField] ||
    `field_${currentField}`]; [None] is the [TypeError] of indexing
    [undefined], reached when the reply names no field and the details have
    no [fields_required]. *)
Definition fieldNameOf (aiResponse : AiResponse) (details : FormDetails)
    (cursor : Z) : option string :=
  match orElse (field_being_asked aiResponse) None with
  | Some f => Some f
  | None =>
      match fields_required details with
      | None => None
      | Some fields =>
          Some match orElse (JS.index fields cursor) None with
               | Some f => f
               | None => "field_" ++ JS.ofNumber cursor
               end
      end
  end.

(** [updateSession(session.id, updates)] seen from the session object the
    handler holds, which is the object stored under [session.id]:
    [Object.assign] then a fresh [lastActivity]. *)
Definition bindForm (now : Z) (formType : string) (details : FormDetails)
    (s : Session) : Session :=
  mkSession (id s) (createdAt s) now COLLECTING (conversation s)
    (Some formType) ∅ 0 (generatedFiles s) (Some details).

(** [processConversation(aiResponse, session, userMessage)]: the session
    after the call and the actions pushed, or [None] when the call threw
    (the mutations made before the throw stay on the session). *)
Definition processConversation (builtins : Builtins) (now : Z)
    (aiResponse : AiResponse) (session : Session) (userMessage : string)
    : Session * option (list Action) :=
  let session :=
    withConversation
      (conversation session ++
         [ mkTurn user userMessage now; mkTurn bot (message aiResponse) now ])
      session in
  match intent aiResponse with
  | form_discovery =>
      match form_type aiResponse, form_details aiResponse with
      | Some ft, Some details =>
          if JS.truthy ft then
            (bindForm now ft details session,
             Some [ start_universal_form ft details
                      (match asked (current_question aiResponse) with
                       | Some q => q
                       | None => generateUniversalFirstQuestion ft
                       end) ])
          else (session, Some [])
      | _, _ => (session, Some [])
      end
  | field_collection =>
      match currentForm session, dynamicFormDetails session with
      | Some form, Some details =>
          if JS.truthy form then
            match fieldNameOf aiResponse details (currentField session) with
            | None => (session, None)
            | Some fieldName =>
                let session := withAnswer fieldName userMessage session in
                let session := withField (currentField session + 1) session in
                match totalFieldsOf details with
                | None => (session, None)
                | Some totalFields =>
                    if (currentField session >=? totalFields)%Z then
                      let session := withState COMPLETE session in
                      (withActivity now session,
                       Some [ universal_form_complete (formData session) form details ])
                    else
                      match fields_required details with
                      | None => (session, None)
                      | Some fields =>
                          let nextFieldName := JS.index fields (currentField session) in
                          match
                            match asked (current_question aiResponse) with
                            | Some q => Some q
                            | None => generateUniversalQuestion builtins nextFieldName form
                            end
                          with
                          | Some nextQuestion =>
                              (withActivity now session,
                               Some [ ask_universal_question nextQuestion nextFieldName
                                        (currentField session + 1) totalFields ])
                          | None => (session, None)
                          end
                      end
                end
            end
          else (session, Some [])
      | _, _ => (session, Some [])
      end
  | validation_error =>
      (session,
       Some [ validation_error_action (message aiResponse) (current_question aiResponse) ])
  | clarification_needed =>
      (session, Some [ clarification_needed_action (message aiResponse) ])
  | other_intent _ => (session, Some [])
  end.

(** The [/api/chat] handler.  An empty message is refused (status 400)
    before any session is touched; otherwise: fetch or create, ask the
    model, process, and the mutated object stays in the store.  The reply
    is the session with the actions pushed ([None] for the actions when
    [processConversation] threw and the handler answered 500). *)
Definition chat (builtins : Builtins) (uuid : string) (now : Z)
    (advisory : Advisory) (message : string) (sessionId : option string)
    (sessions : gmap string Session)
    : option (Session * option (list Action)) * gmap string Session :=
  if negb (JS.truthy message) then (None, sessions)
  else
    let '(session, sessions) := getSession uuid now sessionId sessions in
    let aiResponse := callClaudeAI advisory message session in
    let '(session, actions) :=
      processConversation builtins now aiResponse session message in
    (Some (session, actions), <[id session := session]> sessions).

(** [validateField(field, value)] *)
Definition validateField (field : Field) (value : string) : bool :=
  if negb (required field) && negb (JS.truthy (JS.trim value)) then true
  else if String.eqb (type field) "email" then Regex.test emailRegex value
  else if String.eqb (type field) "phone" then
    Regex.test phoneRegex (JS.stripNonDigits value)
  else if String.eqb (type field) "date" then Regex.test dateRegex value
  else (0 <? String.length (JS.trim value))%nat.

(** The hourly [cleanup]: every session idle for more than one hour is
    deleted, and the file names it held are collected for deletion (here in
    the order the fold visits the sessions). *)
Definition oneHour : Z := 60 * 60 * 1000.

Definition cleanup (now : Z) (sessions : gmap string Session)
    : list string * gmap string Session :=
  map_fold
    (fun sessionId session acc =>
       if (now - lastActivity session >? oneHour)%Z
       then ((fst acc ++ map filename (generatedFiles session))%list,
             delete sessionId (snd acc))
       else acc)
    ([], sessions) sessions.

Definition withFiles (files : list GeneratedFile) (s : Session) : Session :=
  mkSession (id s) (createdAt s) (lastActivity s) (state s) (conversation s)
    (currentForm s) (formData s) (currentField s) files (dynamicFormDetails s).

(** What [POST /api/generate-pdf] answers: a refusal (status 400), a failure
    of the renderer (status 500), or the name of the file. *)
Inductive PdfReply : Type :=
| pdf_refused (error : string)
| pdf_failed
| pdf_generated (file : string).

(** [POST /api/generate-pdf].  The renderer is outside the model:
    [rendered] says whether it produced the file or threw. *)
Definition generatePdf (now : Z) (rendered : bool) (sessionId : option string)
    (sessions : gmap string Session) : PdfReply * gmap string Session :=
  match sessionId with
  | None => (pdf_refused "Session ID is required", sessions)
  | Some sid =>
      if negb (JS.truthy sid) then (pdf_refused "Session ID is required", sessions)
      else
        match sessions !! sid with
        | None => (pdf_refused "Session not found or form not complete", sessions)
        | Some session =>
            match state session with
            | COMPLETE =>
                let formType :=
                  match orElse (currentForm session) None with
                  | Some f => f
                  | None => "government_form"
                  end in
                let file :=
                  formType ++ "_" ++ String.substring 0 8 sid ++ "_"
                  ++ JS.ofNumber now ++ ".pdf" in
                if rendered then
                  let session :=
                    withFiles
                      (generatedFiles session
                       ++ [mkFile file (currentForm session) now])
                      session in
                  (pdf_generated file, <[sid := withActivity now session]> sessions)
                else (pdf_failed, sessions)
            | _ => (pdf_refused "Session not found or form not complete", sessions)
            end
        end
  end.

(** What [fs.unlink] came to in [DELETE /api/files/:filename]. *)
Inductive Unlink : Type := unlinked | no_such_file | unlink_failed.

Inductive DeleteReply : Type := file_deleted | file_not_found | delete_failed.

(** [DELETE /api/files/:filename]: once the file is gone from the disk, its
    name is filtered out of every session. *)
Definition deleteFile (outcome : Unlink) (file : string)
    (sessions : gmap string Session) : DeleteReply * gmap string Session :=
  match outcome with
  | unlinked =>
      (file_deleted,
       (fun session =>
          withFiles
            (List.filter (fun f => negb (String.eqb (filename f) file))
               (generatedFiles session))
            session) <$> sessions)
  | no_such_file => (file_not_found, sessions)
  | unlink_failed => (delete_failed, sessions)
  end.

(** The [fields] of [governmentForms], under their keys. *)
Definition governmentForms : list (string * list Field) :=
  [ ("pan_card",
     [
       mkField "title" "What is your title?" "choice"
         ["Mr."; "Mrs."; "Ms."; "Dr."] false;
       mkField "full_name" "What is your full name?" "text"
         [] true;
       mkField "father_name" "What is your father's full name?" "text"
         [] true;
       mkField "dob" "What is your date of birth? (DD/MM/YYYY)" "date"
         [] true;
       mkField "gender" "What is your gender?" "choice"
         ["Male"; "Female"; "Other"] false;
       mkField "address" "What is your complete postal address?" "textarea"
         [] true;
       mkField "mobile" "What is your mobile number?" "phone"
         [] true;
       mkField "email" "What is your email address?" "email"
         [] true ]);
    ("driving_license",
     [
       mkField "license_type" "Are you applying for a new license or renewal?" "choice"
         ["New License"; "Renewal"; "Duplicate"] false;
       mkField "vehicle_class" "What type of vehicle do you want to drive?" "choice"
         ["Car (LMV)"; "Motorcycle"; "Both Car & Motorcycle"; "Commercial Vehicle"] false;
       mkField "full_name" "What is your full name as per official documents?" "text"
         [] true;
       mkField "father_name" "What is your father's name?" "text"
         [] true;
       mkField "dob" "What is your date of birth? (DD/MM/YYYY)" "date"
         [] true;
       mkField "address" "What is your complete address?" "textarea"
         [] true;
       mkField "mobile" "What is your mobile number?" "phone"
         [] true;
       mkField "blood_group" "What is your blood group?" "choice"
         ["A+"; "A-"; "B+"; "B-"; "AB+"; "AB-"; "O+"; "O-"] false ]);
    ("passport",
     [
       mkField "passport_type" "What type of passport do you need?" "choice"
         ["Fresh Passport"; "Re-issue"; "Renewal"] false;
       mkField "booklet_type" "How many pages do you need?" "choice"
         ["36 pages"; "60 pages"] false;
       mkField "full_name" "What is your full name?" "text"
         [] true;
       mkField "father_name" "What is your father's name?" "text"
         [] true;
       mkField "mother_name" "What is your mother's name?" "text"
         [] true;
       mkField "dob" "What is your date of birth? (DD/MM/YYYY)" "date"
         [] true;
       mkField "place_of_birth" "What is your place of birth (city)?" "text"
         [] true;
       mkField "address" "What is your current address?" "textarea"
         [] true ]) ].

(** What [GET /api/session/:sessionId] answers: 404, the [TypeError] of
    [governmentForms[session.currentForm].fields.length] on a form the table
    does not hold (a member of [Object.prototype] has no [fields] either),
    or the session's state, form, answers, progress and files. *)
Inductive SessionInfo : Type :=
| info_not_found
| info_threw
| info_reply (state : State) (currentForm : option string)
    (formData : gmap string string) (progress : option string)
    (files : list GeneratedFile).

Definition sessionInfo (sessionId : string) (sessions : gmap string Session)
    : SessionInfo :=
  match sessions !! sessionId with
  | None => info_not_found
  | Some session =>
      match orElse (currentForm session) None with
      | Some form =>
          match getProperty form governmentForms with
          | own fields =>
              info_reply (state session) (currentForm session) (formData session)
                (Some (JS.ofNumber (currentField session) ++ "/"
                       ++ JS.ofNumber (Z.of_nat (length fields))))
                (generatedFiles session)
          | inherited _ | undefined => info_threw
          end
      | None =>
          info_reply (state session) (currentForm session) (formData session)
            None (generatedFiles session)
      end
  end.

End Legacy.

(** ** The LangChain engine ([services/]) *)

Module LangChain.

(** An entry of [VERIFIED_GOVERNMENT_FORMS]; the document list, fees and
    processing time are rendering metadata and are left out. *)
Record Schema : Type := mkSchema {
  schema_name : string;
  authority : string;
  form_number : string;
  verified_fields : list Field
}.

Definition VERIFIED_GOVERNMENT_FORMS : list (string * Schema) :=
[
  ("pan_card_application",
   mkSchema "PAN Card Application"
     "Income Tax Department, Government of India"
     "Form 49A (Individuals) / Form 49AA (Foreign Citizens)"
     [ mkField "applicant_category" "What category of applicant are you?" "choice"
         ["Individual"; "HUF"; "Company"; "Firm"; "Trust"; "Association of Persons"] true;
       mkField "full_name" "What is your full name? (As per Aadhaar/ID proof)" "text"
         [] true;
       mkField "father_name" "What is your father's full name?" "text"
         [] true;
       mkField "date_of_birth" "What is your date of birth? (DD/MM/YYYY format)" "text"
         [] true;
       mkField "mobile_number" "What is your mobile number?" "phone"
         [] true;
       mkField "email_address" "What is your email address?" "email"
         [] true;
       mkField "address" "What is your complete residential address?" "textarea"
         [] true;
       mkField "id_proof" "Which ID proof are you submitting?" "choice"
         ["Aadhaar Card"; "Voter ID"; "Passport"; "Driving License"] true;
       mkField "address_proof" "Which address proof are you submitting?" "choice"
         ["Aadhaar Card"; "Electricity Bill"; "Water Bill"; "Passport"; "Rental Agreement"] true ]);
  ("passport_application",
   mkSchema "Passport Application"
     "Passport Seva Kendra, Ministry of External Affairs"
     "Online Application Form"
     [ mkField "application_type" "What type of passport application are you submitting?" "choice"
         ["Fresh Passport"; "Reissue of Passport"; "Tatkal Passport"] true;
       mkField "full_name" "What is your full name? (As per documents)" "text"
         [] true;
       mkField "date_of_birth" "What is your date of birth? (DD/MM/YYYY format)" "text"
         [] true;
       mkField "place_of_birth" "What is your place of birth? (City and State/Country)" "text"
         [] true;
       mkField "gender" "What is your gender?" "choice"
         ["Male"; "Female"; "Other"] true;
       mkField "marital_status" "What is your marital status?" "choice"
         ["Single"; "Married"; "Divorced"; "Widowed"] true;
       mkField "address" "What is your present residential address?" "textarea"
         [] true;
       mkField "mobile_number" "What is your mobile number?" "phone"
         [] true;
       mkField "email_address" "What is your email address?" "email"
         [] true;
       mkField "emergency_contact" "What is your emergency contact name and number?" "text"
         [] true ]);
  ("driving_license",
   mkSchema "Driving License Application"
     "Regional Transport Office (RTO)"
     "Form 4 (Learner's License), Form 7 (Permanent License)"
     [ mkField "license_type" "What type of driving license are you applying for?" "choice"
         ["Learner's License"; "Permanent Driving License"; "International Driving Permit"] true;
       mkField "vehicle_category" "For which vehicle category?" "choice"
         ["Two Wheeler"; "Light Motor Vehicle (Car)"; "Commercial Vehicle"; "Heavy Vehicle"] true;
       mkField "full_name" "What is your full name?" "text"
         [] true;
       mkField "father_name" "What is your father's/husband's name?" "text"
         [] true;
       mkField "date_of_birth" "What is your date of birth? (DD/MM/YYYY format)" "text"
         [] true;
       mkField "blood_group" "What is your blood group?" "choice"
         ["A+"; "A-"; "B+"; "B-"; "AB+"; "AB-"; "O+"; "O-"] true;
       mkField "address" "What is your permanent address?" "textarea"
         [] true;
       mkField "mobile_number" "What is your mobile number?" "phone"
         [] true;
       mkField "email_address" "What is your email address?" "email"
         [] true ]);
  ("voter_id",
   mkSchema "Voter ID Registration"
     "Election Commission of India"
     "Form 6"
     [ mkField "full_name" "What is your full name?" "text"
         [] true;
       mkField "relative_name" "What is your father's/mother's/husband's name?" "text"
         [] true;
       mkField "date_of_birth" "What is your date of birth? (DD/MM/YYYY format)" "text"
         [] true;
       mkField "gender" "What is your gender?" "choice"
         ["Male"; "Female"; "Other"] true;
       mkField "current_address" "What is your current residential address?" "textarea"
         [] true;
       mkField "permanent_address" "What is your permanent address? (If different from current)" "textarea"
         [] false;
       mkField "mobile_number" "What is your mobile number?" "phone"
         [] true;
       mkField "email_address" "What is your email address?" "email"
         [] false;
       mkField "previous_voter_id" "Do you have a previous Voter ID? If yes, provide the number" "text"
         [] false ]);
  ("fssai_food_license",
   mkSchema "FSSAI Food Safety License"
     "Food Safety and Standards Authority of India (FSSAI)"
     "Form A/B/C"
     [ mkField "license_type" "What type of FSSAI license do you need?" "choice"
         ["Basic Registration (<₹12 lakh turnover)"; "State License (₹12 lakh - ₹20 crore)"; "Central License (>₹20 crore)"] true;
       mkField "business_name" "What is the exact name of your food business?" "text"
         [] true;
       mkField "owner_name" "What is the full name of the business owner/proprietor?" "text"
         [] true;
       mkField "business_address" "What is the complete business address? (Include building number, street, area, city, state, pincode)" "textarea"
         [] true;
       mkField "owner_address" "What is the owner's residential address?" "textarea"
         [] true;
       mkField "email_address" "What is your email address? (Electronic mail like name@example.com)" "email"
         [] true;
       mkField "mobile_number" "What is your mobile number? (10-digit Indian mobile number)" "phone"
         [] true;
       mkField "food_category" "What type of food business are you operating?" "choice"
         ["Restaurant/Dhaba"; "Catering Services"; "Food Manufacturing"; "Food Trading/Distribution"; "Online Food Business"; "Bakery"; "Sweet Shop"; "Other"] true;
       mkField "annual_turnover" "What is your expected annual business turnover?" "text"
         [] true ]);
  ("gst_registration",
   mkSchema "GST Registration"
     "Goods and Services Tax Network (GSTN)"
     "GST REG-01"
     [ mkField "business_type" "What type of business entity are you registering?" "choice"
         ["Proprietorship"; "Partnership"; "Private Limited Company"; "Public Limited Company"; "LLP"; "Trust"; "NGO"; "Other"] true;
       mkField "business_name" "What is your business name for GST registration?" "text"
         [] true;
       mkField "pan_number" "What is your PAN number? (Format: AAAAA9999A)" "text"
         [] true;
       mkField "business_address" "What is your principal place of business address?" "textarea"
         [] true;
       mkField "proprietor_name" "What is the full name of the proprietor/authorized person?" "text"
         [] true;
       mkField "email_address" "What is your email address for GST communication?" "email"
         [] true;
       mkField "mobile_number" "What is your mobile number?" "phone"
         [] true;
       mkField "bank_account" "What are your business bank account details? (Bank name and account number)" "text"
         [] true;
       mkField "business_activity" "What is your main business activity?" "text"
         [] true;
       mkField "expected_turnover" "What is your expected annual turnover?" "text"
         [] true ]);
  ("company_registration",
   mkSchema "Private Limited Company Registration"
     "Registrar of Companies (ROC), Ministry of Corporate Affairs"
     "SPICe+ (INC-32)"
     [ mkField "company_name" "What is your proposed company name? (Must end with 'Private Limited')" "text"
         [] true;
       mkField "company_type" "What type of company do you want to register?" "choice"
         ["Private Limited Company"; "One Person Company (OPC)"; "Public Limited Company"; "Limited Liability Partnership (LLP)"] true;
       mkField "registered_office" "What is the registered office address?" "textarea"
         [] true;
       mkField "authorized_capital" "What is the authorized capital amount? (Minimum ₹1,00,000)" "text"
         [] true;
       mkField "director1_name" "What is the full name of Director 1?" "text"
         [] true;
       mkField "director1_pan" "What is the PAN number of Director 1?" "text"
         [] true;
       mkField "director2_name" "What is the full name of Director 2? (Required for Pvt Ltd)" "text"
         [] false;
       mkField "director2_pan" "What is the PAN number of Director 2?" "text"
         [] false;
       mkField "business_activity" "What will be the main business activity of the company?" "text"
         [] true;
       mkField "email_address" "What is the company's email address?" "email"
         [] true ]) ].

(** What [session.verifiedFormStructure] can hold: an entry of the
    registry, or the member of [Object.prototype] that
    [VERIFIED_GOVERNMENT_FORMS[id]] answers for an inherited name; the
    latter has no [verified_fields]. *)
Inductive FormObject : Type :=
| verified (form : Schema)
| builtin (key : string).

(** [VERIFIED_GOVERNMENT_FORMS[id]]; [None] is [undefined]. *)
Definition lookupForm (form_id : string) : option FormObject :=
  match getProperty form_id VERIFIED_GOVERNMENT_FORMS with
  | own form => Some (verified form)
  | inherited key => Some (builtin key)
  | undefined => None
  end.

Inductive MessageType : Type := human | ai.

Record ChatMessage : Type := mkMessage {
  messageType : MessageType;
  content : string
}.

Record GeneratedFile : Type := mkFile {
  filename : string;
  generatedAt : Z
}.

(** [class LangChainSession]; [memory] is the chat history of the
    [BufferMemory]. *)
Record LangChainSession : Type := mkSession {
  id : string;
  createdAt : Z;
  lastActivity : Z;
  state : State;
  currentForm : option string;
  currentField : Z;
  formData : gmap string string;
  verifiedFormStructure : option FormObject;
  generatedFiles : list GeneratedFile;
  memory : list ChatMessage
}.

(** [new LangChainSession(sessionId)] *)
Definition newSession (uuid : string) (now : Z) (sessionId : option string)
    : LangChainSession :=
  let id := match orElse sessionId (Some uuid) with
            | Some i => i
            | None => uuid
            end in
  mkSession id now now INIT None 0 ∅ None [] [].

Definition withActivity (now : Z) (s : LangChainSession) : LangChainSession :=
  mkSession (id s) (createdAt s) now (state s) (currentForm s)
    (currentField s) (formData s) (verifiedFormStructure s)
    (generatedFiles s) (memory s).

(** [session.addMessage(type, content)] *)
Definition addMessage (now : Z) (t : MessageType) (text : string)
    (s : LangChainSession) : LangChainSession :=
  mkSession (id s) (createdAt s) now (state s) (currentForm s)
    (currentField s) (formData s) (verifiedFormStructure s)
    (generatedFiles s) (memory s ++ [mkMessage t text]).

Definition bindForm (form_id : string) (form : FormObject)
    (s : LangChainSession) : LangChainSession :=
  mkSession (id s) (createdAt s) (lastActivity s) COLLECTING (Some form_id)
    0 (formData s) (Some form) (generatedFiles s) (memory s).

(** [session.formData[currentField.name] = value], for the field names of
    the registry (none of them is [__proto__], the one name under which an
    object literal stores nothing). *)
Definition withAnswer (key value : string) (s : LangChainSession)
    : LangChainSession :=
  mkSession (id s) (createdAt s) (lastActivity s) (state s) (currentForm s)
    (currentField s) (<[key := value]> (formData s))
    (verifiedFormStructure s) (generatedFiles s) (memory s).

Definition withField (n : Z) (s : LangChainSession) : LangChainSession :=
  mkSession (id s) (createdAt s) (lastActivity s) (state s) (currentForm s)
    n (formData s) (verifiedFormStructure s) (generatedFiles s) (memory s).

Definition withState (st : State) (s : LangChainSession) : LangChainSession :=
  mkSession (id s) (createdAt s) (lastActivity s) st (currentForm s)
    (currentField s) (formData s) (verifiedFormStructure s)
    (generatedFiles s) (memory s).

(** [getSession(sessionId)] of [sessionService.js] *)
Definition getSession (uuid : string) (now : Z) (sessionId : option string)
    (sessions : gmap string LangChainSession)
    : LangChainSession * gmap string LangChainSession :=
  let create :=
    let session := newSession uuid now sessionId in
    (session, <[id session := session]> sessions) in
  match sessionId with
  | Some sid =>
      if falsy sessionId then create
      else
        match sessions !! sid with
        | None => create
        | Some session =>
            let session := withActivity now session in
            (session, <[sid := session]> sessions)
        end
  | None => create
  end.

(** [cleanupSessions(maxAge = 24 * 60 * 60 * 1000)]: the loop over
    [sessions.entries()] deleting from the map it walks. *)
Definition defaultMaxAge : Z := 24 * 60 * 60 * 1000.

Definition cleanupSessions (now : Z) (maxAge : option Z)
    (sessions : gmap string LangChainSession)
    : gmap string LangChainSession :=
  let maxAge := match maxAge with Some m => m | None => defaultMaxAge end in
  map_fold
    (fun sessionId session acc =>
       let age := (now - lastActivity session)%Z in
       if (age >? maxAge)%Z then delete sessionId acc else acc)
    sessions sessions.

(** The object [validateFieldInput] returns. *)
Record Validation : Type := mkValidation {
  valid : bool;
  value : string;
  error : option string
}.

(** [validateFieldInput(field, userInput)] *)
Definition validateFieldInput (field : Field) (userInput : string)
    : Validation :=
  if negb (required field) && negb (JS.truthy (JS.trim userInput)) then
    mkValidation true userInput None
  else if String.eqb (type field) "email" then
    mkValidation (Regex.test emailRegex userInput) userInput
      (if Regex.test emailRegex userInput then None
       else Some "Please provide a valid email address (like name@example.com)")
  else if String.eqb (type field) "phone" then
    let cleanPhone := JS.stripNonDigits userInput in
    mkValidation (Regex.test phoneRegex cleanPhone) cleanPhone
      (if Regex.test phoneRegex cleanPhone then None
       else Some "Please provide a valid 10-digit Indian mobile number")
  else if String.eqb (type field) "choice" then
    let validChoice :=
      existsb
        (fun option =>
           JS.includes (JS.toLowerCase userInput) (JS.toLowerCase option) ||
           JS.includes (JS.toLowerCase option) (JS.toLowerCase userInput))
        (options field) in
    mkValidation validChoice userInput
      (if validChoice then None
       else Some ("Please choose from: " ++ JS.join ", " (options field)))
  else
    mkValidation (0 <? String.length (JS.trim userInput))%nat (JS.trim userInput)
      (if (0 <? String.length (JS.trim userInput))%nat then None
       else Some "This field is required").

(** What the two chains answer; [None] is a rejected [invoke]. *)
Record DiscoveryResult : Type := mkDiscovery {
  matched_form_id : option string;
  message : string
}.

Record ValidationResult : Type := mkValidationResult {
  llm_valid : bool;
  cleaned_value : string;
  error_message : option string
}.

Record Chains : Type := mkChains {
  formDiscoveryChain : option DiscoveryResult;
  fieldValidationChain : option ValidationResult
}.

Inductive Response : Type :=
| form_discovered (formDetails : Schema) (nextQuestion message : string)
| clarification_needed (message : string)
| validation_error (message : option string) (retryQuestion : string)
| form_complete (formData : gmap string string) (formDetails : Schema)
    (message : string)
| next_question (question progress message : string)
| error_response (message : string).

Definition nl : string := String (ascii_of_nat 10) EmptyString.

(** The reply of the [catch] block. *)
Definition caught : option Response :=
  Some (error_response "I encountered an error processing your request. Please try again.").

(** The tail of the collection branch, after the answer was stored. *)
Definition advance (now : Z) (form : Schema) (session : LangChainSession)
    : LangChainSession * option Response :=
  let session := withField (currentField session + 1) session in
  let session := addMessage now ai "Thank you! Information recorded." session in
  let total := Z.of_nat (length (verified_fields form)) in
  if (currentField session >=? total)%Z then
    let session := withState COMPLETE session in
    (session,
     Some (form_complete (formData session) form
             "🎉 Form completed with LangChain validation! All required information has been collected. You can now generate the PDF."))
  else
    match JS.index (verified_fields form) (currentField session) with
    | None => (session, caught)
    | Some nextField =>
        let progress :=
          JS.ofNumber (currentField session + 1) ++ "/" ++ JS.ofNumber total in
        (session,
         Some (next_question (question nextField) progress
                 ("Great! Next question (" ++ progress ++ "):" ++ nl ++ nl
                  ++ question nextField)))
    end.

(** [result.matched_form_id && VERIFIED_GOVERNMENT_FORMS[result.matched_form_id]]
    when truthy, with the name it was found under. *)
Definition matchedForm (result : DiscoveryResult) : option (string * FormObject) :=
  match matched_form_id result with
  | Some form_id =>
      if JS.truthy form_id
      then option_map (pair form_id) (lookupForm form_id)
      else None
  | None => None
  end.

(** What the discovery branch does with the chain's answer: it binds what
    [VERIFIED_GOVERNMENT_FORMS] answers under the name given, an entry of
    the registry, whose first question is asked, or an inherited member, on
    which reading the first field throws once the session is bound; without
    such a name it asks for clarification. *)
Definition discovered (now : Z) (result : DiscoveryResult)
    (session : LangChainSession) : LangChainSession * option Response :=
  match matchedForm result with
  | Some (form_id, verified form) =>
      let session := bindForm form_id (verified form) session in
      let session := addMessage now ai (message result) session in
      match JS.index (verified_fields form) 0 with
      | None => (session, caught)
      | Some firstField =>
          (session,
           Some (form_discovered form (question firstField)
                   (message result ++ nl ++ nl
                    ++ "✅ This form uses VERIFIED government requirements with LangChain validation."
                    ++ nl ++ nl ++ "Let's start with the first question:"
                    ++ nl ++ nl ++ question firstField)))
      end
  | Some (form_id, builtin key) =>
      (bindForm form_id (builtin key) session, caught)
  | None =>
      (addMessage now ai (message result) session,
       Some (clarification_needed (message result)))
  end.

(** The form-discovery branch.  The arguments of the chain are built
    first, and [verifiedFormStructure?.verified_fields.length] throws on a
    member of [Object.prototype]; a rejected [invoke] is caught as well. *)
Definition discover (now : Z) (chains : Chains) (session : LangChainSession)
    : LangChainSession * option Response :=
  match verifiedFormStructure session with
  | Some (builtin _) => (session, caught)
  | _ =>
      match formDiscoveryChain chains with
      | None => (session, caught)
      | Some result => discovered now result session
      end
  end.

(** [processUserMessage(userMessage, session)]: the session after the call
    and the value returned ([None] is [undefined]). *)
Definition processUserMessage (now : Z) (chains : Chains)
    (userMessage : string) (session : LangChainSession)
    : LangChainSession * option Response :=
  let session := addMessage now human userMessage session in
  match state session with
  | INIT | FORM_DISCOVERY => discover now chains session
  | COLLECTING =>
      match verifiedFormStructure session with
      | None | Some (builtin _) => (session, caught)
      | Some (verified form) =>
          match JS.index (verified_fields form) (currentField session) with
          | None => (session, caught)
          | Some currentField =>
              let validation := validateFieldInput currentField userMessage in
              if String.eqb (type currentField) "complex" then
                match fieldValidationChain chains with
                | None => (session, caught)
                | Some validationResult =>
                    if negb (llm_valid validationResult) then
                      (session,
                       Some (validation_error (error_message validationResult)
                               (question currentField)))
                    else
                      advance now form
                        (withAnswer (name currentField)
                           (cleaned_value validationResult) session)
                end
              else if negb (valid validation) then
                (session,
                 Some (validation_error (error validation) (question currentField)))
              else
                advance now form
                  (withAnswer (name currentField) (value validation) session)
          end
      end
  | COMPLETE => (session, None)
  end.

(** What the [POST /chat] route answers: the value of [processUserMessage]
    with the progress [cursor/fields] it prints ([null] while nothing is
    bound), or status 500 when computing the progress threw. *)
Inductive ChatReply : Type :=
| answered (response : option Response) (progress : option string)
| failed.

(** The [POST /chat] route: fetch or create the session, process the
    message, and answer; the mutated object stays in the store whatever the
    answer.  [verifiedFormStructure.verified_fields.length] throws on a
    member of [Object.prototype]. *)
Definition chat (uuid : string) (now : Z) (chains : Chains)
    (message : string) (sessionId : option string)
    (sessions : gmap string LangChainSession)
    : LangChainSession * ChatReply * gmap string LangChainSession :=
  let '(session, sessions) := getSession uuid now sessionId sessions in
  let '(session, response) := processUserMessage now chains message session in
  (session,
   match verifiedFormStructure session with
   | None => answered response None
   | Some (verified form) =>
       answered response
         (Some (JS.ofNumber (currentField session) ++ "/"
                ++ JS.ofNumber (Z.of_nat (length (verified_fields form)))))
   | Some (builtin _) => failed
   end,
   <[id session := session]> sessions).

(** The sweep the V4 server schedules: [cleanupSessions(6 * 60 * 60 * 1000)],
    every six hours. *)
Definition sixHours : Z := 6 * 60 * 60 * 1000.

Definition scheduledCleanup (now : Z) (sessions : gmap string LangChainSession)
    : gmap string LangChainSession :=
  cleanupSessions now (Some sixHours) sessions.

(** What [POST /generate-pdf] of [routes/chat.js] answers. *)
Inductive PdfReply : Type :=
| pdf_refused
| pdf_failed
| pdf_generated (file : string).

(** [POST /generate-pdf] of [routes/chat.js]: the session is fetched with
    [getSession], the renderer ([rendered]: it produced the file, or threw)
    is outside the model, and nothing is recorded on the session.  The
    answer reads [verifiedFormStructure.name], which throws when nothing is
    bound. *)
Definition generatePdf (uuid : string) (now : Z) (rendered : bool)
    (sessionId : option string) (sessions : gmap string LangChainSession)
    : PdfReply * gmap string LangChainSession :=
  let '(session, sessions) := getSession uuid now sessionId sessions in
  match state session with
  | COMPLETE =>
      let file :=
        match currentForm session with Some f => f | None => "null" end
        ++ "_langchain_" ++ JS.ofNumber now ++ ".pdf" in
      if rendered then
        match verifiedFormStructure session with
        | Some _ => (pdf_generated file, sessions)
        | None => (pdf_failed, sessions)
        end
      else (pdf_failed, sessions)
  | _ => (pdf_refused, sessions)
  end.

(** The text [parseJSONOutput] hands to [JSON.parse]. *)
Definition cleanInput (input : string) : string := JS.extractJSON (JS.trim input).

(** [msg._getType()] *)
Definition typeName (t : MessageType) : string :=
  match t with human => "human" | ai => "ai" end.

(** [getConversationHistory()]: the last six messages, one per line. *)
Definition getConversationHistory (s : LangChainSession) : string :=
  JS.join nl
    (map (fun msg => typeName (messageType msg) ++ ": " ++ content msg)
       (JS.slice (-6) (memory s))).

End LangChain.

(** ** Shapes the claims speak of *)

(** [n] characters, all of them decimal digits. *)
Definition digits (n : nat) (s : string) : Prop :=
  String.length s = n /\ forallb JS.is_digit (list_ascii_of_string s) = true.


(** Ten digits, the first of them between 6 and 9. *)
Definition mobile_shape (s : string) : Prop :=
  digits 10 s /\ exists c rest, s = String c rest /\ sixToNine c = true.

(** The first rule of both validators: the field is optional and the input
    is blank after trimming, that is empty or made of white space only
    (JavaScript's: TAB, LF, VT, FF, CR, SPACE and the no-break space). *)
Definition blank_optional (f : Field) (raw : string) : Prop :=
  required f = false /\ JS.trim raw = "".

(** The no-break space U+00A0 as a string. *)
Definition nbsp : string := String (ascii_of_nat 160) "".

(** Fields used as concrete instances. *)
Definition mobile_number : Field :=
  mkField "mobile_number" "What is your mobile number?" "phone" [] true.

Definition email_address : Field :=
  mkField "email_address" "What is your email address?" "email" [] true.



(** The engine-independent reading of a field count: the length of the bound
    schema's field list, and 0 while no schema is bound (nothing at all, or
    a member of [Object.prototype], which has no field list). *)
Definition fieldCount (s : LangChain.LangChainSession) : Z :=
  match LangChain.verifiedFormStructure s with
  | Some (LangChain.verified form) =>
      Z.of_nat (length (LangChain.verified_fields form))
  | _ => 0
  end.

(** A run of the LangChain engine on one session: each event is the clock,
    what the chains would answer, and the user's message. *)
Definition Event : Type := Z * LangChain.Chains * string.

Definition handle (e : Event) (s : LangChain.LangChainSession)
    : LangChain.LangChainSession :=
  let '(now, chains, userMessage) := e in
  fst (LangChain.processUserMessage now chains userMessage s).

Definition run (events : list Event) (s : LangChain.LangChainSession)
    : LangChain.LangChainSession :=
  fold_left (fun s e => handle e s) events s.

(** The standing bound on the cursor. *)
Definition cursor_ok (s : LangChain.LangChainSession) : Prop :=
  (0 <= LangChain.currentField s <= fieldCount s)%Z.

(** While a session is still discovering its form, the cursor rests at 0. *)
Definition rests_at_zero (s : LangChain.LangChainSession) : Prop :=
  LangChain.state s = INIT \/ LangChain.state s = FORM_DISCOVERY ->
  LangChain.currentField s = 0%Z.

(** What one call can do to the cursor, the binding and the state: leave
    them alone, bind a form (from a discovering state, cursor at 0), or
    advance past the field at the cursor (from [COLLECTING]). *)
Inductive Step (s s' : LangChain.LangChainSession) : Prop :=
| step_same :
    LangChain.currentField s' = LangChain.currentField s ->
    LangChain.verifiedFormStructure s' = LangChain.verifiedFormStructure s ->
    LangChain.state s' = LangChain.state s ->
    LangChain.formData s' = LangChain.formData s ->
    Step s s'
| step_bind (form : LangChain.FormObject) :
    LangChain.state s = INIT \/ LangChain.state s = FORM_DISCOVERY ->
    LangChain.verifiedFormStructure s' = Some form ->
    LangChain.currentField s' = 0%Z ->
    LangChain.state s' = COLLECTING ->
    Step s s'
| step_advance (form : LangChain.Schema) (f : Field) :
    LangChain.state s = COLLECTING ->
    LangChain.verifiedFormStructure s = Some (LangChain.verified form) ->
    JS.index (LangChain.verified_fields form) (LangChain.currentField s) = Some f ->
    LangChain.verifiedFormStructure s' = Some (LangChain.verified form) ->
    LangChain.currentField s' = (LangChain.currentField s + 1)%Z ->
    LangChain.state s' = COLLECTING \/ LangChain.state s' = COMPLETE ->
    Step s s'.

(** An absent or unknown session identifier. *)
Definition unknown {A} (sessionId : option string) (sessions : gmap string A) : Prop :=
  match sessionId with
  | None => True
  | Some sid => sid = "" \/ sessions !! sid = None
  end.

Definition applicant_category : Field :=
  mkField "applicant_category" "What category of applicant are you?" "choice"
    ["Individual"; "HUF"; "Company"; "Firm"; "Trust"; "Association of Persons"] true.

(** *** Two concrete dialogues

    The LangChain one binds the PAN card form and answers its nine fields
    with the chains out of reach after discovery; the legacy one is driven
    by replies of the model that are not JSON. *)

Definition offline : LangChain.Chains := LangChain.mkChains None None.

Definition matching (form_id : string) : LangChain.Chains :=
  LangChain.mkChains
    (Some (LangChain.mkDiscovery (Some form_id) "I can help you with that form."))
    None.

Definition fresh : LangChain.LangChainSession :=
  LangChain.newSession "generated" 0 None.

Definition pan_opening : Event :=
  (1000%Z, matching "pan_card_application", "I need a PAN card").

Definition pan_until_email : list Event :=
  [ pan_opening;
    (2000%Z, offline, "Individual");
    (3000%Z, offline, "Asha Rao");
    (4000%Z, offline, "Ravi Rao");
    (5000%Z, offline, "01/01/1990");
    (6000%Z, offline, "98765-43210") ].

Definition pan_from_email : list Event :=
  [ (7000%Z, offline, "asha@example.com");
    (8000%Z, offline, "12 MG Road, Pune");
    (9000%Z, offline, "Aadhaar Card");
    (10000%Z, offline, "Electricity Bill") ].

Definition at_email : LangChain.LangChainSession := run pan_until_email fresh.

Definition completed : LangChain.LangChainSession := run pan_from_email at_email.

Definition LegacyEvent : Type := Z * Legacy.Advisory * string.

(** Successive [/api/chat] requests carrying the same [sessionId]. *)
Definition replay (builtins : Legacy.Builtins) (sessionId : string)
    (events : list LegacyEvent) (sessions : gmap string Legacy.Session)
    : gmap string Legacy.Session :=
  fold_left
    (fun sessions (e : LegacyEvent) =>
       let '(now, advisory, message) := e in
       snd (Legacy.chat builtins "generated" now advisory message
              (Some sessionId) sessions))
    events sessions.

(** Built-in objects that answer [undefined] to every index.  The concrete
    dialogues below never bind a property name of [Object.prototype] as
    their form, so the built-in objects are not consulted and the course of
    these dialogues is the same whatever they answer. *)
Definition silent : Legacy.Builtins := fun _ _ => Legacy.member_falsy.

Definition legacy_dialogue : list LegacyEvent :=
  [ (1000%Z, Legacy.Unparsable "Happy to help.", "I need a PAN card");
    (2000%Z, Legacy.Unparsable "Noted.", "Asha Rao");
    (3000%Z, Legacy.Unparsable "Noted.", "12 MG Road, Pune");
    (4000%Z, Legacy.Unparsable "Noted.", "asha@example.com");
    (5000%Z, Legacy.Unparsable "Noted.", "9876543210");
    (6000%Z, Legacy.Unparsable "Noted.", "none");
    (7000%Z, Legacy.Unparsable "Noted.", "none") ].

Definition legacy_completed : gmap string Legacy.Session :=
  replay silent "s1" legacy_dialogue ∅.

(** A parsed reply of the model that only carries an intent. *)
Definition bare (i : Legacy.Intent) : Legacy.AiResponse :=
  Legacy.mkResponse i None None None None "Thank you.".

(** *** Shapes of accepted answers *)



(** Only white space, as [\s] and [trim] see it. *)
Definition blank (s : string) : Prop :=
  forallb JS.is_space (list_ascii_of_string s) = true.

(** [sub] occurs in [s]. *)
Definition occurs (sub s : string) : Prop :=
  exists before after : string, s = before ++ sub ++ after.


(** *** What a reachable LangChain session looks like *)

(** The answers on record are those of the fields before the cursor. *)
Definition answered_before (form : LangChain.Schema)
    (s : LangChain.LangChainSession) : Prop :=
  forall k : string,
    is_Some (LangChain.formData s !! k) <->
    exists (i : Z) (f : Field),
      (0 <= i < LangChain.currentField s)%Z /\
      JS.index (LangChain.verified_fields form) i = Some f /\
      name f = k.

(** Nothing bound, in [INIT], with nothing on record; or a form of the
    registry bound under its identifier, with the state telling whether
    fields are left; or a member of [Object.prototype] bound under its
    name, in [COLLECTING] with the cursor at 0 and nothing on record. *)
Definition coherent (s : LangChain.LangChainSession) : Prop :=
  match LangChain.verifiedFormStructure s with
  | None =>
      LangChain.state s = INIT /\ LangChain.currentField s = 0%Z /\
      LangChain.formData s = ∅ /\ LangChain.currentForm s = None
  | Some (LangChain.builtin key) =>
      LangChain.state s = COLLECTING /\ LangChain.currentField s = 0%Z /\
      LangChain.formData s = ∅ /\ LangChain.currentForm s = Some key /\
      In key objectPrototype
  | Some (LangChain.verified form) =>
      (exists form_id,
         LangChain.currentForm s = Some form_id /\
         LangChain.lookupForm form_id = Some (LangChain.verified form)) /\
      answered_before form s /\
      (LangChain.state s = COLLECTING /\
       (0 <= LangChain.currentField s
          < Z.of_nat (length (LangChain.verified_fields form)))%Z
       \/
       LangChain.state s = COMPLETE /\
       LangChain.currentField s = Z.of_nat (length (LangChain.verified_fields form)))
  end.

(** The message of an event is accepted for a field by direct validation. *)
Definition accepts (f : Field) (e : Event) : Prop :=
  type f <> "complex" /\
  LangChain.valid (LangChain.validateFieldInput f (snd e)) = true.

(** Every session of a store sits under its own identifier. *)
Definition keyed (sessions : gmap string LangChain.LangChainSession) : Prop :=
  forall k s, sessions !! k = Some s -> LangChain.id s = k.

(** The PAN card form of the registry. *)
Definition pan_form : LangChain.Schema :=
  default (LangChain.mkSchema "" "" "" [])
    (assoc "pan_card_application" LangChain.VERIFIED_GOVERNMENT_FORMS).

(** *** The legacy engine without parsed replies *)

(** The model's reply was not usable as JSON: either every invocation
    failed or the text did not parse. *)
Definition unparsed (a : Legacy.Advisory) : Prop :=
  match a with
  | Legacy.Parsed _ => False
  | _ => True
  end.

(** Form details that list their fields, at least one, and whose
    [total_fields] is the number of them. *)
Definition consistent (d : Legacy.FormDetails) : Prop :=
  exists fields,
    Legacy.fields_required d = Some fields /\ fields <> [] /\
    Legacy.total_fields d = Some (Z.of_nat (length fields)).

(** The number of fields of the bound form details, 0 when nothing is
    bound or the details give no total. *)
Definition legacyTotal (s : Legacy.Session) : Z :=
  match Legacy.dynamicFormDetails s with
  | Some d => default 0%Z (Legacy.totalFieldsOf d)
  | None => 0
  end.

(** The sessions the legacy engine keeps to without parsed replies: nothing
    bound in [INIT]; in [COLLECTING] a form that is no property name of
    [Object.prototype], with consistent details and a field left; in
    [COMPLETE] consistent details and the cursor on their total. *)
Definition legacy_ok (s : Legacy.Session) : Prop :=
  match Legacy.state s with
  | INIT => Legacy.currentField s = 0%Z /\ Legacy.dynamicFormDetails s = None
  | FORM_DISCOVERY => False
  | COLLECTING =>
      exists form d total,
        Legacy.currentForm s = Some form /\ JS.truthy form = true /\
        ~ In form objectPrototype /\
        Legacy.dynamicFormDetails s = Some d /\ consistent d /\
        Legacy.totalFieldsOf d = Some total /\
        (0 <= Legacy.currentField s < total)%Z
  | COMPLETE =>
      exists d,
        Legacy.dynamicFormDetails s = Some d /\ consistent d /\
        Legacy.totalFieldsOf d = Some (Legacy.currentField s)
  end.

(** When asking for the next field throws.  Under a form type that is a
    property name of [Object.prototype] it is for the built-in objects to
    say: they throw, or they answer a question, or they answer nothing and
    the case is as under any other form type, where the question fails
    exactly when [fields_required] has no name left for the field. *)
Definition question_throws (builtins : Legacy.Builtins)
    (fieldName : option string) (form : string) : Prop :=
  match getProperty form Legacy.contextQuestions with
  | inherited holder =>
      match builtins holder (Legacy.propertyName fieldName) with
      | Legacy.member_throws => True
      | Legacy.member_truthy _ => False
      | Legacy.member_falsy => fieldName = None
      end
  | _ => fieldName = None
  end.

(** A reply that binds a form: a [form_discovery] carrying a form type
    and form details. *)
Definition binds (r : Legacy.AiResponse) : Prop :=
  Legacy.intent r = Legacy.form_discovery /\
  exists ft d,
    Legacy.form_type r = Some ft /\ JS.truthy ft = true /\
    Legacy.form_details r = Some d.

(** A reply that stores an answer: a [field_collection] for a session with
    a form and form details, when the name of the field can be read (the
    reply names it, or the details list their fields). *)
Definition collects (r : Legacy.AiResponse) (s : Legacy.Session) : Prop :=
  Legacy.intent r = Legacy.field_collection /\
  exists form d f,
    Legacy.currentForm s = Some form /\ JS.truthy form = true /\
    Legacy.dynamicFormDetails s = Some d /\
    Legacy.fieldNameOf r d (Legacy.currentField s) = Some f.

(** The character [c] does not occur in [s]. *)
Fixpoint lacks (c : ascii) (s : string) : Prop :=
  match s with
  | EmptyString => True
  | String x s' => x <> c /\ lacks c s'
  end.

(** ** Facts about the string primitives *)

Section StringFacts.



Lemma string_length_list (s : string) :
  String.length s = length (list_ascii_of_string s).
Proof.
  induction s as [|c s IH]; simpl; [reflexivity | now rewrite IH].
Qed.

Lemma prefix_empty (s : string) : String.prefix "" s = true.
Proof. destruct s; reflexivity. Qed.

Lemma includes_empty (s : string) : JS.includes s "" = true.
Proof. destruct s; reflexivity. Qed.

Lemma toLowerCase_empty : JS.toLowerCase "" = "".
Proof. reflexivity. Qed.

Lemma trimStart_head (s : string) :
  JS.trimStart s = "" \/
  exists c t, JS.trimStart s = String c t /\ JS.is_space c = false.
Proof.
  induction s as [|c s IH]; simpl.
  - now left.
  - destruct (JS.is_space c) eqn:E; [exact IH | right; eauto].
Qed.

Lemma trimStart_fixed (c : ascii) (t : string) :
  JS.is_space c = false -> JS.trimStart (String c t) = String c t.
Proof. intros E. simpl. now rewrite E. Qed.

Lemma trimEnd_idem (s : string) : JS.trimEnd (JS.trimEnd s) = JS.trimEnd s.
Proof.
  induction s as [|c s IH]; simpl; [reflexivity|].
  destruct (JS.is_space c && String.eqb (JS.trimEnd s) "") eqn:E; simpl.
  - reflexivity.
  - now rewrite IH, E.
Qed.

Lemma trimEnd_head (c : ascii) (t : string) :
  JS.is_space c = false -> JS.trimEnd (String c t) = String c (JS.trimEnd t).
Proof. intros E. simpl. now rewrite E. Qed.

Lemma trim_idem (s : string) : JS.trim (JS.trim s) = JS.trim s.
Proof.
  unfold JS.trim.
  destruct (trimStart_head s) as [E | (c & t & E & Hc)]; rewrite E.
  - reflexivity.
  - rewrite (trimEnd_head c t Hc), (trimStart_fixed c _ Hc).
    rewrite <- (trimEnd_head c t Hc). apply trimEnd_idem.
Qed.

Lemma stripNonDigits_digits (s : string) :
  forallb JS.is_digit (list_ascii_of_string (JS.stripNonDigits s)) = true.
Proof.
  induction s as [|c s IH]; simpl; [reflexivity|].
  destruct (JS.is_digit c) eqn:E; simpl; [now rewrite E | exact IH].
Qed.

Lemma stripNonDigits_fixed (s : string) :
  forallb JS.is_digit (list_ascii_of_string s) = true -> JS.stripNonDigits s = s.
Proof.
  induction s as [|c s IH]; simpl; [reflexivity|].
  intros H. apply andb_true_iff in H as [Hc Hs]. rewrite Hc. now rewrite IH.
Qed.

Lemma stripNonDigits_idem (s : string) :
  JS.stripNonDigits (JS.stripNonDigits s) = JS.stripNonDigits s.
Proof. apply stripNonDigits_fixed, stripNonDigits_digits. Qed.

Lemma digit_not_space (c : ascii) : JS.is_digit c = true -> JS.is_space c = false.
Proof.
  unfold JS.is_digit, JS.is_space. intros H.
  apply andb_true_iff in H as [H1 H2].
  apply N.leb_le in H1. apply N.leb_le in H2.
  apply orb_false_iff. split; [apply orb_false_iff; split|].
  - apply andb_false_iff. right. apply N.leb_gt. lia.
  - apply N.eqb_neq. lia.
  - apply N.eqb_neq. lia.
Qed.

Lemma sixToNine_digit (c : ascii) : sixToNine c = true -> JS.is_digit c = true.
Proof.
  unfold sixToNine, JS.is_digit. intros H.
  apply andb_true_iff in H as [H1 H2].
  apply N.leb_le in H1. apply N.leb_le in H2.
  apply andb_true_iff. split; apply N.leb_le; lia.
Qed.

End StringFacts.

(** ** Derivatives decide the language *)

Section RegexFacts.

Import Regex.

Lemma lang_class_inv (p : ascii -> bool) (w : list ascii) :
  lang (Class p) w <-> exists c, w = [c] /\ p c = true.
Proof.
  split.
  - inversion 1; subst. eauto.
  - intros (c & -> & H). now constructor.
Qed.

Lemma lang_seq_inv (r1 r2 : regex) (w : list ascii) :
  lang (Seq r1 r2) w <-> exists w1 w2, w = (w1 ++ w2)%list /\ lang r1 w1 /\ lang r2 w2.
Proof.
  split.
  - inversion 1; subst. eauto.
  - intros (w1 & w2 & -> & H1 & H2). now constructor.
Qed.

Lemma lang_alt_inv (r1 r2 : regex) (w : list ascii) :
  lang (Alt r1 r2) w <-> lang r1 w \/ lang r2 w.
Proof.
  split.
  - inversion 1; subst; eauto.
  - intros [H|H]; [now apply lang_alt_l | now apply lang_alt_r].
Qed.

Lemma lang_void_inv (w : list ascii) : lang Void w <-> False.
Proof. split; inversion 1. Qed.

Lemma lang_eps_inv (w : list ascii) : lang Eps w <-> w = [].
Proof.
  split.
  - now inversion 1.
  - intros ->. constructor.
Qed.

Lemma nullable_lang (r : regex) : nullable r = true <-> lang r [].
Proof.
  induction r as [| | p | r1 IH1 r2 IH2 | r1 IH1 r2 IH2 | r IH]; simpl.
  - rewrite lang_void_inv. split; [discriminate | tauto].
  - rewrite lang_eps_inv. tauto.
  - rewrite lang_class_inv. split; [discriminate | now intros (c & E & _)].
  - rewrite andb_true_iff, IH1, IH2, lang_seq_inv. split.
    + intros [H1 H2]. now exists [], [].
    + intros (w1 & w2 & E & H1 & H2). symmetry in E.
      apply app_eq_nil in E as [-> ->]. now split.
  - rewrite orb_true_iff, IH1, IH2, lang_alt_inv. tauto.
  - split; [constructor | reflexivity].
Qed.

Lemma lang_star_cons (r : regex) (c : ascii) (w : list ascii) :
  lang (Star r) (c :: w) ->
  exists w1 w2, w = (w1 ++ w2)%list /\ lang r (c :: w1) /\ lang (Star r) w2.
Proof.
  intros H. remember (Star r) as sr eqn:Er. remember (c :: w) as cw eqn:Ew.
  revert w Ew.
  induction H as [| | | | | r0 | r0 w1 w2 H1 _ H2 IH2]; intros w' Ew;
    try discriminate.
  injection Er as ->.
  destruct w1 as [|c1 w1]; simpl in Ew.
  - now apply IH2.
  - injection Ew as E1 E2. subst. now exists w1, w2.
Qed.

Lemma deriv_lang (r : regex) (c : ascii) (w : list ascii) :
  lang (deriv c r) w <-> lang r (c :: w).
Proof.
  revert w.
  induction r as [| | p | r1 IH1 r2 IH2 | r1 IH1 r2 IH2 | r IH]; intros w; simpl.
  - rewrite !lang_void_inv. tauto.
  - rewrite lang_void_inv, lang_eps_inv. split; [tauto | discriminate].
  - rewrite (lang_class_inv p). destruct (p c) eqn:E.
    + rewrite lang_eps_inv. split.
      * intros ->. eauto.
      * intros (c' & E' & _). now injection E'.
    + rewrite lang_void_inv. split; [tauto|].
      intros (c' & E' & Hc). injection E' as -> _. congruence.
  - assert (Hseq : lang (Seq (deriv c r1) r2) w <->
                   exists w1 w2, w = (w1 ++ w2)%list /\ lang r1 (c :: w1) /\ lang r2 w2).
    { rewrite lang_seq_inv. split; intros (w1 & w2 & E & H1 & H2);
        exists w1, w2; repeat split; try easy; now apply IH1. }
    rewrite (lang_seq_inv r1 r2).
    destruct (nullable r1) eqn:N.
    + rewrite lang_alt_inv, Hseq, IH2. split.
      * intros [(w1 & w2 & -> & H1 & H2) | H2].
        -- now exists (c :: w1), w2.
        -- apply nullable_lang in N. now exists [], (c :: w).
      * intros (w1 & w2 & E & H1 & H2). destruct w1 as [|c1 w1]; simpl in E.
        -- subst w2. now right.
        -- injection E as -> ->. left. now exists w1, w2.
    + rewrite Hseq. split.
      * intros (w1 & w2 & -> & H1 & H2). now exists (c :: w1), w2.
      * intros (w1 & w2 & E & H1 & H2). destruct w1 as [|c1 w1]; simpl in E.
        -- apply nullable_lang in H1. congruence.
        -- injection E as -> ->. now exists w1, w2.
  - rewrite !lang_alt_inv, IH1, IH2. tauto.
  - rewrite lang_seq_inv. split.
    + intros (w1 & w2 & -> & H1 & H2). apply IH in H1.
      change (c :: w1 ++ w2)%list with ((c :: w1) ++ w2)%list. now constructor.
    + intros H. apply lang_star_cons in H as (w1 & w2 & -> & H1 & H2).
      exists w1, w2. repeat split; [now apply IH | easy].
Qed.

Lemma accepts_lang (r : regex) (w : list ascii) : accepts r w = true <-> lang r w.
Proof.
  revert r. induction w as [|c w IH]; intros r; simpl.
  - apply nullable_lang.
  - rewrite IH. apply deriv_lang.
Qed.

Lemma test_lang (r : regex) (s : string) :
  test r s = true <-> lang r (list_ascii_of_string s).
Proof. apply accepts_lang. Qed.

Lemma lang_repeat_class (p : ascii -> bool) (n : nat) (w : list ascii) :
  lang (Repeat n (Class p)) w <-> length w = n /\ forallb p w = true.
Proof.
  revert w. induction n as [|n IH]; intros w; simpl.
  - rewrite lang_eps_inv. split.
    + intros ->. now split.
    + intros [H _]. now destruct w.
  - rewrite lang_seq_inv. split.
    + intros (w1 & w2 & -> & H1 & H2).
      apply lang_class_inv in H1 as (c & -> & Hc). apply IH in H2 as [Hl Hf].
      simpl. rewrite Hc, Hf, Hl. now split.
    + intros [Hl Hf]. destruct w as [|c w]; [discriminate|].
      simpl in Hl, Hf. apply andb_true_iff in Hf as [Hc Hf].
      exists [c], w. repeat split.
      * now constructor.
      * apply IH. split; [lia | easy].
Qed.

End RegexFacts.

(** ** The patterns, read as shapes *)

Section PatternFacts.

Lemma string_of_list_length (w : list ascii) :
  String.length (string_of_list_ascii w) = length w.
Proof. induction w as [|c w IH]; simpl; [reflexivity | now rewrite IH]. Qed.

Lemma digits_of_list (n : nat) (w : list ascii) :
  length w = n -> forallb JS.is_digit w = true -> digits n (string_of_list_ascii w).
Proof.
  intros Hl Hf. split.
  - now rewrite string_of_list_length.
  - now rewrite list_ascii_of_string_of_list_ascii.
Qed.




Lemma phoneRegex_shape (s : string) :
  Regex.test phoneRegex s = true <-> mobile_shape s.
Proof.
  rewrite test_lang. unfold phoneRegex, mobile_shape, digits. split.
  - intros H.
    apply lang_seq_inv in H as (w1 & w2 & E & H1 & H2).
    apply lang_class_inv in H1 as (c & -> & Hc).
    apply lang_repeat_class in H2 as [Hl Hf].
    destruct s as [|c' rest]; [discriminate|]. simpl in E.
    injection E as -> <-. repeat split.
    + simpl. now rewrite string_length_list, Hl.
    + simpl. now rewrite (sixToNine_digit _ Hc), Hf.
    + now exists c, rest.
  - intros [[Hl Hf] (c & rest & -> & Hc)]. simpl in Hl, Hf.
    apply andb_true_iff in Hf as [_ Hf].
    apply lang_seq_inv. exists [c], (list_ascii_of_string rest).
    repeat split.
    + now constructor.
    + apply lang_repeat_class. split; [|exact Hf].
      rewrite <- string_length_list. lia.
Qed.

Lemma truthy_length (s : string) : JS.truthy s = (0 <? String.length s)%nat.
Proof. destruct s; reflexivity. Qed.

Lemma truthy_false (s : string) : JS.truthy s = false <-> s = "".
Proof. destruct s; unfold JS.truthy; simpl; split; congruence. Qed.

Lemma mobile_shape_trim (s : string) : mobile_shape s -> JS.truthy (JS.trim s) = true.
Proof.
  intros [_ (c & rest & -> & Hc)].
  pose proof (digit_not_space c (sixToNine_digit c Hc)) as Hs.
  unfold JS.trim. rewrite (trimStart_fixed c rest Hs), (trimEnd_head c _ Hs).
  reflexivity.
Qed.

End PatternFacts.

(** ** The field validators *)

Section Validators.

Import LangChain.

Lemma blank_optional_b (f : Field) (raw : string) :
  negb (required f) && negb (JS.truthy (JS.trim raw)) = true <-> blank_optional f raw.
Proof.
  unfold blank_optional.
  rewrite andb_true_iff, !negb_true_iff, truthy_false. tauto.
Qed.

Lemma blank_optional_dec (f : Field) (raw : string) :
  {blank_optional f raw} + {~ blank_optional f raw}.
Proof.
  destruct (negb (required f) && negb (JS.truthy (JS.trim raw))) eqn:E.
  - left. now apply blank_optional_b.
  - right. intros H. apply blank_optional_b in H. congruence.
Qed.

Lemma validateFieldInput_blank (f : Field) (raw : string) :
  blank_optional f raw -> validateFieldInput f raw = mkValidation true raw None.
Proof.
  intros H. apply blank_optional_b in H. unfold validateFieldInput. now rewrite H.
Qed.


Lemma not_blank_b (f : Field) (raw : string) :
  ~ blank_optional f raw ->
  negb (required f) && negb (JS.truthy (JS.trim raw)) = false.
Proof.
  intros H. apply not_true_is_false. intros E. now apply H, blank_optional_b.
Qed.







Lemma not_blank_trimmed (f : Field) (s : string) :
  JS.truthy (JS.trim s) = true ->
  negb (required f) && negb (JS.truthy (JS.trim s)) = false.
Proof. intros H. rewrite H. apply andb_false_r. Qed.

(** C7.  Whatever [validateFieldInput] accepts, it accepts again in its
    normalized form, with the same normalized value. *)
Theorem validate_idempotent (f : Field) (raw : string) :
  valid (validateFieldInput f raw) = true ->
  validateFieldInput f (value (validateFieldInput f raw))
    = mkValidation true (value (validateFieldInput f raw)) None.
Proof.
  unfold validateFieldInput at 1 3 4.
  destruct (negb (required f) && negb (JS.truthy (JS.trim raw))) eqn:Hb; simpl.
  { intros _. apply validateFieldInput_blank. now apply blank_optional_b. }
  destruct (String.eqb (type f) "email") eqn:He; simpl.
  { intros Hv. unfold validateFieldInput. now rewrite Hb, He, Hv. }
  destruct (String.eqb (type f) "phone") eqn:Hp; simpl.
  { intros Hv. unfold validateFieldInput.
    rewrite (not_blank_trimmed f _ (mobile_shape_trim _ (proj1 (phoneRegex_shape _) Hv))).
    now rewrite He, Hp, stripNonDigits_idem, Hv. }
  destruct (String.eqb (type f) "choice") eqn:Hc; simpl.
  { intros Hv. unfold validateFieldInput. now rewrite Hb, He, Hp, Hc, Hv. }
  intros Hv. unfold validateFieldInput.
  rewrite trim_idem, <- truthy_length in *.
  now rewrite (not_blank_trimmed f _ Hv), He, Hp, Hc, Hv.
Qed.

(** C7 on the phone scenario: the normalized ["9876543210"] is accepted
    unchanged. *)
Lemma validate_idempotent_scenario :
  validateFieldInput mobile_number "9876543210"
    = mkValidation true "9876543210" None.
Proof. exact (validate_idempotent mobile_number "98765-43210" eq_refl). Defined.

Lemma existsb_head {A} (p : A -> bool) (xs : list A) :
  xs <> [] -> (forall x, p x = true) -> existsb p xs = true.
Proof.
  intros Hne Hp. destruct xs as [|x xs]; [congruence|].
  simpl. now rewrite Hp.
Qed.

Lemma validateFieldInput_choice_empty (f : Field) :
  type f = "choice" -> options f <> [] ->
  validateFieldInput f "" = mkValidation true "" None.
Proof.
  intros Ht Ho.
  destruct (blank_optional_dec f "") as [Hb|Hn];
    [now apply validateFieldInput_blank|].
  unfold validateFieldInput. rewrite (not_blank_b f "" Hn), Ht.
  cbn [String.eqb Ascii.eqb Bool.eqb].
  rewrite existsb_head; [reflexivity | exact Ho |].
  intros o. rewrite toLowerCase_empty, includes_empty. apply orb_true_r.
Qed.

End Validators.

(** ** The LangChain state machine *)

Section LangChainEngine.

Import LangChain.

Lemma index_Some_range {A} (xs : list A) (i : Z) (x : A) :
  JS.index xs i = Some x -> (0 <= i < Z.of_nat (length xs))%Z.
Proof.
  unfold JS.index. destruct (i <? 0)%Z eqn:E; [discriminate|].
  apply Z.ltb_ge in E. intros H.
  assert (Z.to_nat i < length xs)%nat by (apply nth_error_Some; congruence).
  lia.
Qed.

Lemma advance_fields (now : Z) (form : Schema) (s : LangChainSession) :
  currentField (fst (advance now form s)) = (currentField s + 1)%Z /\
  formData (fst (advance now form s)) = formData s /\
  verifiedFormStructure (fst (advance now form s)) = verifiedFormStructure s /\
  id (fst (advance now form s)) = id s /\
  (state (fst (advance now form s)) = state s \/
   state (fst (advance now form s)) = COMPLETE).
Proof.
  unfold advance. cbn [currentField withField addMessage].
  destruct (currentField s + 1 >=? Z.of_nat (length (verified_fields form)))%Z.
  - cbn. tauto.
  - destruct (JS.index (verified_fields form) (currentField s + 1)); cbn; tauto.
Qed.

(** A session that is [COMPLETE] only logs the message: no branch of
    [processUserMessage] handles that state, and the call returns
    [undefined]. *)
Lemma process_complete (now : Z) (chains : Chains) (msg : string)
    (s : LangChainSession) :
  state s = COMPLETE ->
  processUserMessage now chains msg s = (addMessage now human msg s, None).
Proof. intros H. unfold processUserMessage. cbn [state addMessage]. now rewrite H. Qed.

(** The direct-validation branch, on a rejected answer. *)
Lemma process_reject (now : Z) (chains : Chains) (msg : string)
    (s : LangChainSession) (form : Schema) (f : Field) :
  state s = COLLECTING ->
  verifiedFormStructure s = Some (verified form) ->
  JS.index (verified_fields form) (currentField s) = Some f ->
  String.eqb (type f) "complex" = false ->
  valid (validateFieldInput f msg) = false ->
  processUserMessage now chains msg s
    = (addMessage now human msg s,
       Some (validation_error (error (validateFieldInput f msg)) (question f))).
Proof.
  intros Hs Hf Hi Hc Hv. unfold processUserMessage.
  cbn [state addMessage verifiedFormStructure currentField].
  now rewrite Hs, Hf, Hi, Hc, Hv.
Qed.

(** The direct-validation branch, on an accepted answer. *)
Lemma process_accept (now : Z) (chains : Chains) (msg : string)
    (s : LangChainSession) (form : Schema) (f : Field) :
  state s = COLLECTING ->
  verifiedFormStructure s = Some (verified form) ->
  JS.index (verified_fields form) (currentField s) = Some f ->
  String.eqb (type f) "complex" = false ->
  valid (validateFieldInput f msg) = true ->
  processUserMessage now chains msg s
    = advance now form
        (withAnswer (name f) (value (validateFieldInput f msg))
           (addMessage now human msg s)).
Proof.
  intros Hs Hf Hi Hc Hv. unfold processUserMessage.
  cbn [state addMessage verifiedFormStructure currentField].
  now rewrite Hs, Hf, Hi, Hc, Hv.
Qed.

Lemma advance_step (now : Z) (form : Schema) (f : Field) (key v : string)
    (t : MessageType) (msg : string) (s : LangChainSession) :
  state s = COLLECTING ->
  verifiedFormStructure s = Some (verified form) ->
  JS.index (verified_fields form) (currentField s) = Some f ->
  Step s (fst (advance now form (withAnswer key v (addMessage now t msg s)))).
Proof.
  intros Hs Hf Hi.
  destruct (advance_fields now form (withAnswer key v (addMessage now t msg s)))
    as (Hc & _ & Hv & _ & Hst).
  cbn [withAnswer addMessage currentField verifiedFormStructure state] in *.
  apply (step_advance s _ form f); try assumption.
  - now rewrite Hv.
  - rewrite Hs in Hst. destruct Hst; [now left | now right].
Qed.

Lemma matchedForm_lookup (result : DiscoveryResult) (form_id : string)
    (form : FormObject) :
  matchedForm result = Some (form_id, form) -> lookupForm form_id = Some form.
Proof.
  unfold matchedForm. destruct (matched_form_id result) as [i|]; [|discriminate].
  destruct (JS.truthy i); [|discriminate].
  destruct (lookupForm i) as [o|] eqn:E; [|discriminate].
  cbn [option_map]. intros H. injection H as H1 H2. now subst.
Qed.

(** The outcomes of the discovery branch. *)
Lemma discover_cases (now : Z) (chains : Chains) (s : LangChainSession) :
  discover now chains s = (s, caught) \/
  exists result,
    formDiscoveryChain chains = Some result /\
    ((matchedForm result = None /\
      discover now chains s
        = (addMessage now ai (message result) s,
           Some (clarification_needed (message result)))) \/
     (exists form_id key,
        lookupForm form_id = Some (builtin key) /\
        discover now chains s = (bindForm form_id (builtin key) s, caught)) \/
     (exists form_id form,
        lookupForm form_id = Some (verified form) /\
        fst (discover now chains s)
          = addMessage now ai (message result) (bindForm form_id (verified form) s) /\
        forall m q, snd (discover now chains s) <> Some (validation_error m q))).
Proof.
  assert (H : formDiscoveryChain chains = None \/
    exists result, formDiscoveryChain chains = Some result /\
      ((matchedForm result = None /\
        discovered now result s
          = (addMessage now ai (message result) s,
             Some (clarification_needed (message result)))) \/
       (exists form_id key,
          lookupForm form_id = Some (builtin key) /\
          discovered now result s = (bindForm form_id (builtin key) s, caught)) \/
       (exists form_id form,
          lookupForm form_id = Some (verified form) /\
          fst (discovered now result s)
            = addMessage now ai (message result) (bindForm form_id (verified form) s) /\
          forall m q, snd (discovered now result s) <> Some (validation_error m q)))).
  { destruct (formDiscoveryChain chains) as [result|]; [right | now left].
    exists result. split; [reflexivity|]. unfold discovered.
    destruct (matchedForm result) as [[form_id [form|key]]|] eqn:E.
    - right. right. exists form_id, form.
      split; [exact (matchedForm_lookup _ _ _ E)|].
      destruct (JS.index (verified_fields form) 0); split; try reflexivity;
        intros m q; discriminate.
    - right. left. exists form_id, key.
      split; [exact (matchedForm_lookup _ _ _ E) | reflexivity].
    - left. now split. }
  unfold discover.
  destruct (verifiedFormStructure s) as [[form0|key0]|]; [|now left|].
  - destruct H as [-> | (result & E & H)]; [now left|]. right. exists result.
    now rewrite E.
  - destruct H as [-> | (result & E & H)]; [now left|]. right. exists result.
    now rewrite E.
Qed.

Lemma discover_step (now : Z) (chains : Chains) (msg : string)
    (s : LangChainSession) :
  state s = INIT \/ state s = FORM_DISCOVERY ->
  Step s (fst (discover now chains (addMessage now human msg s))).
Proof.
  intros Hd.
  destruct (discover_cases now chains (addMessage now human msg s))
    as [-> | (result & _ & [[_ ->] | [(form_id & key & _ & ->)
                                     | (form_id & form & _ & -> & _)]])].
  - now apply step_same.
  - now apply step_same.
  - now apply (step_bind s _ (builtin key)).
  - now apply (step_bind s _ (verified form)).
Qed.

Lemma process_step (now : Z) (chains : Chains) (msg : string)
    (s : LangChainSession) :
  Step s (fst (processUserMessage now chains msg s)).
Proof.
  unfold processUserMessage.
  cbn [state addMessage verifiedFormStructure currentField].
  assert (Hsame : Step s (addMessage now human msg s)) by now apply step_same.
  destruct (state s) eqn:Hs.
  - apply discover_step. now left.
  - apply discover_step. now right.
  - destruct (verifiedFormStructure s) as [[form|key]|] eqn:Hf;
      [|exact Hsame|exact Hsame].
    destruct (JS.index (verified_fields form) (currentField s)) as [f|] eqn:Hi;
      [|exact Hsame].
    destruct (String.eqb (type f) "complex").
    + destruct (fieldValidationChain chains) as [vr|]; [|exact Hsame].
      destruct (negb (llm_valid vr)); [exact Hsame|].
      now apply (advance_step now form f).
    + destruct (negb (valid (validateFieldInput f msg))); [exact Hsame|].
      now apply (advance_step now form f).
  - exact Hsame.
Qed.

Lemma handle_step (e : Event) (s : LangChainSession) : Step s (handle e s).
Proof. destruct e as [[now chains] msg]. apply process_step. Qed.

Lemma step_cursor_ok (s s' : LangChainSession) :
  Step s s' -> cursor_ok s -> cursor_ok s'.
Proof.
  unfold cursor_ok, fieldCount.
  intros [Hc Hf _ _ | form _ Hf Hc _ | form f _ Hf Hi Hf' Hc _] H.
  - now rewrite Hc, Hf.
  - rewrite Hc, Hf. destruct form; lia.
  - apply index_Some_range in Hi. rewrite Hc, Hf'. lia.
Qed.

Lemma step_rests_at_zero (s s' : LangChainSession) :
  Step s s' -> rests_at_zero s -> rests_at_zero s'.
Proof.
  unfold rests_at_zero.
  intros [Hc _ Hs _ | form _ _ Hc _ | form f _ _ _ _ _ Hs] H Hd.
  - rewrite Hc. apply H. now rewrite <- Hs.
  - exact Hc.
  - destruct Hs as [Hs|Hs], Hd as [Hd|Hd]; congruence.
Qed.

Lemma step_monotone (s s' : LangChainSession) :
  Step s s' -> rests_at_zero s -> (currentField s <= currentField s')%Z.
Proof.
  unfold rests_at_zero.
  intros [Hc _ _ _ | form Hd _ Hc _ | form f _ _ _ _ Hc _] H.
  - lia.
  - rewrite Hc, (H Hd). lia.
  - lia.
Qed.

Lemma step_bound_at_zero (s s' : LangChainSession) :
  Step s s' ->
  verifiedFormStructure s = None -> verifiedFormStructure s' <> None ->
  currentField s' = 0%Z.
Proof.
  intros [_ Hf _ _ | form _ _ Hc _ | form f _ Hf _ _ _ _] Hn Hb.
  - congruence.
  - exact Hc.
  - congruence.
Qed.

Lemma run_snoc (events : list Event) (e : Event) (s : LangChainSession) :
  run (events ++ [e]) s = handle e (run events s).
Proof. unfold run. now rewrite fold_left_app. Qed.

Lemma run_invariant (events : list Event) (s : LangChainSession) :
  cursor_ok s -> rests_at_zero s ->
  cursor_ok (run events s) /\ rests_at_zero (run events s).
Proof.
  revert s. induction events as [|e events IH]; intros s Hc Hz; [now split|].
  apply IH.
  - exact (step_cursor_ok _ _ (handle_step e s) Hc).
  - exact (step_rests_at_zero _ _ (handle_step e s) Hz).
Qed.

Lemma newSession_invariant (uuid : string) (t0 : Z) (sid : option string) :
  cursor_ok (newSession uuid t0 sid) /\ rests_at_zero (newSession uuid t0 sid).
Proof. unfold cursor_ok, rests_at_zero, fieldCount. cbn. split; [lia | reflexivity]. Qed.

Lemma rejection_has_reason (f : Field) (msg : string) :
  valid (validateFieldInput f msg) = false ->
  exists reason, error (validateFieldInput f msg) = Some reason.
Proof.
  unfold validateFieldInput.
  destruct (negb (required f) && negb (JS.truthy (JS.trim msg))); [discriminate|].
  destruct (String.eqb (type f) "email"); [|destruct (String.eqb (type f) "phone");
    [|destruct (String.eqb (type f) "choice")]];
    cbn [valid error]; intros ->; eauto.
Qed.

Lemma email_rejection_reason (f : Field) (msg : string) :
  type f = "email" ->
  valid (validateFieldInput f msg) = false ->
  error (validateFieldInput f msg)
    = Some "Please provide a valid email address (like name@example.com)".
Proof.
  intros Ht. unfold validateFieldInput. rewrite Ht.
  destruct (negb (required f) && negb (JS.truthy (JS.trim msg))); [discriminate|].
  cbn [String.eqb Ascii.eqb Bool.eqb valid error]. now intros ->.
Qed.

(** C4 (amended).  In [COLLECTING], when [validateFieldInput] rejects the
    answer for the field at the cursor (direct-validation branch), the call
    returns a [validation_error] carrying the validator's own message and the
    same field's question, and the cursor, the answers and the state stay as
    they were; only the user's message is logged.  For an email field the
    message reads "Please provide a valid email address (like
    name@example.com)". *)
Theorem rejection_keeps_state (now : Z) (chains : Chains) (msg : string)
    (s : LangChainSession) (form : Schema) (f : Field) :
  state s = COLLECTING ->
  verifiedFormStructure s = Some (verified form) ->
  JS.index (verified_fields form) (currentField s) = Some f ->
  type f <> "complex" ->
  valid (validateFieldInput f msg) = false ->
  snd (processUserMessage now chains msg s)
    = Some (validation_error (error (validateFieldInput f msg)) (question f)) /\
  (exists reason, error (validateFieldInput f msg) = Some reason) /\
  (type f = "email" ->
   error (validateFieldInput f msg)
     = Some "Please provide a valid email address (like name@example.com)") /\
  fst (processUserMessage now chains msg s) = addMessage now human msg s /\
  currentField (fst (processUserMessage now chains msg s)) = currentField s /\
  formData (fst (processUserMessage now chains msg s)) = formData s /\
  state (fst (processUserMessage now chains msg s)) = COLLECTING.
Proof.
  intros Hs Hf Hi Hc Hv.
  apply String.eqb_neq in Hc.
  rewrite (process_reject now chains msg s form f Hs Hf Hi Hc Hv).
  cbn [fst snd addMessage currentField formData state].
  repeat split; try assumption.
  - now apply rejection_has_reason.
  - intros Ht. now apply email_rejection_reason.
Qed.

(** C4 on the PAN dialogue: at the email field, ["not-an-email"] is turned
    down with the email message and the cursor stays on field 5. *)
Lemma rejection_scenario :
  snd (processUserMessage 6500 offline "not-an-email" at_email)
    = Some (validation_error
              (Some "Please provide a valid email address (like name@example.com)")
              "What is your email address?") /\
  currentField (fst (processUserMessage 6500 offline "not-an-email" at_email)) = 5%Z /\
  formData (fst (processUserMessage 6500 offline "not-an-email" at_email))
    = formData at_email /\
  state (fst (processUserMessage 6500 offline "not-an-email" at_email)) = COLLECTING.
Proof.
  assert (Hc : type email_address <> "complex") by discriminate.
  destruct (rejection_keeps_state 6500 offline "not-an-email" at_email _ email_address
              eq_refl eq_refl eq_refl Hc eq_refl)
    as (H1 & _ & _ & _ & H2 & H3 & H4).
  repeat split; assumption.
Defined.

(** C4 as first stated names a reason the code never gives. *)
Lemma rejection_reason_text :
  error (validateFieldInput email_address "not-an-email")
    = Some "Please provide a valid email address (like name@example.com)" /\
  "Please provide a valid email address (like name@example.com)"
    <> "not a valid email address".
Proof. split; [reflexivity | discriminate]. Qed.

(** C10.  A choice field that carries at least one option accepts the empty
    answer, required or not: every option contains the empty string.  The
    normalized value is the empty string, and in [COLLECTING] the engine
    stores it under the field's name and moves on. *)
Theorem empty_choice_accepted (f : Field) :
  type f = "choice" -> options f <> [] ->
  validateFieldInput f "" = mkValidation true "" None /\
  forall (now : Z) (chains : Chains) (s : LangChainSession) (form : Schema),
    state s = COLLECTING ->
    verifiedFormStructure s = Some (verified form) ->
    JS.index (verified_fields form) (currentField s) = Some f ->
    formData (fst (processUserMessage now chains "" s)) !! name f = Some "" /\
    currentField (fst (processUserMessage now chains "" s)) = (currentField s + 1)%Z.
Proof.
  intros Ht Ho.
  pose proof (validateFieldInput_choice_empty f Ht Ho) as Hv.
  split; [exact Hv|].
  intros now chains s form Hs Hf Hi.
  assert (Hc : String.eqb (type f) "complex" = false) by now rewrite Ht.
  rewrite (process_accept now chains "" s form f Hs Hf Hi Hc) by now rewrite Hv.
  rewrite Hv. cbn [value].
  destruct (advance_fields now form (withAnswer (name f) "" (addMessage now human "" s)))
    as (H1 & H2 & _).
  rewrite H1, H2. cbn [withAnswer addMessage formData currentField].
  split; [apply lookup_insert_eq | reflexivity].
Qed.

(** C10 on the PAN dialogue: the required [applicant_category] is satisfied
    by an empty answer. *)
Lemma empty_choice_scenario :
  validateFieldInput applicant_category "" = mkValidation true "" None /\
  formData (fst (processUserMessage 1500 offline "" (run [pan_opening] fresh)))
    !! "applicant_category" = Some "" /\
  currentField (fst (processUserMessage 1500 offline "" (run [pan_opening] fresh))) = 1%Z.
Proof.
  assert (Ho : options applicant_category <> []) by discriminate.
  destruct (empty_choice_accepted applicant_category eq_refl Ho) as [H1 H2].
  split; [exact H1|].
  exact (H2 1500%Z offline (run [pan_opening] fresh) _ eq_refl eq_refl eq_refl).
Defined.

Lemma run_complete (events : list Event) (s : LangChainSession) :
  state s = COMPLETE ->
  state (run events s) = COMPLETE /\
  currentField (run events s) = currentField s /\
  formData (run events s) = formData s /\
  verifiedFormStructure (run events s) = verifiedFormStructure s /\
  id (run events s) = id s.
Proof.
  revert s. induction events as [|[[now chains] msg] events IH]; intros s Hs.
  - now repeat split.
  - change (run (((now, chains), msg) :: events) s)
      with (run events (fst (processUserMessage now chains msg s))).
    rewrite (process_complete now chains msg s Hs).
    cbn [fst]. apply (IH (addMessage now human msg s)). exact Hs.
Qed.

(** C8 (amended).  In the LangChain engine a session that has reached
    [COMPLETE] stays there under its identifier: whatever messages follow,
    the state, the cursor, the answers and the bound form do not change.
    A further message only adds the user's message to the log and refreshes
    the last activity. *)
Theorem complete_is_terminal (now : Z) (chains : Chains) (msg : string)
    (events : list Event) (s : LangChainSession) :
  state s = COMPLETE ->
  fst (processUserMessage now chains msg s) = addMessage now human msg s /\
  state (run events s) = COMPLETE /\
  currentField (run events s) = currentField s /\
  formData (run events s) = formData s /\
  verifiedFormStructure (run events s) = verifiedFormStructure s /\
  id (run events s) = id s.
Proof.
  intros Hs. split; [|now apply run_complete].
  now rewrite process_complete.
Qed.

(** C8 on the PAN dialogue, once all nine fields are answered: asking for a
    passport with a chain that would match it changes nothing. *)
Lemma complete_is_terminal_scenario :
  state completed = COMPLETE /\
  currentForm (fst (processUserMessage 11000 (matching "passport_application")
                      "Now a passport please" completed))
    = Some "pan_card_application" /\
  state (run [(11000%Z, matching "passport_application", "Now a passport please")]
           completed) = COMPLETE /\
  currentField (run [(11000%Z, matching "passport_application", "Now a passport please")]
                  completed) = 9%Z.
Proof.
  destruct (complete_is_terminal 11000 (matching "passport_application")
              "Now a passport please"
              [(11000%Z, matching "passport_application", "Now a passport please")]
              completed eq_refl) as (H1 & H2 & H3 & _).
  split; [reflexivity|]. split; [now rewrite H1|]. split; [exact H2|].
  rewrite H3. reflexivity.
Defined.

End LangChainEngine.

(** ** The session stores *)

Section Stores.

Lemma orElse_id (uuid : string) (sessionId : option string) :
  match orElse sessionId (Some uuid) with Some i => i | None => uuid end
  = match sessionId with
    | Some sid => if JS.truthy sid then sid else uuid
    | None => uuid
    end.
Proof.
  destruct sessionId as [sid|]; simpl; [|reflexivity].
  now destruct (JS.truthy sid).
Qed.

Lemma langchain_getSession_unknown (uuid : string) (now : Z)
    (sessionId : option string) (sessions : gmap string LangChain.LangChainSession) :
  unknown sessionId sessions ->
  LangChain.getSession uuid now sessionId sessions
  = (LangChain.newSession uuid now sessionId,
     <[LangChain.id (LangChain.newSession uuid now sessionId)
       := LangChain.newSession uuid now sessionId]> sessions).
Proof.
  unfold LangChain.getSession, unknown.
  destruct sessionId as [sid|]; [|reflexivity].
  intros [-> | H]; [reflexivity|].
  destruct (falsy (Some sid)); [reflexivity|]. now rewrite H.
Qed.

Lemma legacy_getSession_unknown (uuid : string) (now : Z)
    (sessionId : option string) (sessions : gmap string Legacy.Session) :
  unknown sessionId sessions ->
  Legacy.getSession uuid now sessionId sessions
  = Legacy.createSession uuid now sessionId sessions.
Proof.
  unfold Legacy.getSession, unknown.
  destruct sessionId as [sid|]; [|reflexivity].
  intros [-> | H]; [reflexivity|].
  destruct (falsy (Some sid)); [reflexivity|]. now rewrite H.
Qed.

(** C3 (amended).  With an absent or unknown identifier, [getSession] of
    either engine (a total function: nothing can raise) creates a fresh
    session in state [INIT], cursor 0, no form, no answers, and stores it
    under the session's own identifier.  That identifier is the generated one
    when the caller's is absent or empty, and the caller's own identifier
    when it is a non-empty unknown one. *)
Theorem getSession_creates (uuid : string) (now : Z)
    (sessionId : option string)
    (sessions : gmap string LangChain.LangChainSession)
    (legacy : gmap string Legacy.Session) :
  unknown sessionId sessions -> unknown sessionId legacy ->
  let issued := match sessionId with
                | Some sid => if JS.truthy sid then sid else uuid
                | None => uuid
                end in
  LangChain.getSession uuid now sessionId sessions
    = (LangChain.mkSession issued now now INIT None 0 ∅ None [] [],
       <[issued := LangChain.mkSession issued now now INIT None 0 ∅ None [] []]> sessions) /\
  Legacy.getSession uuid now sessionId legacy
    = (Legacy.mkSession issued now now INIT [] None ∅ 0 [] None,
       <[issued := Legacy.mkSession issued now now INIT [] None ∅ 0 [] None]> legacy).
Proof.
  intros H1 H2. cbv zeta. split.
  - rewrite langchain_getSession_unknown by exact H1.
    unfold LangChain.newSession. cbn [LangChain.id].
    now rewrite orElse_id.
  - rewrite legacy_getSession_unknown by exact H2.
    unfold Legacy.createSession. now rewrite orElse_id.
Qed.

(** C3 at work: no identifier gives the generated one, an unknown
    identifier is kept. *)
Lemma getSession_creates_scenario :
  LangChain.id (fst (LangChain.getSession "generated" 5 None ∅)) = "generated" /\
  LangChain.state (fst (LangChain.getSession "generated" 5 None ∅)) = INIT /\
  snd (LangChain.getSession "generated" 5 (Some "abc") ∅) !! "abc"
    = Some (LangChain.mkSession "abc" 5 5 INIT None 0 ∅ None [] []) /\
  Legacy.id (fst (Legacy.getSession "generated" 5 (Some "abc") ∅)) = "abc".
Proof.
  destruct (getSession_creates "generated" 5 None ∅ ∅ I I) as [H1 _].
  destruct (getSession_creates "generated" 5 (Some "abc") ∅ ∅
              (or_intror (lookup_empty "abc")) (or_intror (lookup_empty "abc")))
    as [H2 H3].
  rewrite H1, H2, H3. cbn [fst snd LangChain.id LangChain.state Legacy.id].
  repeat split.
Defined.

(** C3 as first stated fails: an unknown identifier supplied by the caller
    becomes the identifier of the new session; the generated one is unused. *)
Lemma getSession_keeps_unknown_id :
  LangChain.id (fst (LangChain.getSession "generated" 5 (Some "abc") ∅)) = "abc" /\
  Legacy.id (fst (Legacy.getSession "generated" 5 (Some "abc") ∅)) = "abc" /\
  "abc" <> "generated".
Proof. split; [reflexivity|]. split; [reflexivity | discriminate]. Qed.

Lemma cleanup_fold_lookup {A} (expired : A -> bool) (acc m : gmap string A) (k : string) :
  map_fold (fun i x r => if expired x then delete i r else r) acc m !! k
  = match m !! k with
    | Some x => if expired x then None else acc !! k
    | None => acc !! k
    end.
Proof.
  revert m. apply (map_fold_weak_ind
    (fun r m => r !! k = match m !! k with
                         | Some x => if expired x then None else acc !! k
                         | None => acc !! k
                         end)).
  - now rewrite lookup_empty.
  - intros i x m r Hi IH.
    destruct (decide (i = k)) as [->|Hne].
    + rewrite lookup_insert_eq. rewrite Hi in IH.
      destruct (expired x); [apply lookup_delete_eq | exact IH].
    + rewrite lookup_insert_ne by exact Hne.
      destruct (expired x); [rewrite lookup_delete_ne by exact Hne|]; exact IH.
Qed.

Lemma cleanupSessions_lookup (now maxAge : Z)
    (sessions : gmap string LangChain.LangChainSession) (k : string) :
  LangChain.cleanupSessions now (Some maxAge) sessions !! k
  = match sessions !! k with
    | Some s => if (now - LangChain.lastActivity s >? maxAge)%Z then None else Some s
    | None => None
    end.
Proof.
  unfold LangChain.cleanupSessions.
  rewrite (cleanup_fold_lookup
             (fun s => (now - LangChain.lastActivity s >? maxAge)%Z)).
  destruct (sessions !! k); reflexivity.
Qed.

Lemma legacy_cleanup_fold_lookup (now : Z)
    (acc : list string * gmap string Legacy.Session)
    (m : gmap string Legacy.Session) (k : string) :
  snd (map_fold
         (fun sessionId session (a : list string * gmap string Legacy.Session) =>
            if (now - Legacy.lastActivity session >? Legacy.oneHour)%Z
            then ((fst a ++ map Legacy.filename (Legacy.generatedFiles session))%list,
                  delete sessionId (snd a))
            else a) acc m) !! k
  = match m !! k with
    | Some s =>
        if (now - Legacy.lastActivity s >? Legacy.oneHour)%Z then None else snd acc !! k
    | None => snd acc !! k
    end.
Proof.
  revert m. apply (map_fold_weak_ind
    (fun (r : list string * gmap string Legacy.Session) m =>
       snd r !! k = match m !! k with
                    | Some s =>
                        if (now - Legacy.lastActivity s >? Legacy.oneHour)%Z
                        then None else snd acc !! k
                    | None => snd acc !! k
                    end)).
  - now rewrite lookup_empty.
  - intros i x m r Hi IH.
    destruct (decide (i = k)) as [->|Hne].
    + rewrite lookup_insert_eq. rewrite Hi in IH.
      destruct (now - Legacy.lastActivity x >? Legacy.oneHour)%Z;
        [apply lookup_delete_eq | exact IH].
    + rewrite lookup_insert_ne by exact Hne.
      destruct (now - Legacy.lastActivity x >? Legacy.oneHour)%Z;
        [cbn [snd]; rewrite lookup_delete_ne by exact Hne|]; exact IH.
Qed.

Lemma legacy_cleanup_lookup (now : Z) (sessions : gmap string Legacy.Session)
    (k : string) :
  snd (Legacy.cleanup now sessions) !! k
  = match sessions !! k with
    | Some s =>
        if (now - Legacy.lastActivity s >? Legacy.oneHour)%Z then None else Some s
    | None => None
    end.
Proof.
  unfold Legacy.cleanup. rewrite legacy_cleanup_fold_lookup. cbn [snd].
  destruct (sessions !! k); reflexivity.
Qed.

(** C9.  The sweep removes exactly the sessions idle for strictly more than
    the limit and keeps every other one as it was; a session idle for
    exactly the limit stays.  [cleanupSessions] takes the limit as its
    argument, the legacy [cleanup] fixes it at one hour. *)
Theorem sweep_exclusive (now maxAge : Z) (k : string)
    (sessions : gmap string LangChain.LangChainSession)
    (legacy : gmap string Legacy.Session)
    (s : LangChain.LangChainSession) (l : Legacy.Session) :
  LangChain.cleanupSessions now (Some maxAge) sessions !! k
    = match sessions !! k with
      | Some s =>
          if (now - LangChain.lastActivity s >? maxAge)%Z then None else Some s
      | None => None
      end /\
  LangChain.cleanupSessions now (Some maxAge)
      (<[k := LangChain.withActivity (now - maxAge) s]> sessions) !! k
    = Some (LangChain.withActivity (now - maxAge) s) /\
  LangChain.cleanupSessions now (Some maxAge)
      (<[k := LangChain.withActivity (now - maxAge - 1) s]> sessions) !! k
    = None /\
  snd (Legacy.cleanup now legacy) !! k
    = match legacy !! k with
      | Some s =>
          if (now - Legacy.lastActivity s >? Legacy.oneHour)%Z then None else Some s
      | None => None
      end /\
  snd (Legacy.cleanup now
         (<[k := Legacy.withActivity (now - Legacy.oneHour) l]> legacy)) !! k
    = Some (Legacy.withActivity (now - Legacy.oneHour) l).
Proof.
  split; [apply cleanupSessions_lookup|].
  split; [|split; [|split; [apply legacy_cleanup_lookup|]]].
  - rewrite cleanupSessions_lookup, lookup_insert_eq. cbn [LangChain.lastActivity LangChain.withActivity].
    replace (now - (now - maxAge))%Z with maxAge by lia.
    now rewrite Z.gtb_ltb, Z.ltb_irrefl.
  - rewrite cleanupSessions_lookup, lookup_insert_eq. cbn [LangChain.lastActivity LangChain.withActivity].
    replace (now - (now - maxAge - 1))%Z with (maxAge + 1)%Z by lia.
    rewrite Z.gtb_ltb. now rewrite (proj2 (Z.ltb_lt maxAge (maxAge + 1)) ltac:(lia)).
  - rewrite legacy_cleanup_lookup, lookup_insert_eq. cbn [Legacy.lastActivity Legacy.withActivity].
    replace (now - (now - Legacy.oneHour))%Z with Legacy.oneHour by lia.
    now rewrite Z.gtb_ltb, Z.ltb_irrefl.
Qed.

End Stores.

(** ** The legacy engine *)

Section LegacyEngine.

Import Legacy.




(** A reply that binds a form does so whatever the session held. *)
Lemma processConversation_binds (builtins : Builtins) (now : Z)
    (r : AiResponse) (s : Session) (msg : string) (ft : string) (d : FormDetails) :
  intent r = form_discovery -> form_type r = Some ft -> JS.truthy ft = true ->
  form_details r = Some d ->
  processConversation builtins now r s msg
    = (bindForm now ft d
         (withConversation
            (conversation s ++ [mkTurn user msg now; mkTurn bot (message r) now]) s),
       Some [start_universal_form ft d
               match asked (current_question r) with
               | Some q => q
               | None => generateUniversalFirstQuestion ft
               end]).
Proof.
  intros Hi Hf Ht Hd. unfold processConversation. now rewrite Hi, Hf, Hd, Ht.
Qed.

(** The cursor after one call: 0 after a binding reply, one more after a
    reply that stores an answer, and what it was otherwise. *)
Lemma processConversation_cursor (builtins : Builtins) (now : Z)
    (r : AiResponse) (s : Session) (msg : string) :
  (binds r ->
   currentField (fst (processConversation builtins now r s msg)) = 0%Z) /\
  (collects r s ->
   currentField (fst (processConversation builtins now r s msg))
     = (currentField s + 1)%Z) /\
  (~ binds r -> ~ collects r s ->
   currentField (fst (processConversation builtins now r s msg)) = currentField s).
Proof.
  split; [|split].
  - intros (Hi & ft & d & Hf & Ht & Hd).
    now rewrite (processConversation_binds builtins now r s msg ft d Hi Hf Ht Hd).
  - intros (Hi & form & d & f & Hf & Ht & Hd & Hn).
    unfold processConversation. rewrite Hi.
    cbn [currentForm dynamicFormDetails withConversation currentField].
    rewrite Hf, Hd, Ht, Hn.
    repeat match goal with
           | |- context [match ?q with Some _ => _ | None => _ end] => destruct q
           | |- context [if ?b then _ else _] => destruct b
           end; reflexivity.
  - intros Hb Hc. unfold processConversation.
    destruct (intent r) eqn:Hi; try reflexivity.
    + destruct (form_type r) as [ft|] eqn:Hf; [|reflexivity].
      destruct (form_details r) as [d|] eqn:Hd; [|reflexivity].
      destruct (JS.truthy ft) eqn:Ht; [|reflexivity].
      exfalso. apply Hb. split; [exact Hi|]. now exists ft, d.
    + cbn [currentForm dynamicFormDetails withConversation currentField].
      destruct (currentForm s) as [form|] eqn:Hf; [|reflexivity].
      destruct (dynamicFormDetails s) as [d|] eqn:Hd; [|reflexivity].
      destruct (JS.truthy form) eqn:Ht; [|reflexivity].
      destruct (fieldNameOf r d (currentField s)) as [f|] eqn:Hn; [|reflexivity].
      exfalso. apply Hc. split; [exact Hi|]. now exists form, d, f.
Qed.



(** The legacy dialogue takes the same course whatever the built-in objects
    answer. *)
Lemma legacy_dialogue_any_builtins (builtins : Builtins) :
  replay builtins "s1" legacy_dialogue ∅ = legacy_completed.
Proof. vm_compute. reflexivity. Qed.

(** C1 as first stated fails on the legacy engine: the cursor of a
    completed six-field session goes back to 0 when a further reply binds
    another form, and goes past the field count on one more
    [field_collection] reply. *)
Lemma legacy_cursor_escapes :
  (fun s => (state s, currentField s, totalFieldsOf <$> dynamicFormDetails s))
    <$> (legacy_completed !! "s1") = Some (COMPLETE, 6%Z, Some (Some 6%Z)) /\
  currentField
    <$> (replay silent "s1" [(8000%Z, Unparsable "Sure.", "and a passport please")]
           legacy_completed !! "s1") = Some 0%Z /\
  currentField
    <$> (replay silent "s1" [(8000%Z, Parsed (bare field_collection), "one more")]
           legacy_completed !! "s1") = Some 7%Z.
Proof. vm_compute. repeat split. Qed.

(** C8 as first stated fails on the legacy engine: the completed session
    "s1" is back in [COLLECTING], cursor 0 and answers cleared, after one
    more message under the same identifier.  On the LangChain engine the
    state holds, but the further message gets no reply at all. *)
Lemma complete_reopens_on_legacy :
  state <$> (legacy_completed !! "s1") = Some COMPLETE /\
  (fun s => (id s, state s, currentField s, currentForm s, formData s))
    <$> (replay silent "s1" [(8000%Z, Unparsable "Sure.", "and a passport please")]
           legacy_completed !! "s1")
    = Some ("s1", COLLECTING, 0%Z, Some "passport", ∅) /\
  snd (LangChain.processUserMessage 11000 offline "hello?" completed) = None.
Proof. vm_compute. repeat split. Qed.

End LegacyEngine.

(** ** The cursor *)

Section Cursor.

Lemma classic_binds (r : Legacy.AiResponse) : binds r \/ ~ binds r.
Proof.
  unfold binds.
  destruct (Legacy.intent r); try (right; intros [H _]; discriminate).
  destruct (Legacy.form_type r) as [ft|];
    [|right; intros (_ & ft & d & H & _); discriminate].
  destruct (Legacy.form_details r) as [d|];
    [|right; intros (_ & ft' & d & _ & _ & H); discriminate].
  destruct (JS.truthy ft) eqn:Ht.
  - left. split; [reflexivity|]. now exists ft, d.
  - right. intros (_ & ft' & d' & [= <-] & H & _). congruence.
Qed.

Lemma classic_collects (r : Legacy.AiResponse) (s : Legacy.Session) :
  collects r s \/ ~ collects r s.
Proof.
  unfold collects.
  destruct (Legacy.intent r); try (right; intros [H _]; discriminate).
  destruct (Legacy.currentForm s) as [form|];
    [|right; intros (_ & form & d & f & H & _); discriminate].
  destruct (Legacy.dynamicFormDetails s) as [d|];
    [|right; intros (_ & form' & d & f & _ & _ & H & _); discriminate].
  destruct (JS.truthy form) eqn:Ht;
    [|right; intros (_ & form' & d' & f & [= <-] & H & _); congruence].
  destruct (Legacy.fieldNameOf r d (Legacy.currentField s)) as [f|] eqn:Hn.
  - left. split; [reflexivity|]. now exists form, d, f.
  - right. intros (_ & form' & d' & f & [= <-] & _ & [= <-] & H). congruence.
Qed.

Lemma run_reachable (uuid : string) (t0 : Z) (sid : option string)
    (events : list Event) :
  cursor_ok (run events (LangChain.newSession uuid t0 sid)) /\
  rests_at_zero (run events (LangChain.newSession uuid t0 sid)).
Proof.
  destruct (newSession_invariant uuid t0 sid) as [Hc Hz].
  now apply run_invariant.
Qed.

(** C1 (amended).  On the LangChain engine, along every sequence of handled
    messages from a fresh session: the cursor starts at 0, lies between 0 and
    the bound form's field count before and after each message, never
    decreases, and is 0 at the moment a form gets bound; and any single call
    preserves the bound from any session that satisfies it.  On the legacy
    engine one call of [processConversation] leaves the cursor where it was,
    increments it by one, or resets it to 0.  It resets it: a
    [form_discovery] reply carrying a form type and form details binds the
    form, in any state, with the cursor at 0 and the answers cleared.  It
    increments it exactly on a [field_collection] reply for a session with
    a form and form details whose field name can be read, and leaves it
    where it was on every other reply. *)
Theorem cursor_invariant (uuid : string) (t0 : Z) (sid : option string)
    (events : list Event) (e : Event) :
  let s := run events (LangChain.newSession uuid t0 sid) in
  let s' := handle e s in
  LangChain.currentField (LangChain.newSession uuid t0 sid) = 0%Z /\
  cursor_ok s /\
  cursor_ok s' /\
  (LangChain.currentField s <= LangChain.currentField s')%Z /\
  (LangChain.verifiedFormStructure s = None ->
   LangChain.verifiedFormStructure s' <> None ->
   LangChain.currentField s' = 0%Z) /\
  (forall (s0 : LangChain.LangChainSession) (e0 : Event),
     cursor_ok s0 -> cursor_ok (handle e0 s0)) /\
  (forall (builtins : Legacy.Builtins) (now : Z) (r : Legacy.AiResponse)
          (l : Legacy.Session) (msg : string),
     let l' := fst (Legacy.processConversation builtins now r l msg) in
     (Legacy.currentField l' = Legacy.currentField l \/
      Legacy.currentField l' = (Legacy.currentField l + 1)%Z \/
      Legacy.currentField l' = 0%Z) /\
     (forall ft d,
        Legacy.intent r = Legacy.form_discovery ->
        Legacy.form_type r = Some ft -> JS.truthy ft = true ->
        Legacy.form_details r = Some d ->
        Legacy.currentField l' = 0%Z /\ Legacy.state l' = COLLECTING /\
        Legacy.currentForm l' = Some ft /\ Legacy.dynamicFormDetails l' = Some d /\
        Legacy.formData l' = ∅) /\
     (collects r l -> Legacy.currentField l' = (Legacy.currentField l + 1)%Z) /\
     (~ binds r -> ~ collects r l ->
      Legacy.currentField l' = Legacy.currentField l)).
Proof.
  cbv zeta.
  destruct (run_reachable uuid t0 sid events) as [Hc Hz].
  pose proof (handle_step e (run events (LangChain.newSession uuid t0 sid))) as Hstep.
  split; [reflexivity|]. split; [exact Hc|].
  split; [exact (step_cursor_ok _ _ Hstep Hc)|].
  split; [exact (step_monotone _ _ Hstep Hz)|].
  split; [exact (step_bound_at_zero _ _ Hstep)|].
  split.
  - intros s0 e0. apply step_cursor_ok, handle_step.
  - intros builtins now r l msg.
    destruct (processConversation_cursor builtins now r l msg) as (Hb & Hcol & Hno).
    split; [|split; [|split; [exact Hcol | exact Hno]]].
    + destruct (classic_binds r) as [B|B]; [right; right; now apply Hb|].
      destruct (classic_collects r l) as [C|C]; [right; left; now apply Hcol|].
      left. now apply Hno.
    + intros ft d Hi Hf Ht Hd.
      now rewrite (processConversation_binds builtins now r l msg ft d Hi Hf Ht Hd).
Qed.

(** The PAN dialogue walks the cursor 0, 5, 9 and stops there. *)
Lemma cursor_walk :
  LangChain.currentField fresh = 0%Z /\
  LangChain.currentField at_email = 5%Z /\
  LangChain.currentField completed = 9%Z /\
  fieldCount completed = 9%Z /\
  LangChain.state completed = COMPLETE.
Proof. repeat split. Qed.

End Cursor.

(** ** More on the string primitives *)

Section Substrings.

Lemma string_app_cons (x : ascii) (a b : string) :
  String x a ++ b = String x (a ++ b).
Proof. reflexivity. Qed.

Lemma string_app_nil_l (a : string) : "" ++ a = a.
Proof. reflexivity. Qed.

Lemma string_app_assoc (a b c : string) : (a ++ b) ++ c = a ++ b ++ c.
Proof.
  induction a as [|x a IH]; [reflexivity|].
  now rewrite !string_app_cons, IH.
Qed.

Lemma string_app_nil_r (a : string) : a ++ "" = a.
Proof.
  induction a as [|x a IH]; [reflexivity|]. now rewrite string_app_cons, IH.
Qed.

Lemma toLowerCase_app (a b : string) :
  JS.toLowerCase (a ++ b) = JS.toLowerCase a ++ JS.toLowerCase b.
Proof.
  induction a as [|x a IH]; [reflexivity|].
  rewrite string_app_cons. simpl. now rewrite IH.
Qed.



Lemma trimStart_spec (s : string) :
  exists lead, s = lead ++ JS.trimStart s /\ blank lead.
Proof.
  unfold blank. induction s as [|c s (lead & E & B)]; simpl.
  - now exists "".
  - destruct (JS.is_space c) eqn:Hc.
    + exists (String c lead). rewrite string_app_cons. simpl. rewrite Hc, B.
      split; [congruence | reflexivity].
    + now exists "".
Qed.

Lemma trimEnd_spec (s : string) :
  exists trail, s = JS.trimEnd s ++ trail /\ blank trail.
Proof.
  unfold blank. induction s as [|c s (trail & E & B)]; simpl.
  - now exists "".
  - destruct (JS.is_space c && String.eqb (JS.trimEnd s) "") eqn:Hc.
    + apply andb_true_iff in Hc as [Hc Ht]. apply String.eqb_eq in Ht.
      rewrite Ht, string_app_nil_l in E. exists (String c s).
      split; [reflexivity|]. simpl. rewrite Hc. simpl. now rewrite E.
    + exists trail. rewrite string_app_cons. split; [congruence | exact B].
Qed.


Lemma trimStart_blank (s : string) : JS.trimStart s = "" <-> blank s.
Proof.
  unfold blank. induction s as [|c s IH]; simpl; [tauto|].
  destruct (JS.is_space c); simpl; [exact IH | split; discriminate].
Qed.


Lemma trim_spec (s : string) :
  exists lead trail, s = lead ++ JS.trim s ++ trail /\ blank lead /\ blank trail.
Proof.
  destruct (trimStart_spec s) as (lead & E1 & B1).
  destruct (trimEnd_spec (JS.trimStart s)) as (trail & E2 & B2).
  exists lead, trail. unfold JS.trim. now rewrite <- E2.
Qed.


End Substrings.

(** ** The validators, rule by rule *)

Section Rules.

Import LangChain.









(** X1.  The two validators accept the same answers for every field type
    but [choice] and [date], the two cases only one of them has. *)
Theorem validators_agree (f : Field) (raw : string) :
  type f <> "choice" -> type f <> "date" ->
  valid (validateFieldInput f raw) = Legacy.validateField f raw.
Proof.
  intros Hc Hd. apply String.eqb_neq in Hc. apply String.eqb_neq in Hd.
  unfold validateFieldInput, Legacy.validateField.
  destruct (negb (required f) && negb (JS.truthy (JS.trim raw))); [reflexivity|].
  destruct (String.eqb (type f) "email"); [reflexivity|].
  destruct (String.eqb (type f) "phone"); [reflexivity|].
  now rewrite Hc, Hd.
Qed.

Lemma validators_agree_scenario :
  valid (validateFieldInput email_address "asha@example.com") = true /\
  Legacy.validateField email_address "asha@example.com" = true.
Proof.
  assert (Hc : type email_address <> "choice") by discriminate.
  assert (Hd : type email_address <> "date") by discriminate.
  pose proof (validators_agree email_address "asha@example.com" Hc Hd) as H.
  split; [reflexivity | now rewrite <- H].
Defined.





(** The no-break space is white space for both validators: an answer made
    of it is blank, an optional field takes it as no answer, and it is
    refused inside an email address. *)
Lemma no_break_space_is_blank :
  JS.trim (nbsp ++ " Asha " ++ nbsp) = "Asha" /\
  valid (validateFieldInput
           (mkField "full_name" "What is your full name?" "text" [] true) nbsp)
    = false /\
  Legacy.validateField (mkField "dob" "Date of birth?" "date" [] false) nbsp = true /\
  validateFieldInput
    (mkField "alternate_phone" "Alternate number?" "phone" [] false) nbsp
    = mkValidation true nbsp None /\
  valid (validateFieldInput email_address ("asha" ++ nbsp ++ "@example.com"))
    = false.
Proof. repeat split. Qed.




End Rules.

(** ** Reachable sessions of the LangChain engine *)

Section Reachable.

Import LangChain.

Lemma assoc_Forall {A} (P : A -> Prop) (key : string) (table : list (string * A)) (v : A) :
  Forall (fun entry => P (snd entry)) table -> assoc key table = Some v -> P v.
Proof.
  induction 1 as [|[k x] table Hx _ IH]; simpl; [discriminate|].
  destruct (String.eqb k key); [now intros [= <-] | exact IH].
Qed.

(** Every form of the registry has at least one field. *)
Lemma lookupForm_verified (form_id : string) (form : Schema) :
  lookupForm form_id = Some (verified form) <->
  assoc form_id VERIFIED_GOVERNMENT_FORMS = Some form.
Proof.
  unfold lookupForm, getProperty.
  destruct (assoc form_id VERIFIED_GOVERNMENT_FORMS) as [x|].
  - split; intros [= ->]; reflexivity.
  - destruct (existsb (String.eqb form_id) objectPrototype);
      split; discriminate.
Qed.

Lemma lookupForm_builtin (form_id key : string) :
  lookupForm form_id = Some (builtin key) ->
  key = form_id /\ In form_id objectPrototype.
Proof.
  unfold lookupForm, getProperty.
  destruct (assoc form_id VERIFIED_GOVERNMENT_FORMS) as [x|]; [discriminate|].
  destruct (existsb (String.eqb form_id) objectPrototype) eqn:E; [|discriminate].
  intros [= <-]. split; [reflexivity|].
  apply existsb_exists in E as (k & Hin & Hk).
  apply String.eqb_eq in Hk. now subst k.
Qed.

(** Every form of the registry has at least one field. *)
Lemma registry_nonempty (form_id : string) (form : Schema) :
  lookupForm form_id = Some (verified form) -> verified_fields form <> [].
Proof.
  rewrite lookupForm_verified.
  apply (assoc_Forall (fun form => verified_fields form <> [])).
  unfold VERIFIED_GOVERNMENT_FORMS. repeat constructor; discriminate.
Qed.

(** No field of the registry is named [__proto__]: every answer stored
    under a field's name is an entry of [formData]. *)
Lemma registry_field_names (form_id : string) (form : Schema) (f : Field) :
  lookupForm form_id = Some (verified form) -> In f (verified_fields form) ->
  name f <> "__proto__".
Proof.
  rewrite lookupForm_verified. intros Hl Hin.
  assert (H : Forall (fun f => String.eqb (name f) "__proto__" = false)
                (verified_fields form)).
  { revert Hl.
    apply (assoc_Forall
             (fun form => Forall (fun f => String.eqb (name f) "__proto__" = false)
                            (verified_fields form))).
    unfold VERIFIED_GOVERNMENT_FORMS. repeat constructor. }
  rewrite List.Forall_forall in H. apply H in Hin.
  intros E. rewrite E in Hin. discriminate.
Qed.

Lemma index_in_range {A} (xs : list A) (i : Z) :
  (0 <= i < Z.of_nat (length xs))%Z -> exists x, JS.index xs i = Some x.
Proof.
  intros H. unfold JS.index.
  destruct (i <? 0)%Z eqn:E; [apply Z.ltb_lt in E; lia|].
  destruct (nth_error xs (Z.to_nat i)) as [x|] eqn:Hx; [now exists x|].
  apply nth_error_None in Hx. lia.
Qed.

Lemma index_In {A} (xs : list A) (x : A) :
  In x xs -> exists i, (0 <= i < Z.of_nat (length xs))%Z /\ JS.index xs i = Some x.
Proof.
  intros H. apply In_nth_error in H as [n Hn].
  assert (n < length xs)%nat by (apply nth_error_Some; congruence).
  exists (Z.of_nat n). split; [lia|].
  unfold JS.index. destruct (Z.of_nat n <? 0)%Z eqn:E; [apply Z.ltb_lt in E; lia|].
  now rewrite Nat2Z.id.
Qed.

Lemma coherent_ext (s s' : LangChainSession) :
  state s' = state s -> currentForm s' = currentForm s ->
  currentField s' = currentField s -> formData s' = formData s ->
  verifiedFormStructure s' = verifiedFormStructure s ->
  coherent s -> coherent s'.
Proof.
  unfold coherent, answered_before. intros -> -> -> -> -> H. exact H.
Qed.

Lemma coherent_addMessage (now : Z) (t : MessageType) (text : string)
    (s : LangChainSession) :
  coherent s -> coherent (addMessage now t text s).
Proof. now apply coherent_ext. Qed.

Lemma advance_session (now : Z) (form : Schema) (s : LangChainSession) :
  fst (advance now form s)
  = (if (currentField s + 1 >=? Z.of_nat (length (verified_fields form)))%Z
     then withState COMPLETE
            (addMessage now ai "Thank you! Information recorded."
               (withField (currentField s + 1) s))
     else addMessage now ai "Thank you! Information recorded."
            (withField (currentField s + 1) s)).
Proof.
  unfold advance. cbn [currentField withField addMessage].
  destruct (currentField s + 1 >=? Z.of_nat (length (verified_fields form)))%Z;
    [reflexivity|].
  now destruct (JS.index (verified_fields form) (currentField s + 1)).
Qed.

Lemma answered_step (form : Schema) (f : Field) (v : string)
    (fd : gmap string string) (c : Z) :
  JS.index (verified_fields form) c = Some f ->
  (forall k, is_Some (fd !! k) <->
     exists i g, (0 <= i < c)%Z /\ JS.index (verified_fields form) i = Some g /\ name g = k) ->
  forall k, is_Some (<[name f := v]> fd !! k) <->
    exists i g, (0 <= i < c + 1)%Z /\ JS.index (verified_fields form) i = Some g /\ name g = k.
Proof.
  intros Hf H k. pose proof (index_Some_range _ _ _ Hf) as Hr.
  rewrite lookup_insert_is_Some, H. split.
  - intros [<- | [_ (i & g & Hi & Hg & Hk)]].
    + exists c, f. repeat split; try assumption; lia.
    + exists i, g. repeat split; try assumption; lia.
  - intros (i & g & Hi & Hg & Hk).
    destruct (decide (name f = k)) as [E|E]; [now left|]. right. split; [exact E|].
    exists i, g. repeat split; try assumption; try lia.
    destruct (decide (i = c)) as [->|Hne]; [|lia]. congruence.
Qed.

Lemma coherent_accept (now : Z) (form : Schema) (f : Field) (v msg : string)
    (s : LangChainSession) :
  coherent s -> state s = COLLECTING ->
  verifiedFormStructure s = Some (verified form) ->
  JS.index (verified_fields form) (currentField s) = Some f ->
  coherent (fst (advance now form (withAnswer (name f) v (addMessage now human msg s)))).
Proof.
  intros Hc Hs Hf Hi. rewrite advance_session.
  cbn [withAnswer addMessage currentField].
  pose proof (index_Some_range _ _ _ Hi) as Hr.
  unfold coherent in Hc. rewrite Hf in Hc. destruct Hc as (Hid & Ha & _).
  destruct (currentField s + 1 >=? Z.of_nat (length (verified_fields form)))%Z eqn:E;
    unfold coherent; cbn; rewrite Hf; (split; [exact Hid|]);
    (split; [unfold answered_before; cbn; now apply answered_step|]).
  - right. split; [reflexivity|]. apply Z.geb_le in E. lia.
  - left. split; [exact Hs|]. rewrite Z.geb_leb in E. apply Z.leb_gt in E. lia.
Qed.

Lemma coherent_discover (now : Z) (chains : Chains) (msg : string)
    (s : LangChainSession) :
  coherent s -> verifiedFormStructure s = None ->
  coherent (fst (discover now chains (addMessage now human msg s))).
Proof.
  intros Hc Hn.
  assert (H1 : coherent (addMessage now human msg s)) by now apply coherent_addMessage.
  unfold coherent in Hc. rewrite Hn in Hc. destruct Hc as (_ & _ & Hfd & _).
  destruct (discover_cases now chains (addMessage now human msg s))
    as [-> | (result & _ & [[_ ->] | [(form_id & key & Hl & ->)
                                     | (form_id & form & Hl & -> & _)]])].
  - exact H1.
  - now apply coherent_addMessage.
  - apply lookupForm_builtin in Hl as [-> Hin].
    unfold coherent. cbn. now repeat split.
  - assert (Hne : (0 < Z.of_nat (length (verified_fields form)))%Z).
    { pose proof (registry_nonempty _ _ Hl). destruct (verified_fields form);
        [congruence | simpl; lia]. }
    unfold coherent. cbn. split; [now exists form_id|]. split.
    + unfold answered_before. cbn. intros k. rewrite Hfd, lookup_empty. split.
      * intros [x Hx]. discriminate.
      * intros (i & _ & Hi & _). lia.
    + left. split; [reflexivity | lia].
Qed.

Lemma process_coherent (now : Z) (chains : Chains) (msg : string)
    (s : LangChainSession) :
  coherent s -> coherent (fst (processUserMessage now chains msg s)).
Proof.
  intros Hc.
  assert (H1 : coherent (addMessage now human msg s)) by now apply coherent_addMessage.
  unfold processUserMessage.
  cbn [state addMessage verifiedFormStructure currentField].
  destruct (verifiedFormStructure s) as [[form|key]|] eqn:Hf.
  2:{ pose proof Hc as Hc'. unfold coherent in Hc'. rewrite Hf in Hc'.
      destruct Hc' as (Hs & _). rewrite Hs. exact H1. }
  - pose proof Hc as Hc'. unfold coherent in Hc'. rewrite Hf in Hc'.
    destruct Hc' as (_ & _ & [[Hs Hr] | [Hs Hr]]); rewrite Hs; [|exact H1].
    destruct (JS.index (verified_fields form) (currentField s)) as [f|] eqn:Hi;
      [|exact H1].
    destruct (String.eqb (type f) "complex").
    + destruct (fieldValidationChain chains) as [vr|]; [|exact H1].
      destruct (negb (llm_valid vr)); [exact H1|].
      now apply coherent_accept.
    + destruct (negb (valid (validateFieldInput f msg))); [exact H1|].
      now apply coherent_accept.
  - pose proof Hc as Hc'. unfold coherent in Hc'. rewrite Hf in Hc'.
    destruct Hc' as (Hs & _). rewrite Hs. now apply coherent_discover.
Qed.

Lemma run_coherent (events : list Event) (s : LangChainSession) :
  coherent s -> coherent (run events s).
Proof.
  revert s. induction events as [|[[now chains] msg] events IH]; intros s Hc;
    [exact Hc|].
  apply IH. now apply process_coherent.
Qed.

Lemma newSession_coherent (uuid : string) (t0 : Z) (sid : option string) :
  coherent (newSession uuid t0 sid).
Proof. unfold coherent. cbn. now repeat split. Qed.

End Reachable.

(** ** Progress of a LangChain session *)

Section Progress.

Import LangChain.

Lemma reachable_coherent (uuid : string) (t0 : Z) (sid : option string)
    (events : list Event) :
  coherent (run events (newSession uuid t0 sid)).
Proof. apply run_coherent, newSession_coherent. Qed.

(** A session bound to a member of [Object.prototype] is stuck: reading
    the field at the cursor throws, so the call only logs the message and
    answers with the error reply. *)
Lemma process_builtin (now : Z) (chains : Chains) (msg : string)
    (s : LangChainSession) (key : string) :
  state s = COLLECTING -> verifiedFormStructure s = Some (builtin key) ->
  processUserMessage now chains msg s = (addMessage now human msg s, caught).
Proof.
  intros Hs Hf. unfold processUserMessage.
  cbn [state addMessage verifiedFormStructure]. now rewrite Hs, Hf.
Qed.

Lemma run_builtin (events : list Event) (s : LangChainSession) (key : string) :
  state s = COLLECTING -> verifiedFormStructure s = Some (builtin key) ->
  state (run events s) = COLLECTING /\
  verifiedFormStructure (run events s) = Some (builtin key) /\
  currentField (run events s) = currentField s /\
  formData (run events s) = formData s /\
  currentForm (run events s) = currentForm s.
Proof.
  revert s. induction events as [|[[now chains] msg] events IH]; intros s Hs Hf.
  - now repeat split.
  - change (run (((now, chains), msg) :: events) s)
      with (run events (fst (processUserMessage now chains msg s))).
    rewrite (process_builtin now chains msg s key Hs Hf). cbn [fst].
    apply (IH (addMessage now human msg s)); assumption.
Qed.

(** The names of [Object.prototype] are non-empty and none of them is a key
    of the registry. *)
Lemma lookupForm_inherited (key : string) :
  In key objectPrototype ->
  JS.truthy key = true /\ lookupForm key = Some (builtin key).
Proof.
  unfold objectPrototype. cbn [In].
  intros H. repeat (destruct H as [<- | H]; [split; reflexivity|]). destruct H.
Qed.

(** X5.  Along every run from a fresh session the state says how far the
    collection went.  [INIT] holds exactly while nothing is bound.
    [COMPLETE] holds exactly when a form of the registry is bound and the
    cursor equals its field count.  [COLLECTING] holds exactly when a form
    of the registry is bound and fields are left, or when what is bound is
    a member of [Object.prototype].  ['FORM_DISCOVERY'] never occurs, and
    what is bound is what [VERIFIED_GOVERNMENT_FORMS] answers for
    [currentForm].  The second way into [COLLECTING] is open from [INIT]
    whenever the chain names a property of [Object.prototype]: the call
    binds it and answers with the error reply, and from then on the session
    is stuck: whatever messages follow, it stays in [COLLECTING] with the
    cursor at 0 and nothing on record. *)
Theorem state_tracks_progress (uuid : string) (t0 : Z) (sid : option string)
    (events : list Event) :
  let s := run events (newSession uuid t0 sid) in
  (state s = INIT <-> verifiedFormStructure s = None) /\
  (state s = COLLECTING <->
     (exists form, verifiedFormStructure s = Some (verified form) /\
                   (currentField s < fieldCount s)%Z) \/
     (exists key, verifiedFormStructure s = Some (builtin key))) /\
  (state s = COMPLETE <->
     exists form, verifiedFormStructure s = Some (verified form) /\
                  currentField s = fieldCount s) /\
  state s <> FORM_DISCOVERY /\
  (forall form, verifiedFormStructure s = Some form ->
     exists form_id, currentForm s = Some form_id /\ lookupForm form_id = Some form) /\
  (forall (now : Z) (chains : Chains) (msg : string) (result : DiscoveryResult)
          (key : string),
     state s = INIT ->
     formDiscoveryChain chains = Some result ->
     matched_form_id result = Some key -> In key objectPrototype ->
     processUserMessage now chains msg s
       = (bindForm key (builtin key) (addMessage now human msg s), caught)) /\
  (forall key, verifiedFormStructure s = Some (builtin key) ->
     In key objectPrototype /\ currentForm s = Some key /\
     forall (now : Z) (chains : Chains) (msg : string) (more : list Event),
       processUserMessage now chains msg s = (addMessage now human msg s, caught) /\
       state (run more s) = COLLECTING /\
       verifiedFormStructure (run more s) = Some (builtin key) /\
       currentField (run more s) = 0%Z /\
       formData (run more s) = ∅).
Proof.
  cbv zeta. pose proof (reachable_coherent uuid t0 sid events) as Hc.
  set (s := run events (newSession uuid t0 sid)) in *.
  unfold coherent, fieldCount in *.
  destruct (verifiedFormStructure s) as [[form|key]|] eqn:Hf.
  - assert (Hreg : forall form', Some (verified form) = Some form' ->
              exists form_id,
                currentForm s = Some form_id /\ lookupForm form_id = Some form').
    { intros form' E. injection E as E. subst form'. tauto. }
    destruct Hc as (_ & _ & [[Hs Hr] | [Hs Hr]]); rewrite Hs.
    + split; [split; discriminate|].
      split; [split; [intros _; left; exists form; split; [reflexivity | lia]
                     | reflexivity]|].
      split; [split; [discriminate | intros (f & [= <-] & H); lia]|].
      split; [discriminate|]. split; [exact Hreg|].
      split; [discriminate | discriminate].
    + split; [split; discriminate|].
      split; [split; [discriminate
                     | intros [(f & [= <-] & H) | (k & H)]; [lia | discriminate]]|].
      split; [split; [intros _; exists form; split; [reflexivity | lia]
                     | reflexivity]|].
      split; [discriminate|]. split; [exact Hreg|].
      split; [discriminate | discriminate].
  - destruct Hc as (Hs & Hz & Hfd & Hcf & Hin). rewrite Hs.
    split; [split; discriminate|].
    split; [split; [intros _; right; now exists key | reflexivity]|].
    split; [split; [discriminate | intros (f & H & _); discriminate]|].
    split; [discriminate|].
    split.
    { intros form' E. injection E as E. subst form'. exists key.
      split; [exact Hcf|]. now apply lookupForm_inherited. }
    split; [discriminate|].
    intros key' E. injection E as E. subst key'.
    split; [exact Hin|]. split; [exact Hcf|].
    intros now chains msg more.
    split; [now apply (process_builtin now chains msg s key)|].
    destruct (run_builtin more s key Hs Hf) as (H1 & H2 & H3 & H4 & _).
    rewrite H1, H2, H3, H4. now repeat split.
  - destruct Hc as (Hs & Hz & _). rewrite Hs, Hz.
    split; [split; reflexivity|].
    split; [split; [discriminate
                   | intros [(f & H & _) | (k & H)]; discriminate]|].
    split; [split; [discriminate | intros (f & H & _); discriminate]|].
    split; [discriminate|].
    split; [discriminate|].
    split; [|discriminate].
    intros now chains msg result key _ Hchain Hm Hin.
    destruct (lookupForm_inherited key Hin) as [Ht Hl].
    unfold processUserMessage. cbn [state addMessage]. rewrite Hs.
    unfold discover.
    change (verifiedFormStructure (addMessage now human msg s))
      with (verifiedFormStructure s).
    rewrite Hf, Hchain.
    unfold discovered, matchedForm. rewrite Hm, Ht, Hl. reflexivity.
Qed.

(** X6.  Along every run from a fresh session the answers on record are
    exactly those of the fields before the cursor (none while no form of
    the registry is bound); in particular a [COMPLETE] session holds an
    answer for every field of its form. *)
Theorem answers_on_record (uuid : string) (t0 : Z) (sid : option string)
    (events : list Event) :
  let s := run events (newSession uuid t0 sid) in
  match verifiedFormStructure s with
  | None => formData s = ∅
  | Some (builtin _) => formData s = ∅ /\ currentField s = 0%Z
  | Some (verified form) =>
      answered_before form s /\
      (state s = COMPLETE ->
       forall f, In f (verified_fields form) -> is_Some (formData s !! name f))
  end.
Proof.
  cbv zeta. pose proof (reachable_coherent uuid t0 sid events) as Hc.
  unfold coherent in Hc.
  destruct (verifiedFormStructure (run events (newSession uuid t0 sid)))
    as [[form|key]|].
  - destruct Hc as (_ & Ha & Hst). split; [exact Ha|].
    intros Hs f Hf. destruct Hst as [[Hs' _] | [_ Hr]]; [congruence|].
    apply Ha. apply index_In in Hf as (i & Hi & Hx).
    exists i, f. repeat split; try assumption; lia.
  - tauto.
  - tauto.
Qed.

Lemma index_middle {A} (before remaining : list A) (x : A) :
  JS.index (before ++ x :: remaining) (Z.of_nat (length before)) = Some x.
Proof.
  unfold JS.index.
  destruct (Z.of_nat (length before) <? 0)%Z eqn:E; [apply Z.ltb_lt in E; lia|].
  rewrite Nat2Z.id, nth_error_app2 by lia. now rewrite Nat.sub_diag.
Qed.

Lemma accepted_run (remaining : list Field) (events : list Event) :
  Forall2 accepts remaining events ->
  forall (s : LangChainSession) (form : Schema) (before : list Field),
    state s = COLLECTING ->
    verifiedFormStructure s = Some (verified form) ->
    verified_fields form = (before ++ remaining)%list ->
    currentField s = Z.of_nat (length before) ->
    remaining <> [] ->
    state (run events s) = COMPLETE /\
    currentField (run events s) = Z.of_nat (length (verified_fields form)) /\
    (forall n, (n < length events)%nat ->
               state (run (firstn n events) s) = COLLECTING).
Proof.
  induction 1 as [|f [[now chains] msg] remaining events [Hc Hv] Hrest IH];
    intros s form before Hs Hf Hfields Hcur Hne; [congruence|].
  assert (Hi : JS.index (verified_fields form) (currentField s) = Some f)
    by (rewrite Hfields, Hcur; apply index_middle).
  apply String.eqb_neq in Hc. cbn [snd] in Hv.
  change (run (((now, chains), msg) :: events) s)
    with (run events (fst (processUserMessage now chains msg s))).
  rewrite (process_accept now chains msg s form f Hs Hf Hi Hc Hv), advance_session.
  cbn [withAnswer addMessage currentField].
  assert (Hlen : length (verified_fields form) = (length before + 1 + length remaining)%nat).
  { rewrite Hfields, length_app. simpl. lia. }
  destruct (currentField s + 1 >=? Z.of_nat (length (verified_fields form)))%Z eqn:E.
  - apply Z.geb_le in E.
    assert (remaining = []) by (destruct remaining; [reflexivity | simpl in Hlen; lia]).
    subst remaining. inversion Hrest; subst. cbn.
    repeat split; [lia|]. intros [|n] Hn; [exact Hs | lia].
  - pose proof E as E0. rewrite Z.geb_leb in E. apply Z.leb_gt in E.
    assert (Hne' : remaining <> []) by (intros ->; simpl in Hlen; lia).
    set (s1 := addMessage now ai "Thank you! Information recorded."
                 (withField (currentField s + 1)
                    (withAnswer (name f) (value (validateFieldInput f msg))
                       (addMessage now human msg s)))).
    destruct (IH s1 form (before ++ [f])%list) as (H1 & H2 & H3);
      try assumption.
    + now rewrite <- app_assoc.
    + cbn. rewrite length_app. simpl. lia.
    + split; [exact H1|]. split; [exact H2|].
      intros [|n] Hn; [exact Hs|].
      change (firstn (S n) (((now, chains), msg) :: events))
        with (((now, chains), msg) :: firstn n events).
      change (run (((now, chains), msg) :: firstn n events) s)
        with (run (firstn n events) (fst (processUserMessage now chains msg s))).
      rewrite (process_accept now chains msg s form f Hs Hf Hi Hc Hv), advance_session.
      cbn [withAnswer addMessage currentField].
      rewrite E0. apply H3. simpl in Hn. lia.
Qed.

(** X7.  In [COLLECTING], one accepted answer per remaining field completes
    the form: after them the state is [COMPLETE] and the cursor equals the
    field count, and the state is still [COLLECTING] after any smaller
    number of them. *)
Theorem accepted_answers_complete (s : LangChainSession) (form : Schema)
    (before remaining : list Field) (events : list Event) :
  state s = COLLECTING ->
  verifiedFormStructure s = Some (verified form) ->
  verified_fields form = (before ++ remaining)%list ->
  currentField s = Z.of_nat (length before) ->
  remaining <> [] ->
  Forall2 accepts remaining events ->
  state (run events s) = COMPLETE /\
  currentField (run events s) = Z.of_nat (length (verified_fields form)) /\
  (forall n, (n < length events)%nat ->
             state (run (firstn n events) s) = COLLECTING).
Proof.
  intros Hs Hf Hfields Hcur Hne Hacc.
  exact (accepted_run remaining events Hacc s form before Hs Hf Hfields Hcur Hne).
Qed.


(** From the email field of the PAN dialogue, four accepted answers finish
    the nine fields; three do not. *)
Lemma accepted_answers_scenario :
  state (run pan_from_email at_email) = COMPLETE /\
  currentField (run pan_from_email at_email) = 9%Z /\
  state (run (firstn 3 pan_from_email) at_email) = COLLECTING.
Proof.
  assert (Hne : skipn 5 (verified_fields pan_form) <> []) by discriminate.
  assert (Hacc : Forall2 accepts (skipn 5 (verified_fields pan_form)) pan_from_email).
  { repeat constructor; discriminate. }
  destruct (accepted_answers_complete at_email pan_form
              (firstn 5 (verified_fields pan_form))
              (skipn 5 (verified_fields pan_form)) pan_from_email
              eq_refl eq_refl eq_refl eq_refl Hne Hacc) as (H1 & H2 & H3).
  split; [exact H1|]. split; [exact H2|].
  apply H3. simpl. lia.
Defined.

Lemma advance_memory (now : Z) (form : Schema) (s : LangChainSession) :
  memory (fst (advance now form s))
    = (memory s ++ [mkMessage ai "Thank you! Information recorded."])%list /\
  lastActivity (fst (advance now form s)) = now /\
  id (fst (advance now form s)) = id s /\
  createdAt (fst (advance now form s)) = createdAt s /\
  generatedFiles (fst (advance now form s)) = generatedFiles s.
Proof.
  rewrite advance_session.
  destruct (currentField s + 1 >=? Z.of_nat (length (verified_fields form)))%Z;
    cbn; repeat split.
Qed.

Lemma advance_reply (now : Z) (form : Schema) (s : LangChainSession)
    (m : option string) (q : string) :
  snd (advance now form s) <> Some (validation_error m q).
Proof.
  unfold advance.
  destruct (_ >=? _)%Z; [discriminate|].
  destruct (JS.index _ _); discriminate.
Qed.

Lemma discover_log (now : Z) (chains : Chains) (s : LangChainSession) :
  (memory (fst (discover now chains s)) = memory s \/
   exists text, memory (fst (discover now chains s))
                = (memory s ++ [mkMessage ai text])%list) /\
  (lastActivity s = now -> lastActivity (fst (discover now chains s)) = now) /\
  id (fst (discover now chains s)) = id s /\
  createdAt (fst (discover now chains s)) = createdAt s /\
  generatedFiles (fst (discover now chains s)) = generatedFiles s /\
  forall m q, snd (discover now chains s) <> Some (validation_error m q).
Proof.
  destruct (discover_cases now chains s)
    as [-> | (result & _ & [[_ ->] | [(form_id & key & _ & ->)
                                     | (form_id & form & _ & E & Hno)]])].
  - cbn. split; [now left | repeat split; auto; discriminate].
  - cbn. split; [right; eexists; reflexivity | repeat split; auto; discriminate].
  - cbn. split; [now left | repeat split; auto; discriminate].
  - rewrite E. cbn.
    split; [right; eexists; reflexivity | repeat split; auto].
Qed.

Lemma process_log (now : Z) (chains : Chains) (msg : string)
    (s : LangChainSession) :
  (exists tail,
     memory (fst (processUserMessage now chains msg s))
       = (memory s ++ mkMessage human msg :: tail)%list /\
     (tail = [] \/ exists text, tail = [mkMessage ai text]) /\
     (forall m q,
        snd (processUserMessage now chains msg s) = Some (validation_error m q) ->
        tail = [])) /\
  lastActivity (fst (processUserMessage now chains msg s)) = now /\
  id (fst (processUserMessage now chains msg s)) = id s /\
  createdAt (fst (processUserMessage now chains msg s)) = createdAt s /\
  generatedFiles (fst (processUserMessage now chains msg s)) = generatedFiles s.
Proof.
  assert (Hsame :
    (exists tail,
       memory (addMessage now human msg s)
         = (memory s ++ mkMessage human msg :: tail)%list /\
       (tail = [] \/ exists text, tail = [mkMessage ai text]) /\ tail = []) /\
    lastActivity (addMessage now human msg s) = now /\
    id (addMessage now human msg s) = id s /\
    createdAt (addMessage now human msg s) = createdAt s /\
    generatedFiles (addMessage now human msg s) = generatedFiles s).
  { split; [exists []; cbn; auto | cbn; auto]. }
  assert (Hok : forall form key v,
    let r := advance now form (withAnswer key v (addMessage now human msg s)) in
    (exists tail,
       memory (fst r) = (memory s ++ mkMessage human msg :: tail)%list /\
       (tail = [] \/ exists text, tail = [mkMessage ai text]) /\
       (forall m q, snd r = Some (validation_error m q) -> tail = [])) /\
    lastActivity (fst r) = now /\ id (fst r) = id s /\
    createdAt (fst r) = createdAt s /\ generatedFiles (fst r) = generatedFiles s).
  { intros form key v r.
    destruct (advance_memory now form (withAnswer key v (addMessage now human msg s)))
      as (Hm & Hl & Hi & Hc & Hg).
    split; [|now repeat split].
    exists [mkMessage ai "Thank you! Information recorded."]. split.
    - subst r. rewrite Hm. cbn. now rewrite <- app_assoc.
    - split; [right; eauto|]. intros m q H. now apply advance_reply in H. }
  assert (Hflat : forall (r : LangChainSession * option Response),
    fst r = addMessage now human msg s ->
    (exists tail,
       memory (fst r) = (memory s ++ mkMessage human msg :: tail)%list /\
       (tail = [] \/ exists text, tail = [mkMessage ai text]) /\
       (forall m q, snd r = Some (validation_error m q) -> tail = [])) /\
    lastActivity (fst r) = now /\ id (fst r) = id s /\
    createdAt (fst r) = createdAt s /\ generatedFiles (fst r) = generatedFiles s).
  { intros r ->. destruct Hsame as ((tail & H1 & H2 & H3) & H4).
    split; [|exact H4]. exists tail. repeat split; try assumption. now intros. }
  unfold processUserMessage.
  cbn [state addMessage verifiedFormStructure currentField].
  assert (Hdisc :
    (exists tail,
       memory (fst (discover now chains (addMessage now human msg s)))
         = (memory s ++ mkMessage human msg :: tail)%list /\
       (tail = [] \/ exists text, tail = [mkMessage ai text]) /\
       (forall m q,
          snd (discover now chains (addMessage now human msg s))
            = Some (validation_error m q) -> tail = [])) /\
    lastActivity (fst (discover now chains (addMessage now human msg s))) = now /\
    id (fst (discover now chains (addMessage now human msg s))) = id s /\
    createdAt (fst (discover now chains (addMessage now human msg s))) = createdAt s /\
    generatedFiles (fst (discover now chains (addMessage now human msg s)))
      = generatedFiles s).
  { destruct (discover_log now chains (addMessage now human msg s))
      as (Hm & Hl & Hi & Hc & Hg & Hno).
    split; [|split; [now apply Hl | now repeat split]].
    destruct Hm as [Hm | [text Hm]].
    - exists []. rewrite Hm. cbn. split; [reflexivity|]. split; [now left|]. now intros.
    - exists [mkMessage ai text]. rewrite Hm. cbn. rewrite <- app_assoc.
      split; [reflexivity|]. split; [right; eauto|].
      intros m q H. now apply Hno in H. }
  destruct (state s).
  - exact Hdisc.
  - exact Hdisc.
  - destruct (verifiedFormStructure s) as [[form|key]|];
      [|now apply Hflat|now apply Hflat].
    destruct (JS.index (verified_fields form) (currentField s)) as [f|];
      [|now apply Hflat].
    destruct (String.eqb (type f) "complex").
    + destruct (fieldValidationChain chains) as [vr|]; [|now apply Hflat].
      destruct (negb (llm_valid vr)); [now apply Hflat | apply Hok].
    + destruct (negb (valid (validateFieldInput f msg))); [now apply Hflat | apply Hok].
  - now apply Hflat.
Qed.

(** X8.  The conversation memory only grows: every call appends the user's
    message and then at most one message of the assistant, and stamps the
    last activity with the time of the call; the identifier, the creation
    time and the file list are never touched.  A refusal
    ([validation_error]) appends the user's message alone. *)
Theorem memory_grows (now : Z) (chains : Chains) (msg : string)
    (s : LangChainSession) :
  (exists tail,
     memory (fst (processUserMessage now chains msg s))
       = (memory s ++ mkMessage human msg :: tail)%list /\
     (tail = [] \/ exists text, tail = [mkMessage ai text]) /\
     (forall m q,
        snd (processUserMessage now chains msg s) = Some (validation_error m q) ->
        tail = [])) /\
  lastActivity (fst (processUserMessage now chains msg s)) = now /\
  id (fst (processUserMessage now chains msg s)) = id s /\
  createdAt (fst (processUserMessage now chains msg s)) = createdAt s /\
  generatedFiles (fst (processUserMessage now chains msg s)) = generatedFiles s.
Proof. apply process_log. Qed.

End Progress.

(** ** The LangChain store under chat and sweep *)

Section StoreDynamics.

Import LangChain.

Lemma process_meta (now : Z) (chains : Chains) (msg : string) (s : LangChainSession) :
  lastActivity (fst (processUserMessage now chains msg s)) = now /\
  id (fst (processUserMessage now chains msg s)) = id s.
Proof. destruct (process_log now chains msg s) as (_ & H1 & H2 & _). now split. Qed.

Lemma newSession_id (uuid : string) (now : Z) (k : string) :
  k <> "" -> id (newSession uuid now (Some k)) = k.
Proof.
  intros Hk. unfold newSession. cbn [id orElse].
  destruct k; [congruence | reflexivity].
Qed.

Lemma getSession_known (uuid : string) (now : Z) (k : string)
    (sessions : gmap string LangChainSession) (old : LangChainSession) :
  k <> "" -> sessions !! k = Some old ->
  getSession uuid now (Some k) sessions
    = (withActivity now old, <[k := withActivity now old]> sessions).
Proof.
  intros Hk Hl. unfold getSession.
  assert (falsy (Some k) = false) as -> by (destruct k; [congruence | reflexivity]).
  now rewrite Hl.
Qed.

Lemma getSession_shape (uuid : string) (now : Z) (sessionId : option string)
    (sessions : gmap string LangChainSession) :
  keyed sessions ->
  snd (getSession uuid now sessionId sessions)
    = <[id (fst (getSession uuid now sessionId sessions))
        := fst (getSession uuid now sessionId sessions)]> sessions.
Proof.
  intros Hk. unfold getSession.
  destruct sessionId as [sid|]; [|reflexivity].
  destruct (falsy (Some sid)); [reflexivity|].
  destruct (sessions !! sid) as [old|] eqn:Hl; [|reflexivity].
  cbn. now rewrite (Hk sid old Hl).
Qed.

Lemma chat_store (uuid : string) (now : Z) (chains : Chains) (msg : string)
    (sessionId : option string) (sessions : gmap string LangChainSession) :
  keyed sessions ->
  snd (chat uuid now chains msg sessionId sessions)
    = <[id (fst (fst (chat uuid now chains msg sessionId sessions)))
        := fst (fst (chat uuid now chains msg sessionId sessions))]> sessions.
Proof.
  intros Hk. unfold chat.
  pose proof (getSession_shape uuid now sessionId sessions Hk) as Hg.
  destruct (getSession uuid now sessionId sessions) as [session sessions1].
  cbn [fst snd] in Hg.
  pose proof (process_meta now chains msg session) as [_ Hid].
  destruct (processUserMessage now chains msg session) as [s reply].
  cbn [fst snd] in *. subst sessions1. rewrite Hid. apply insert_insert_eq.
Qed.

Lemma chat_session (uuid : string) (now : Z) (chains : Chains) (msg : string)
    (sessionId : option string) (sessions : gmap string LangChainSession) :
  fst (fst (chat uuid now chains msg sessionId sessions))
    = fst (processUserMessage now chains msg
             (fst (getSession uuid now sessionId sessions))) /\
  (forall key,
     verifiedFormStructure (fst (fst (chat uuid now chains msg sessionId sessions)))
       = Some (builtin key) ->
     snd (fst (chat uuid now chains msg sessionId sessions)) = failed).
Proof.
  unfold chat. destruct (getSession uuid now sessionId sessions) as [session sessions1].
  cbn [fst]. destruct (processUserMessage now chains msg session) as [s r].
  cbn [fst snd]. split; [reflexivity|]. now intros key ->.
Qed.

Lemma keyed_insert (sessions : gmap string LangChainSession) (s : LangChainSession) :
  keyed sessions -> keyed (<[id s := s]> sessions).
Proof.
  intros Hk k x. rewrite lookup_insert.
  destruct (decide (id s = k)) as [<-|Hne]; [now intros [= <-] | apply Hk].
Qed.

Lemma keyed_empty : keyed ∅.
Proof. intros k s. rewrite lookup_empty. discriminate. Qed.

Lemma chat_keyed (uuid : string) (now : Z) (chains : Chains) (msg : string)
    (sessionId : option string) (sessions : gmap string LangChainSession) :
  keyed sessions -> keyed (snd (chat uuid now chains msg sessionId sessions)).
Proof.
  intros Hk. rewrite (chat_store uuid now chains msg sessionId sessions Hk).
  now apply keyed_insert.
Qed.

(** X9.  One [/chat] request touches one entry of the store: afterwards the
    returned session sits under its own identifier, every other entry is
    what it was, and a store keyed by session identifiers stays so.  With the
    identifier of a stored session, the request continues that session. *)
Theorem chat_touches_one_session (uuid : string) (now : Z) (chains : Chains)
    (msg : string) (sessionId : option string)
    (sessions : gmap string LangChainSession) :
  keyed sessions ->
  snd (chat uuid now chains msg sessionId sessions)
    !! id (fst (fst (chat uuid now chains msg sessionId sessions)))
    = Some (fst (fst (chat uuid now chains msg sessionId sessions))) /\
  (forall k, k <> id (fst (fst (chat uuid now chains msg sessionId sessions))) ->
     snd (chat uuid now chains msg sessionId sessions) !! k = sessions !! k) /\
  keyed (snd (chat uuid now chains msg sessionId sessions)) /\
  (forall k old, sessionId = Some k -> k <> "" -> sessions !! k = Some old ->
     id (fst (fst (chat uuid now chains msg sessionId sessions))) = k /\
     fst (fst (chat uuid now chains msg sessionId sessions))
       = fst (processUserMessage now chains msg (withActivity now old))).
Proof.
  intros Hk. rewrite (chat_store uuid now chains msg sessionId sessions Hk).
  split; [apply lookup_insert_eq|].
  split; [intros k Hne; now apply lookup_insert_ne|].
  split; [now apply keyed_insert|].
  intros k old -> Hne Hl.
  destruct (chat_session uuid now chains msg (Some k) sessions) as [Hs _].
  rewrite Hs, (getSession_known uuid now k sessions old Hne Hl). cbn [fst].
  split; [|reflexivity].
  destruct (process_meta now chains msg (withActivity now old)) as [_ Hid].
  rewrite Hid. cbn. now apply Hk.
Qed.

(** Two visitors: the second request leaves the first session alone. *)
Lemma chat_touches_one_session_scenario :
  snd (chat "second" 2000 offline "hello" None
         (snd (chat "first" 1000 offline "hello" None ∅))) !! "first"
    = snd (chat "first" 1000 offline "hello" None ∅) !! "first".
Proof.
  assert (Hk : keyed (snd (chat "first" 1000 offline "hello" None ∅)))
    by apply chat_keyed, keyed_empty.
  destruct (chat_touches_one_session "second" 2000 offline "hello" None
              (snd (chat "first" 1000 offline "hello" None ∅)) Hk) as (_ & H & _).
  apply H. discriminate.
Defined.

Lemma chat_lookup (uuid : string) (now : Z) (chains : Chains) (msg : string)
    (sessionId : option string) (sessions : gmap string LangChainSession) :
  snd (chat uuid now chains msg sessionId sessions)
    !! id (fst (fst (chat uuid now chains msg sessionId sessions)))
  = Some (fst (fst (chat uuid now chains msg sessionId sessions))).
Proof.
  unfold chat. destruct (getSession uuid now sessionId sessions) as [session sessions1].
  destruct (processUserMessage now chains msg session) as [s reply].
  cbn [fst snd]. apply lookup_insert_eq.
Qed.

(** X10.  A session is safe from the sweep for as long as the limit after
    its last request: the session a [/chat] request at time [now] returns is
    kept, unchanged, by every sweep at a time [later] with
    [later - now <= maxAge]; in particular by the scheduled six-hour sweep
    up to six hours later. *)
Theorem chat_protects_from_sweep (uuid : string) (now later maxAge : Z)
    (chains : Chains) (msg : string) (sessionId : option string)
    (sessions : gmap string LangChainSession) :
  (later - now <= maxAge)%Z ->
  cleanupSessions later (Some maxAge)
      (snd (chat uuid now chains msg sessionId sessions))
    !! id (fst (fst (chat uuid now chains msg sessionId sessions)))
  = Some (fst (fst (chat uuid now chains msg sessionId sessions))) /\
  ((later - now <= sixHours)%Z ->
   scheduledCleanup later (snd (chat uuid now chains msg sessionId sessions))
     !! id (fst (fst (chat uuid now chains msg sessionId sessions)))
   = Some (fst (fst (chat uuid now chains msg sessionId sessions)))).
Proof.
  assert (H : forall limit, (later - now <= limit)%Z ->
    cleanupSessions later (Some limit)
        (snd (chat uuid now chains msg sessionId sessions))
      !! id (fst (fst (chat uuid now chains msg sessionId sessions)))
    = Some (fst (fst (chat uuid now chains msg sessionId sessions)))).
  { intros limit Hl. rewrite cleanupSessions_lookup, chat_lookup.
    destruct (chat_session uuid now chains msg sessionId sessions) as [Hs _].
    rewrite Hs at 1.
    destruct (process_meta now chains msg (fst (getSession uuid now sessionId sessions)))
      as [Ha _].
    rewrite Ha. rewrite Z.gtb_ltb.
    now rewrite (proj2 (Z.ltb_ge limit (later - now)) Hl). }
  intros Hl. split; [now apply H | apply H].
Qed.

(** A visitor served at 1000 ms is still there at the sweep six hours
    later, and gone one millisecond after that. *)
Lemma chat_protects_from_sweep_scenario :
  is_Some (scheduledCleanup (1000 + sixHours)
             (snd (chat "first" 1000 offline "hello" None ∅)) !! "first") /\
  scheduledCleanup (1001 + sixHours)
    (snd (chat "first" 1000 offline "hello" None ∅)) !! "first" = None.
Proof.
  assert (Hl : (1000 + sixHours - 1000 <= sixHours)%Z) by (unfold sixHours; lia).
  destruct (chat_protects_from_sweep "first" 1000 (1000 + sixHours) sixHours
              offline "hello" None ∅ Hl) as [H _].
  split.
  - unfold scheduledCleanup.
    change (is_Some
              (cleanupSessions (1000 + sixHours) (Some sixHours)
                 (snd (chat "first" 1000 offline "hello" None ∅))
               !! id (fst (fst (chat "first" 1000 offline "hello" None ∅))))).
    rewrite H. eauto.
  - unfold scheduledCleanup. rewrite cleanupSessions_lookup. reflexivity.
Defined.

Lemma fresh_process (uuid : string) (now t0 : Z) (chains : Chains) (msg : string)
    (sid : option string) :
  formData (fst (processUserMessage now chains msg (newSession uuid t0 sid))) = ∅ /\
  currentField (fst (processUserMessage now chains msg (newSession uuid t0 sid))) = 0%Z.
Proof.
  pose proof (process_coherent now chains msg _ (newSession_coherent uuid t0 sid)) as Hc.
  pose proof (process_step now chains msg (newSession uuid t0 sid)) as Hstep.
  assert (Hz : currentField (fst (processUserMessage now chains msg
                                    (newSession uuid t0 sid))) = 0%Z).
  { destruct Hstep as [H _ _ _ | form _ _ H _ | form f Hs _ _ _ _ _];
      [exact H | exact H | discriminate Hs]. }
  split; [|exact Hz].
  unfold coherent in Hc.
  destruct (verifiedFormStructure _) as [[form|key]|]; [|tauto|tauto].
  destruct Hc as (_ & Ha & _). apply map_empty. intros k.
  apply eq_None_not_Some. rewrite (Ha k), Hz. intros (i & _ & Hi & _). lia.
Qed.

(** X11.  An identifier whose session was swept starts over: a [/chat]
    request carrying it is served from a brand-new session under the same
    identifier, with the cursor at 0 and no answer on record, whatever the
    swept session held. *)
Theorem swept_session_starts_over (uuid : string) (now later maxAge : Z)
    (chains : Chains) (msg : string) (k : string) (old : LangChainSession)
    (sessions : gmap string LangChainSession) :
  k <> "" -> sessions !! k = Some old ->
  (now - lastActivity old > maxAge)%Z ->
  fst (fst (chat uuid later chains msg (Some k)
              (cleanupSessions now (Some maxAge) sessions)))
    = fst (processUserMessage later chains msg (newSession uuid later (Some k))) /\
  id (fst (fst (chat uuid later chains msg (Some k)
                  (cleanupSessions now (Some maxAge) sessions)))) = k /\
  formData (fst (fst (chat uuid later chains msg (Some k)
                        (cleanupSessions now (Some maxAge) sessions)))) = ∅ /\
  currentField (fst (fst (chat uuid later chains msg (Some k)
                            (cleanupSessions now (Some maxAge) sessions)))) = 0%Z.
Proof.
  intros Hk Hl Hexp.
  assert (Hgone : cleanupSessions now (Some maxAge) sessions !! k = None).
  { rewrite cleanupSessions_lookup, Hl.
    now rewrite (proj2 (Z.gtb_gt _ _) Hexp). }
  destruct (chat_session uuid later chains msg (Some k)
              (cleanupSessions now (Some maxAge) sessions)) as [Hs _].
  rewrite Hs, langchain_getSession_unknown by (right; exact Hgone).
  cbn [fst]. split; [reflexivity|].
  destruct (process_meta later chains msg (newSession uuid later (Some k))) as [_ Hid].
  destruct (fresh_process uuid later later chains msg (Some k)) as [Hfd Hc].
  rewrite Hid, (newSession_id uuid later k Hk). now repeat split.
Qed.

Lemma swept_session_scenario :
  cleanupSessions 100000000 (Some defaultMaxAge) (<[id completed := completed]> ∅)
    !! "generated" = None /\
  (fun s => (id s, state s, currentField s))
    (fst (fst (chat "other" 100000001 offline "hello again" (Some "generated")
                 (cleanupSessions 100000000 (Some defaultMaxAge)
                    (<[id completed := completed]> ∅)))))
    = ("generated", INIT, 0%Z).
Proof.
  assert (Hk : "generated" <> "") by discriminate.
  assert (Hl : (<[id completed := completed]> ∅ : gmap string LangChainSession)
                 !! "generated" = Some completed) by apply lookup_insert_eq.
  assert (Hexp : (100000000 - lastActivity completed > defaultMaxAge)%Z)
    by (vm_compute; reflexivity).
  destruct (swept_session_starts_over "other" 100000000 100000001 defaultMaxAge
              offline "hello again" "generated" completed _ Hk Hl Hexp)
    as (H1 & H2 & _ & H4).
  split.
  - rewrite cleanupSessions_lookup, Hl.
    now rewrite (proj2 (Z.gtb_gt _ _) Hexp).
  - rewrite H2, H4, H1. reflexivity.
Defined.

(** X12.  The sweep only removes: what it keeps it keeps unchanged; sweeping
    twice at the same time and limit removes nothing more; a later time or a
    smaller limit keeps no more; and two sweeps in a row with the same limit
    leave what the later one alone would leave.  Without an argument the
    limit is 24 hours. *)
Theorem sweep_algebra (now later maxAge smaller : Z)
    (sessions : gmap string LangChainSession) :
  cleanupSessions now (Some maxAge) sessions ⊆ sessions /\
  cleanupSessions now (Some maxAge) (cleanupSessions now (Some maxAge) sessions)
    = cleanupSessions now (Some maxAge) sessions /\
  ((now <= later)%Z ->
   cleanupSessions later (Some maxAge) sessions
     ⊆ cleanupSessions now (Some maxAge) sessions) /\
  ((smaller <= maxAge)%Z ->
   cleanupSessions now (Some smaller) sessions
     ⊆ cleanupSessions now (Some maxAge) sessions) /\
  ((now <= later)%Z ->
   cleanupSessions later (Some maxAge) (cleanupSessions now (Some maxAge) sessions)
     = cleanupSessions later (Some maxAge) sessions) /\
  cleanupSessions now None sessions
    = cleanupSessions now (Some (24 * 60 * 60 * 1000)%Z) sessions.
Proof.
  split; [|split; [|split; [|split; [|split; [|reflexivity]]]]].
  - apply map_subseteq_spec. intros k s. rewrite cleanupSessions_lookup.
    destruct (sessions !! k) as [x|]; [|discriminate].
    destruct (_ >? _)%Z; [discriminate | easy].
  - apply map_eq. intros k. rewrite !cleanupSessions_lookup.
    destruct (sessions !! k) as [x|]; [|reflexivity].
    destruct (now - lastActivity x >? maxAge)%Z eqn:E; [reflexivity | now rewrite E].
  - intros Hle. apply map_subseteq_spec. intros k s. rewrite !cleanupSessions_lookup.
    destruct (sessions !! k) as [x|]; [|discriminate].
    destruct (later - lastActivity x >? maxAge)%Z eqn:E; [discriminate|].
    intros [= <-]. rewrite Z.gtb_ltb in *. apply Z.ltb_ge in E.
    now rewrite (proj2 (Z.ltb_ge _ _)) by lia.
  - intros Hle. apply map_subseteq_spec. intros k s. rewrite !cleanupSessions_lookup.
    destruct (sessions !! k) as [x|]; [|discriminate].
    destruct (now - lastActivity x >? smaller)%Z eqn:E; [discriminate|].
    intros [= <-]. rewrite Z.gtb_ltb in *. apply Z.ltb_ge in E.
    now rewrite (proj2 (Z.ltb_ge _ _)) by lia.
  - intros Hle. apply map_eq. intros k. rewrite !cleanupSessions_lookup.
    destruct (sessions !! k) as [x|]; [|reflexivity].
    destruct (now - lastActivity x >? maxAge)%Z eqn:E; [|reflexivity].
    rewrite Z.gtb_ltb in *. apply Z.ltb_lt in E.
    now rewrite (proj2 (Z.ltb_lt _ _)) by lia.
Qed.

End StoreDynamics.

(** ** The legacy engine on its deterministic paths *)

Section LegacyPaths.

Import Legacy.

Lemma detect_Forall (P : string * string -> Prop) (input : string)
    (table : list (string * (string * string))) (info : string * string) :
  Forall (fun entry => P (snd entry)) table ->
  detect input table = Some info -> P info.
Proof.
  induction 1 as [|[k x] table Hx _ IH]; simpl; [discriminate|].
  destruct (JS.includes input k); [now intros [= <-] | exact IH].
Qed.

Lemma detect_truthy (input ft fn : string) :
  detect input governmentFormKeywords = Some (ft, fn) -> JS.truthy ft = true.
Proof.
  apply (detect_Forall (fun info => JS.truthy (fst info) = true)).
  unfold governmentFormKeywords. repeat constructor.
Qed.


Lemma not_inherited (key : string) :
  existsb (String.eqb key) objectPrototype = false <-> ~ In key objectPrototype.
Proof.
  split.
  - intros E Hin. apply not_true_iff_false in E. apply E.
    apply existsb_exists. exists key. split; [exact Hin | apply String.eqb_refl].
  - intros Hn. apply not_true_iff_false. intros E.
    apply existsb_exists in E as (k & Hin & Hk). apply String.eqb_eq in Hk.
    now subst k.
Qed.

(** The forms of the keyword table are no property names of
    [Object.prototype]. *)
Lemma detect_plain (input ft fn : string) :
  detect input governmentFormKeywords = Some (ft, fn) -> ~ In ft objectPrototype.
Proof.
  intros H. apply not_inherited. revert H.
  apply (detect_Forall
           (fun info => existsb (String.eqb (fst info)) objectPrototype = false)).
  unfold governmentFormKeywords. repeat constructor.
Qed.

Lemma getProperty_plain {A} (key : string) (table : list (string * A)) :
  ~ In key objectPrototype ->
  getProperty key table
    = match assoc key table with Some v => own v | None => undefined end.
Proof.
  intros H. apply not_inherited in H. unfold getProperty. now rewrite H.
Qed.

Lemma details_consistent (formType formName : string) :
  ~ In formType objectPrototype ->
  consistent (generateUniversalFormDetails formType formName).
Proof.
  intros H. unfold generateUniversalFormDetails.
  rewrite (getProperty_plain _ _ H).
  destruct (assoc formType formTemplates) as [d|] eqn:E.
  - revert E. apply (assoc_Forall consistent).
    unfold formTemplates.
    repeat constructor; cbn [snd]; eexists; (split; [reflexivity|]);
      (split; [discriminate | reflexivity]).
  - eexists. split; [reflexivity|]. split; [discriminate | reflexivity].
Qed.

Lemma consistent_total (d : FormDetails) :
  consistent d ->
  exists fields,
    fields_required d = Some fields /\
    totalFieldsOf d = Some (Z.of_nat (length fields)) /\
    (0 < Z.of_nat (length fields))%Z.
Proof.
  intros (fields & Hf & Hne & Ht). exists fields. split; [exact Hf|].
  assert (0 < Z.of_nat (length fields))%Z
    by (destruct fields; [congruence | simpl; lia]).
  split; [|assumption].
  unfold totalFieldsOf. rewrite Ht, Hf.
  destruct (Z.of_nat (length fields) =? 0)%Z eqn:E; [|reflexivity].
  apply Z.eqb_eq in E. lia.
Qed.

(** Under a form that is no property name of [Object.prototype], a named
    field always gets its question and the built-in objects are not
    consulted. *)
Lemma generateUniversalQuestion_Some (builtins : Builtins) (f form : string) :
  ~ In form objectPrototype ->
  exists q, generateUniversalQuestion builtins (Some f) form = Some q.
Proof.
  intros H. unfold generateUniversalQuestion. rewrite (getProperty_plain _ _ H).
  cbn [propertyName].
  destruct (assoc form contextQuestions) as [table|].
  - destruct (questionOf f table); [eauto|].
    destruct (questionOf f universalQuestions); eauto.
  - destruct (questionOf f universalQuestions); eauto.
Qed.

(** No table of questions answers [undefined]. *)
Lemma questionOf_undefined :
  questionOf "undefined" universalQuestions = None /\
  forall form table,
    getProperty form contextQuestions = own table ->
    questionOf "undefined" table = None.
Proof.
  split; [reflexivity|]. intros form table. unfold getProperty.
  destruct (assoc form contextQuestions) as [t|] eqn:E;
    [|destruct (existsb _ _); discriminate].
  intros [= <-]. revert E.
  apply (assoc_Forall (fun t => questionOf "undefined" t = None)).
  unfold contextQuestions. repeat constructor.
Qed.

(** When [generateUniversalQuestion] throws. *)
Lemma generateUniversalQuestion_None (builtins : Builtins)
    (fieldName : option string) (form : string) :
  generateUniversalQuestion builtins fieldName form = None
  <-> question_throws builtins fieldName form.
Proof.
  destruct questionOf_undefined as [Hu Hc].
  unfold generateUniversalQuestion, question_throws.
  destruct (getProperty form contextQuestions) as [table|holder|] eqn:E.
  - destruct fieldName as [f|]; cbn [propertyName].
    + destruct (questionOf f table); [split; discriminate|].
      destruct (questionOf f universalQuestions); split; discriminate.
    + rewrite (Hc form table E), Hu. split; reflexivity.
  - destruct (builtins holder (propertyName fieldName)).
    + destruct fieldName as [f|]; cbn [propertyName].
      * destruct (questionOf f universalQuestions); split; discriminate.
      * rewrite Hu. split; reflexivity.
    + split; [discriminate | intros []].
    + split; reflexivity.
  - destruct fieldName as [f|]; cbn [propertyName].
    + destruct (questionOf f universalQuestions); split; discriminate.
    + rewrite Hu. split; reflexivity.
Qed.

Lemma legacy_ok_ext (s s' : Session) :
  state s' = state s -> currentForm s' = currentForm s ->
  currentField s' = currentField s ->
  dynamicFormDetails s' = dynamicFormDetails s ->
  legacy_ok s -> legacy_ok s'.
Proof. unfold legacy_ok. intros -> -> -> -> H. exact H. Qed.

Lemma legacy_ok_logged (now : Z) (msg text : string) (s : Session) :
  legacy_ok s ->
  legacy_ok (withConversation
               (conversation s ++ [mkTurn user msg now; mkTurn bot text now]) s).
Proof. now apply legacy_ok_ext. Qed.

Lemma fallback_step (builtins : Builtins) (now : Z) (msg : string) (s : Session) :
  legacy_ok s ->
  legacy_ok (fst (processConversation builtins now (universalFallback msg s) s msg)) /\
  snd (processConversation builtins now (universalFallback msg s) s msg) <> None.
Proof.
  intros Hok. unfold universalFallback, processConversation.
  destruct (existsb _ govKeywords); cbn;
    (split; [now apply legacy_ok_logged | discriminate]).
Qed.

(** The [field_collection] case on a session with a form and form details:
    the name of the field is read (which throws when neither the reply nor
    the details name any), the answer goes under it and the cursor moves
    on; then the total is read (which throws without [total_fields] and
    [fields_required]), and the form is complete or the next question is
    asked (which throws without [fields_required], and when
    [generateUniversalQuestion] does). *)
Lemma field_collection_case (builtins : Builtins) (now : Z) (r : AiResponse)
    (s : Session) (msg form : string) (d : FormDetails) :
  intent r = field_collection ->
  currentForm s = Some form -> JS.truthy form = true ->
  dynamicFormDetails s = Some d ->
  processConversation builtins now r s msg
  = let logged :=
      withConversation
        (conversation s ++ [mkTurn user msg now; mkTurn bot (message r) now]) s in
    match fieldNameOf r d (currentField s) with
    | None => (logged, None)
    | Some fieldName =>
        let s1 := withField (currentField s + 1) (withAnswer fieldName msg logged) in
        match totalFieldsOf d with
        | None => (s1, None)
        | Some total =>
            if (currentField s + 1 >=? total)%Z then
              (withActivity now (withState COMPLETE s1),
               Some [universal_form_complete (formData s1) form d])
            else
              match fields_required d with
              | None => (s1, None)
              | Some fields =>
                  match
                    match asked (current_question r) with
                    | Some q => Some q
                    | None =>
                        generateUniversalQuestion builtins
                          (JS.index fields (currentField s + 1)) form
                    end
                  with
                  | Some nextQuestion =>
                      (withActivity now s1,
                       Some [ask_universal_question nextQuestion
                               (JS.index fields (currentField s + 1))
                               (currentField s + 1 + 1) total])
                  | None => (s1, None)
                  end
              end
        end
    end.
Proof.
  intros Hi Hf Ht Hd. unfold processConversation.
  rewrite Hi. cbn [currentForm dynamicFormDetails withConversation currentField].
  now rewrite Hf, Hd, Ht.
Qed.

Lemma collecting_step (builtins : Builtins) (now : Z) (msg : string) (s : Session) :
  legacy_ok s -> state s = COLLECTING ->
  legacy_ok (fst (processConversation builtins now
                    (mkResponse field_collection (currentForm s) None None None
                       "Thank you for providing that information.") s msg)) /\
  snd (processConversation builtins now
         (mkResponse field_collection (currentForm s) None None None
            "Thank you for providing that information.") s msg) <> None.
Proof.
  intros Hok Hs. unfold legacy_ok in Hok. rewrite Hs in Hok.
  destruct Hok as (form & d & total & Hf & Ht & Hplain & Hd & Hc & Htot & Hr).
  destruct (consistent_total d Hc) as (fields & Hfields & Hlen & Hpos).
  rewrite Htot in Hlen. injection Hlen as Hlen.
  rewrite (field_collection_case builtins now
             (mkResponse field_collection (currentForm s) None None None
                "Thank you for providing that information.")
             s msg form d eq_refl Hf Ht Hd).
  cbv zeta. unfold fieldNameOf. cbn [field_being_asked current_question orElse asked].
  rewrite Hfields, Htot.
  destruct (currentField s + 1 >=? total)%Z eqn:E.
  - cbn [fst snd]. split; [|discriminate].
    unfold legacy_ok. cbn. exists d. split; [exact Hd|]. split; [exact Hc|].
    rewrite Htot. f_equal. apply Z.geb_le in E. lia.
  - rewrite Z.geb_leb in E. apply Z.leb_gt in E.
    destruct (index_in_range fields (currentField s + 1)) as [f Hi]; [lia|].
    rewrite Hi.
    destruct (generateUniversalQuestion_Some builtins f form Hplain) as [q Hq].
    rewrite Hq. cbn [fst snd]. split; [|discriminate].
    unfold legacy_ok. cbn. rewrite Hs. exists form, d, total.
    split; [exact Hf|]. split; [exact Ht|]. split; [exact Hplain|].
    split; [exact Hd|]. split; [exact Hc|]. split; [exact Htot | lia].
Qed.

Lemma discovery_step (builtins : Builtins) (now : Z) (text msg : string)
    (s : Session) :
  legacy_ok s -> state s <> COLLECTING ->
  legacy_ok (fst (processConversation builtins now
                    (analyzeUniversalTextResponse text msg s) s msg)) /\
  snd (processConversation builtins now
         (analyzeUniversalTextResponse text msg s) s msg)
    <> None.
Proof.
  intros Hok Hs.
  assert (Hrep : analyzeUniversalTextResponse text msg s
    = match detect (JS.toLowerCase msg) governmentFormKeywords with
      | Some (ftype, fname) =>
          mkResponse form_discovery (Some ftype)
            (Some (generateUniversalFormDetails ftype fname))
            (Some (generateFirstQuestion ftype)) None
            ("I can help you with " ++ fname ++
             ". Let me gather the required information.")
      | None =>
          mkResponse clarification_needed None None None None
            "I can help you with any Indian government form or document. This includes FSSAI food license, GST registration, company registration, trademark, PAN card, passport, driving license, and many more. What specific form do you need help with?"
      end).
  { unfold analyzeUniversalTextResponse. now destruct (state s). }
  rewrite Hrep.
  destruct (detect (JS.toLowerCase msg) governmentFormKeywords) as [[ft fn]|] eqn:Hd.
  - pose proof (detect_plain _ _ _ Hd) as Hplain.
    apply detect_truthy in Hd.
    erewrite (processConversation_binds builtins now _ s msg ft
                (generateUniversalFormDetails ft fn));
      [|reflexivity | reflexivity | exact Hd | reflexivity].
    cbn [fst snd]. split; [|discriminate].
    pose proof (details_consistent ft fn Hplain) as Hc.
    destruct (consistent_total _ Hc) as (fields & _ & Htot & Hpos).
    unfold legacy_ok. cbn.
    exists ft, (generateUniversalFormDetails ft fn), (Z.of_nat (length fields)).
    split; [reflexivity|]. split; [exact Hd|]. split; [exact Hplain|].
    split; [reflexivity|]. split; [exact Hc|]. split; [exact Htot | lia].
  - unfold processConversation. cbn [intent fst snd message].
    split; [now apply legacy_ok_logged | discriminate].
Qed.

Lemma unparsed_step (builtins : Builtins) (now : Z) (advisory : Advisory)
    (msg : string) (s : Session) :
  unparsed advisory -> legacy_ok s ->
  legacy_ok (fst (processConversation builtins now
                    (callClaudeAI advisory msg s) s msg)) /\
  snd (processConversation builtins now (callClaudeAI advisory msg s) s msg) <> None.
Proof.
  intros Hu Hok. destruct advisory as [|reply|text]; cbn [callClaudeAI].
  - now apply fallback_step.
  - destruct Hu.
  - destruct (state s) eqn:Hs.
    + apply discovery_step; [exact Hok | congruence].
    + apply discovery_step; [exact Hok | congruence].
    + assert (analyzeUniversalTextResponse text msg s
              = mkResponse field_collection (currentForm s) None None None
                  "Thank you for providing that information.") as ->
        by (unfold analyzeUniversalTextResponse; now rewrite Hs).
      now apply collecting_step.
    + apply discovery_step; [exact Hok | congruence].
Qed.

Lemma legacy_ok_bounds (s : Session) :
  legacy_ok s -> (0 <= currentField s <= legacyTotal s)%Z.
Proof.
  unfold legacy_ok, legacyTotal. destruct (state s).
  - intros [-> ->]. lia.
  - tauto.
  - intros (form & d & total & _ & _ & _ & -> & _ & -> & H). cbn. lia.
  - intros (d & -> & Hc & Ht).
    destruct (consistent_total d Hc) as (fields & _ & Htot & _).
    rewrite Ht. cbn. rewrite Ht in Htot. injection Htot as Htot. lia.
Qed.

Lemma legacy_getSession_ok (uuid : string) (now : Z) (sessionId : option string)
    (sessions : gmap string Session) :
  (forall k s, sessions !! k = Some s -> legacy_ok s) ->
  legacy_ok (fst (getSession uuid now sessionId sessions)) /\
  (forall k s, snd (getSession uuid now sessionId sessions) !! k = Some s ->
               legacy_ok s).
Proof.
  intros Hall.
  assert (Hnew : forall sid,
    legacy_ok (fst (createSession uuid now sid sessions)) /\
    (forall k s, snd (createSession uuid now sid sessions) !! k = Some s ->
                 legacy_ok s)).
  { intros sid. unfold createSession. cbn [fst snd].
    assert (legacy_ok (mkSession
              match orElse sid (Some uuid) with Some i => i | None => uuid end
              now now INIT [] None ∅ 0 [] None)) by (unfold legacy_ok; cbn; tauto).
    split; [assumption|]. intros k s. rewrite lookup_insert.
    destruct (decide _); [now intros [= <-] | apply Hall]. }
  unfold getSession. destruct sessionId as [sid|]; [|apply Hnew].
  destruct (falsy (Some sid)); [apply Hnew|].
  destruct (sessions !! sid) as [old|] eqn:Hl; [|apply Hnew].
  assert (legacy_ok (withActivity now old))
    by (apply (legacy_ok_ext old); try reflexivity; now apply (Hall sid)).
  cbn [fst snd]. split; [assumption|]. intros k s. rewrite lookup_insert.
  destruct (decide _); [now intros [= <-] | apply Hall].
Qed.

Lemma unparsed_chat (builtins : Builtins) (uuid : string) (now : Z)
    (advisory : Advisory) (msg : string) (sessionId : option string)
    (sessions : gmap string Session) :
  unparsed advisory ->
  (forall k s, sessions !! k = Some s -> legacy_ok s) ->
  (forall k s,
     snd (chat builtins uuid now advisory msg sessionId sessions) !! k = Some s ->
     legacy_ok s) /\
  (forall reply,
     fst (chat builtins uuid now advisory msg sessionId sessions) = Some reply ->
     snd reply <> None).
Proof.
  intros Hu Hall. unfold chat.
  destruct (negb (JS.truthy msg)); [split; [exact Hall | discriminate]|].
  destruct (legacy_getSession_ok uuid now sessionId sessions Hall) as [Hs Hst].
  destruct (getSession uuid now sessionId sessions) as [session sessions1].
  cbn [fst snd] in Hs, Hst.
  destruct (unparsed_step builtins now advisory msg session Hu Hs) as [Hok Hno].
  destruct (processConversation builtins now (callClaudeAI advisory msg session)
              session msg) as [s actions].
  cbn [fst snd] in *. split.
  - intros k x. rewrite lookup_insert.
    destruct (decide _); [now intros [= <-] | apply Hst].
  - now intros reply [= <-].
Qed.

Lemma unparsed_replay (builtins : Builtins) (sessionId : string)
    (events : list LegacyEvent) (sessions : gmap string Session) :
  Forall (fun e : LegacyEvent => unparsed (snd (fst e))) events ->
  (forall k s, sessions !! k = Some s -> legacy_ok s) ->
  forall k s, replay builtins sessionId events sessions !! k = Some s -> legacy_ok s.
Proof.
  intros Hev. revert sessions.
  induction Hev as [|[[now advisory] msg] events Hu _ IH]; intros sessions Hall;
    [exact Hall|].
  apply IH.
  apply (unparsed_chat builtins "generated" now advisory msg (Some sessionId)
           sessions Hu Hall).
Qed.

(** X13.  As long as the model's replies are not used as JSON (every
    invocation failed, or the text did not parse), the legacy engine keeps
    every session within bounds, whatever the users type and under whatever
    identifiers: the cursor lies between 0 and the total number of fields, a
    [COLLECTING] session has a field left, a [COMPLETE] one has its cursor on
    the total, and no request fails inside [processConversation]. *)
Theorem legacy_bounded_without_parsed_replies (builtins : Builtins)
    (uuid : string) (now : Z) (advisory : Advisory) (msg : string)
    (sessionId : option string) (sessions : gmap string Session) :
  unparsed advisory ->
  (forall k s, sessions !! k = Some s -> legacy_ok s) ->
  (forall k s,
     snd (chat builtins uuid now advisory msg sessionId sessions) !! k = Some s ->
     legacy_ok s /\ (0 <= currentField s <= legacyTotal s)%Z) /\
  (forall reply,
     fst (chat builtins uuid now advisory msg sessionId sessions) = Some reply ->
     snd reply <> None).
Proof.
  intros Hu Hall.
  destruct (unparsed_chat builtins uuid now advisory msg sessionId sessions Hu Hall)
    as [H1 H2].
  split; [|exact H2].
  intros k s Hl. split; [now apply (H1 k) | now apply legacy_ok_bounds, (H1 k)].
Qed.

(** After the legacy dialogue, one more request without a parsed reply
    leaves session "s1" within bounds. *)
Lemma legacy_bounded_scenario :
  exists s,
    snd (chat silent "generated" 8000 (Unparsable "Sure.") "and a passport please"
           (Some "s1") legacy_completed) !! "s1" = Some s /\
    (0 <= currentField s <= legacyTotal s)%Z.
Proof.
  assert (Hall : forall k s, legacy_completed !! k = Some s -> legacy_ok s).
  { apply unparsed_replay.
    - unfold legacy_dialogue. repeat constructor.
    - intros k s. rewrite lookup_empty. discriminate. }
  destruct (legacy_bounded_without_parsed_replies silent "generated" 8000
              (Unparsable "Sure.") "and a passport please" (Some "s1")
              legacy_completed I Hall) as [H _].
  destruct (snd (chat silent "generated" 8000 (Unparsable "Sure.")
                   "and a passport please" (Some "s1") legacy_completed) !! "s1")
    as [s|] eqn:Hl.
  - exists s. split; [reflexivity | now apply (H "s1" s)].
  - vm_compute in Hl. discriminate Hl.
Defined.

Lemma processConversation_frame (builtins : Builtins) (now : Z) (r : AiResponse)
    (s : Session) (msg : string) :
  conversation (fst (processConversation builtins now r s msg))
    = (conversation s ++ [mkTurn user msg now; mkTurn bot (message r) now])%list /\
  id (fst (processConversation builtins now r s msg)) = id s /\
  createdAt (fst (processConversation builtins now r s msg)) = createdAt s /\
  generatedFiles (fst (processConversation builtins now r s msg)) = generatedFiles s.
Proof.
  unfold processConversation.
  destruct (intent r); try (cbn; auto; fail).
  - destruct (form_type r) as [ft|]; [|cbn; auto].
    destruct (form_details r) as [d|]; [|cbn; auto].
    destruct (JS.truthy ft); cbn; auto.
  - cbn [currentForm dynamicFormDetails withConversation].
    destruct (currentForm s) as [form|]; [|cbn; auto].
    destruct (dynamicFormDetails s) as [d|]; [|cbn; auto].
    destruct (JS.truthy form); [|cbn; auto].
    repeat match goal with
           | |- context [match ?q with Some _ => _ | None => _ end] => destruct q
           | |- context [if ?b then _ else _] => destruct b
           end; cbn; auto.
Qed.

(** X14.  Every call of [processConversation] appends exactly two turns to
    the conversation, the user's message and then the reply's message, both
    stamped with the time of the call, whatever the intent and even when the
    call ends by throwing; earlier turns, the identifier, the creation time
    and the file list are left as they were. *)
Theorem conversation_two_turns (builtins : Builtins) (now : Z) (r : AiResponse)
    (s : Session) (msg : string) :
  conversation (fst (processConversation builtins now r s msg))
    = (conversation s ++ [mkTurn user msg now; mkTurn bot (message r) now])%list /\
  id (fst (processConversation builtins now r s msg)) = id s /\
  createdAt (fst (processConversation builtins now r s msg)) = createdAt s /\
  generatedFiles (fst (processConversation builtins now r s msg)) = generatedFiles s.
Proof. apply processConversation_frame. Qed.

Lemma processConversation_unbound_reply (builtins : Builtins) (now : Z)
    (r : AiResponse) (s : Session) (msg : string) :
  (intent r <> field_collection \/ currentForm s = None \/
   dynamicFormDetails s = None \/
   exists form, currentForm s = Some form /\ JS.truthy form = false) ->
  snd (processConversation builtins now r s msg) <> None.
Proof.
  unfold processConversation. intros H.
  destruct (intent r) eqn:Hi; try discriminate.
  - destruct (form_type r) as [ft|]; [|discriminate].
    destruct (form_details r) as [d|]; [|discriminate].
    destruct (JS.truthy ft); discriminate.
  - cbn [currentForm dynamicFormDetails withConversation].
    destruct (currentForm s) as [form|] eqn:Hf; [|discriminate].
    destruct (dynamicFormDetails s) as [d|] eqn:Hd; [|discriminate].
    destruct (JS.truthy form) eqn:Ht; [|discriminate].
    destruct H as [H | [H | [H | (form' & H & Ht')]]]; congruence.
Qed.

(** When the name of the field to store cannot be read. *)
Lemma fieldNameOf_None (r : AiResponse) (d : FormDetails) (cursor : Z) :
  fieldNameOf r d cursor = None
  <-> orElse (field_being_asked r) None = None /\ fields_required d = None.
Proof.
  unfold fieldNameOf.
  destruct (orElse (field_being_asked r) None).
  - split; [discriminate | intros [H _]; discriminate].
  - destruct (fields_required d); split; try discriminate; try tauto.
    intros [_ H]; discriminate.
Qed.

(** X15.  [processConversation] throws only on a [field_collection] reply
    for a session with a form and form details, at one of four places.
    Before anything is stored: when the reply names no field and the
    details have no [fields_required].  After the answer is stored and the
    cursor advanced: when the details have neither [total_fields] nor
    [fields_required]; when fields remain according to the total and the
    details have no [fields_required]; and when fields remain, the reply
    brings no question of its own and asking for the next field throws,
    which outside the property names of [Object.prototype] means that
    [fields_required] has no name left (a reply had announced more
    [total_fields] than it listed).  In every case the last-activity stamp
    and the state are left as they were, and the answer, when stored, sits
    under the name read, except under [__proto__], where nothing is
    stored. *)
Theorem processConversation_throws (builtins : Builtins) (now : Z)
    (r : AiResponse) (s : Session) (msg : string) :
  (snd (processConversation builtins now r s msg) = None <->
   intent r = field_collection /\
   exists form d,
     currentForm s = Some form /\ JS.truthy form = true /\
     dynamicFormDetails s = Some d /\
     ((orElse (field_being_asked r) None = None /\ fields_required d = None) \/
      (exists f, fieldNameOf r d (currentField s) = Some f) /\
      (totalFieldsOf d = None \/
       exists total,
         totalFieldsOf d = Some total /\ (currentField s + 1 < total)%Z /\
         (fields_required d = None \/
          exists fields,
            fields_required d = Some fields /\
            asked (current_question r) = None /\
            question_throws builtins (JS.index fields (currentField s + 1)) form)))) /\
  (snd (processConversation builtins now r s msg) = None ->
   lastActivity (fst (processConversation builtins now r s msg)) = lastActivity s /\
   state (fst (processConversation builtins now r s msg)) = state s /\
   forall d, dynamicFormDetails s = Some d ->
     match fieldNameOf r d (currentField s) with
     | None =>
         currentField (fst (processConversation builtins now r s msg))
           = currentField s /\
         formData (fst (processConversation builtins now r s msg)) = formData s
     | Some f =>
         currentField (fst (processConversation builtins now r s msg))
           = (currentField s + 1)%Z /\
         formData (fst (processConversation builtins now r s msg))
           = (if String.eqb f "__proto__" then formData s
              else <[f := msg]> (formData s))
     end).
Proof.
  assert (Hcases :
    (intent r = field_collection /\
     exists form d, currentForm s = Some form /\ JS.truthy form = true /\
                    dynamicFormDetails s = Some d) \/
    (intent r <> field_collection \/ currentForm s = None \/
     dynamicFormDetails s = None \/
     exists form, currentForm s = Some form /\ JS.truthy form = false)).
  { destruct (intent r); try (right; left; discriminate).
    destruct (currentForm s) as [form|]; [|tauto].
    destruct (dynamicFormDetails s) as [d|]; [|tauto].
    destruct (JS.truthy form) eqn:Ht; [left; eauto 8 | right; eauto 8]. }
  destruct Hcases as [(Hi & form & d & Hf & Ht & Hd) | Hun].
  2:{ pose proof (processConversation_unbound_reply builtins now r s msg Hun) as Hno.
      split; [|intros H; congruence]. split; [intros H; congruence|].
      intros (Hi & form & d & Hf & Ht & Hd & _).
      destruct Hun as [H | [H | [H | (form' & H & Ht')]]]; congruence. }
  assert (Hshape : forall (P : Prop),
    (P <->
     ((orElse (field_being_asked r) None = None /\ fields_required d = None) \/
      (exists f, fieldNameOf r d (currentField s) = Some f) /\
      (totalFieldsOf d = None \/
       exists total,
         totalFieldsOf d = Some total /\ (currentField s + 1 < total)%Z /\
         (fields_required d = None \/
          exists fields,
            fields_required d = Some fields /\
            asked (current_question r) = None /\
            question_throws builtins (JS.index fields (currentField s + 1)) form)))) ->
    (P <->
     intent r = field_collection /\
     exists form0 d0,
       currentForm s = Some form0 /\ JS.truthy form0 = true /\
       dynamicFormDetails s = Some d0 /\
       ((orElse (field_being_asked r) None = None /\ fields_required d0 = None) \/
        (exists f, fieldNameOf r d0 (currentField s) = Some f) /\
        (totalFieldsOf d0 = None \/
         exists total,
           totalFieldsOf d0 = Some total /\ (currentField s + 1 < total)%Z /\
           (fields_required d0 = None \/
            exists fields,
              fields_required d0 = Some fields /\
              asked (current_question r) = None /\
              question_throws builtins (JS.index fields (currentField s + 1))
                form0))))).
  { intros P HP. rewrite HP. split.
    - intros H. split; [exact Hi|]. exists form, d. now repeat split.
    - intros (_ & form0 & d0 & Hf0 & _ & Hd0 & H).
      rewrite Hf in Hf0. injection Hf0 as <-.
      rewrite Hd in Hd0. injection Hd0 as <-. exact H. }
  rewrite (field_collection_case builtins now r s msg form d Hi Hf Ht Hd). cbv zeta.
  destruct (fieldNameOf r d (currentField s)) as [f|] eqn:Hn.
  2:{ cbn [fst snd]. split.
      - apply Hshape. split; [|reflexivity]. intros _. left.
        now apply fieldNameOf_None in Hn.
      - intros _. split; [reflexivity|]. split; [reflexivity|].
        intros d0 Hd0. rewrite Hd in Hd0. injection Hd0 as <-. rewrite Hn.
        now split. }
  assert (Hnot : ~ (orElse (field_being_asked r) None = None /\
                    fields_required d = None)).
  { intros H. apply (fieldNameOf_None r d (currentField s)) in H.
    rewrite H in Hn. discriminate. }
  assert (Hstored : forall d0, dynamicFormDetails s = Some d0 ->
    match fieldNameOf r d0 (currentField s) with
    | None => False
    | Some f0 => f0 = f
    end).
  { intros d0 Hd0. rewrite Hd in Hd0. injection Hd0 as <-. now rewrite Hn. }
  assert (Hmut : forall (x : Session),
    lastActivity x = lastActivity s -> state x = state s ->
    currentField x = (currentField s + 1)%Z ->
    formData x = (if String.eqb f "__proto__" then formData s
                  else <[f := msg]> (formData s)) ->
    lastActivity x = lastActivity s /\ state x = state s /\
    forall d0, dynamicFormDetails s = Some d0 ->
      match fieldNameOf r d0 (currentField s) with
      | None => currentField x = currentField s /\ formData x = formData s
      | Some f0 =>
          currentField x = (currentField s + 1)%Z /\
          formData x = (if String.eqb f0 "__proto__" then formData s
                        else <[f0 := msg]> (formData s))
      end).
  { intros x H1 H2 H3 H4. split; [exact H1|]. split; [exact H2|].
    intros d0 Hd0. specialize (Hstored d0 Hd0).
    destruct (fieldNameOf r d0 (currentField s)) as [f0|]; [|destruct Hstored].
    subst f0. now split. }
  destruct (totalFieldsOf d) as [total|] eqn:Htot.
  2:{ cbn [fst snd]. split.
      - apply Hshape. split; [|reflexivity]. intros _. right.
        split; [now exists f | now left].
      - intros _. now apply Hmut. }
  destruct (currentField s + 1 >=? total)%Z eqn:E.
  { cbn [fst snd]. split; [|discriminate]. apply Hshape.
    split; [discriminate|]. apply Z.geb_le in E.
    intros [H | [_ [H | (total' & [= <-] & Hlt & _)]]];
      [now apply Hnot in H | discriminate | lia]. }
  rewrite Z.geb_leb in E. apply Z.leb_gt in E.
  destruct (fields_required d) as [fields|] eqn:Hfields.
  2:{ cbn [fst snd]. split.
      - apply Hshape. split; [|reflexivity]. intros _. right.
        split; [now exists f|]. right. exists total. now repeat split; try left.
      - intros _. now apply Hmut. }
  destruct (asked (current_question r)) as [q|] eqn:Hq.
  { cbn [fst snd]. split; [|discriminate]. apply Hshape.
    split; [discriminate|].
    intros [H | [_ [H | (total' & _ & _ & [H | (fields' & _ & H & _)])]]];
      [now apply Hnot in H | discriminate | discriminate | discriminate]. }
  destruct (generateUniversalQuestion builtins (JS.index fields (currentField s + 1))
              form) as [q|] eqn:Hg.
  - cbn [fst snd]. split; [|discriminate]. apply Hshape.
    split; [discriminate|].
    intros [H | [_ [H | (total' & _ & _ & [H | (fields' & [= <-] & _ & H)])]]];
      [now apply Hnot in H | discriminate | discriminate |].
    apply generateUniversalQuestion_None in H. congruence.
  - cbn [fst snd]. split.
    + apply Hshape. split; [|reflexivity]. intros _. right.
      split; [now exists f|]. right. exists total.
      split; [reflexivity|]. split; [exact E|]. right. exists fields.
      split; [reflexivity|]. split; [reflexivity|].
      now apply generateUniversalQuestion_None.
    + intros _. now apply Hmut.
Qed.

(** Two replies of the model.  One announced eight fields and listed two:
    the second answer makes [processConversation] throw with the answer
    stored and the cursor on 2.  The other sent form details without
    [fields_required]: the answer makes it throw before anything is
    stored. *)
Lemma processConversation_throws_scenario :
  snd (processConversation silent 3000 (bare field_collection)
         (mkSession "s1" 0 2000 COLLECTING [] (Some "custom_form") ∅ 1 []
            (Some (mkDetails (Some "Custom") None None
                     (Some ["first"; "second"]) (Some 8%Z))))
         "my second answer") = None /\
  currentField
    (fst (processConversation silent 3000 (bare field_collection)
            (mkSession "s1" 0 2000 COLLECTING [] (Some "custom_form") ∅ 1 []
               (Some (mkDetails (Some "Custom") None None
                        (Some ["first"; "second"]) (Some 8%Z))))
            "my second answer")) = 2%Z /\
  snd (processConversation silent 3000 (bare field_collection)
         (mkSession "s1" 0 2000 COLLECTING [] (Some "custom_form") ∅ 0 []
            (Some (mkDetails (Some "Custom") None None None (Some 8%Z))))
         "my first answer") = None /\
  formData
    (fst (processConversation silent 3000 (bare field_collection)
            (mkSession "s1" 0 2000 COLLECTING [] (Some "custom_form") ∅ 0 []
               (Some (mkDetails (Some "Custom") None None None (Some 8%Z))))
            "my first answer")) = ∅.
Proof.
  destruct (processConversation_throws silent 3000 (bare field_collection)
              (mkSession "s1" 0 2000 COLLECTING [] (Some "custom_form") ∅ 1 []
                 (Some (mkDetails (Some "Custom") None None
                          (Some ["first"; "second"]) (Some 8%Z))))
              "my second answer") as [_ H].
  split; [reflexivity|]. split; [|split; reflexivity].
  destruct (H eq_refl) as (_ & _ & H3).
  exact (proj1 (H3 _ eq_refl)).
Defined.




Lemma cleanup_files_fold (now : Z)
    (acc : list string * gmap string Session) (m : gmap string Session) (x : string) :
  In x (fst (map_fold
         (fun sessionId session (a : list string * gmap string Session) =>
            if (now - lastActivity session >? oneHour)%Z
            then ((fst a ++ map filename (generatedFiles session))%list,
                  delete sessionId (snd a))
            else a) acc m))
  <-> In x (fst acc) \/
      exists k s, m !! k = Some s /\ (now - lastActivity s > oneHour)%Z /\
                  In x (map filename (generatedFiles s)).
Proof.
  revert m. apply (map_fold_weak_ind
    (fun (r : list string * gmap string Session) m =>
       In x (fst r) <-> In x (fst acc) \/
         exists k s, m !! k = Some s /\ (now - lastActivity s > oneHour)%Z /\
                     In x (map filename (generatedFiles s)))).
  - split; [tauto|]. intros [H | (k & s & Hl & _)]; [exact H|].
    rewrite lookup_empty in Hl. discriminate.
  - intros i s m r Hi IH.
    destruct (now - lastActivity s >? oneHour)%Z eqn:E.
    + cbn [fst]. rewrite in_app_iff, IH. apply Z.gtb_gt in E. split.
      * intros [[H | (k & y & Hl & He & Hx)] | H].
        -- now left.
        -- right. exists k, y. rewrite lookup_insert_ne by congruence. now repeat split.
        -- right. exists i, s. rewrite lookup_insert_eq. now repeat split.
      * intros [H | (k & y & Hl & He & Hx)]; [tauto|].
        destruct (decide (i = k)) as [->|Hne].
        -- rewrite lookup_insert_eq in Hl. injection Hl as Hl. subst y.
           right. exact Hx.
        -- rewrite lookup_insert_ne in Hl by exact Hne. left. right. eauto.
    + rewrite IH. split.
      * intros [H | (k & y & Hl & He & Hx)]; [tauto|].
        right. exists k, y. rewrite lookup_insert_ne by congruence. now repeat split.
      * intros [H | (k & y & Hl & He & Hx)]; [tauto|].
        destruct (decide (i = k)) as [->|Hne].
        -- rewrite lookup_insert_eq in Hl. injection Hl as Hl. subst y.
           apply Z.gtb_gt in He. congruence.
        -- rewrite lookup_insert_ne in Hl by exact Hne. right. eauto.
Qed.

(** X17.  The hourly [cleanup] hands over for deletion exactly the file
    names held by the sessions it removes: a name is on the list if and only
    if some session idle for more than one hour lists it among its generated
    files.  The sessions it keeps are kept unchanged, files included. *)
Theorem cleanup_reclaims_files (now : Z) (sessions : gmap string Session)
    (x k : string) :
  (In x (fst (cleanup now sessions)) <->
   exists k s, sessions !! k = Some s /\ (now - lastActivity s > oneHour)%Z /\
               In x (map filename (generatedFiles s))) /\
  snd (cleanup now sessions) !! k
    = match sessions !! k with
      | Some s => if (now - lastActivity s >? oneHour)%Z then None else Some s
      | None => None
      end.
Proof.
  split; [|apply legacy_cleanup_lookup].
  unfold cleanup. rewrite cleanup_files_fold. cbn [fst In]. tauto.
Qed.

End LegacyPaths.

(** ** The text handed to [JSON.parse] *)

Section Extraction.

Lemma indexOf_spec (c : ascii) (s : string) :
  (JS.indexOf c s = -1 /\ lacks c s)%Z \/
  exists pre post, s = pre ++ String c post /\ lacks c pre /\
                   JS.indexOf c s = Z.of_nat (String.length pre).
Proof.
  induction s as [|x s IH]; cbn [JS.indexOf lacks].
  - left. auto.
  - destruct (Ascii.eqb_spec x c) as [->|Hx].
    + right. exists "", s. cbn. auto.
    + destruct IH as [[-> Hl]|(pre & post & -> & Hl & ->)].
      * left. cbn. auto.
      * right. exists (String x pre), post.
        rewrite string_app_cons. cbn [lacks String.length].
        destruct (Z.eqb_spec (Z.of_nat (String.length pre)) (-1)); [lia|].
        repeat split; auto. lia.
Qed.

Lemma lastIndexOf_spec (c : ascii) (s : string) :
  (JS.lastIndexOf c s = -1 /\ lacks c s)%Z \/
  exists pre post, s = pre ++ String c post /\ lacks c post /\
                   JS.lastIndexOf c s = Z.of_nat (String.length pre).
Proof.
  induction s as [|x s IH]; cbn [JS.lastIndexOf lacks].
  - left. auto.
  - destruct IH as [[-> Hl]|(pre & post & -> & Hl & ->)].
    + cbn. destruct (Ascii.eqb_spec x c) as [->|Hx].
      * right. exists "", s. cbn. auto.
      * left. auto.
    + right. exists (String x pre), post.
      rewrite string_app_cons. cbn [String.length].
      destruct (Z.eqb_spec (Z.of_nat (String.length pre)) (-1)); [lia|].
      repeat split; auto. lia.
Qed.

Lemma lacks_app (c : ascii) (a b : string) :
  lacks c (a ++ b) <-> lacks c a /\ lacks c b.
Proof.
  induction a as [|x a IH].
  - rewrite string_app_nil_l. cbn. tauto.
  - rewrite string_app_cons. cbn [lacks]. tauto.
Qed.

Lemma string_app_split (a b x y : string) :
  a ++ x = b ++ y -> (String.length a < String.length b)%nat ->
  exists m, b = a ++ m /\ x = m ++ y.
Proof.
  revert b. induction a as [|c a IH]; intros b E Hl.
  - exists b. rewrite !string_app_nil_l in *. auto.
  - destruct b as [|d b]; [cbn in Hl; lia|].
    rewrite !string_app_cons in E. injection E as -> E.
    destruct (IH b E) as (m & -> & ->); [cbn in Hl; lia|].
    exists m. rewrite string_app_cons. auto.
Qed.

Lemma substring_prefix (a b : string) :
  String.substring 0 (String.length a) (a ++ b) = a.
Proof.
  induction a as [|c a IH].
  - destruct b; reflexivity.
  - rewrite string_app_cons. cbn [String.length String.substring]. now rewrite IH.
Qed.

Lemma substring_skip (a b : string) (n : nat) :
  String.substring (String.length a) n (a ++ b) = String.substring 0 n b.
Proof.
  induction a as [|c a IH].
  - now rewrite string_app_nil_l.
  - rewrite string_app_cons. cbn [String.length String.substring]. exact IH.
Qed.

Lemma string_length_app (a b : string) :
  String.length (a ++ b) = (String.length a + String.length b)%nat.
Proof.
  induction a as [|c a IH].
  - now rewrite string_app_nil_l.
  - rewrite string_app_cons. cbn [String.length]. now rewrite IH.
Qed.


Lemma indexOf_head (c : ascii) (s : string) : JS.indexOf c (String c s) = 0%Z.
Proof. cbn [JS.indexOf]. now rewrite Ascii.eqb_refl. Qed.

Lemma lastIndexOf_last (c : ascii) (a post : string) :
  lacks c post ->
  JS.lastIndexOf c (a ++ String c post) = Z.of_nat (String.length a).
Proof.
  intros Hp.
  assert (H0 : JS.lastIndexOf c post = (-1)%Z).
  { induction post as [|x p IH]; [reflexivity|].
    cbn [lacks] in Hp. destruct Hp as [Hx Hp].
    cbn [JS.lastIndexOf]. rewrite (IH Hp). cbn.
    destruct (Ascii.eqb_spec x c); congruence. }
  induction a as [|x a IH].
  - rewrite string_app_nil_l. cbn [JS.lastIndexOf]. rewrite H0. cbn.
    now rewrite Ascii.eqb_refl.
  - rewrite string_app_cons. cbn [JS.lastIndexOf String.length]. rewrite IH.
    destruct (Z.eqb_spec (Z.of_nat (String.length a)) (-1)); lia.
Qed.

Lemma substring_whole (s : string) :
  JS.substring 0 (Z.of_nat (String.length s)) s = s.
Proof.
  unfold JS.substring.
  replace (Z.max 0 (Z.min 0 _)) with 0%Z by lia.
  replace (Z.max 0 (Z.min (Z.of_nat (String.length s)) _))
    with (Z.of_nat (String.length s)) by lia.
  replace (Z.min 0 _) with 0%Z by lia.
  replace (Z.max 0 _) with (Z.of_nat (String.length s)) by lia.
  rewrite Z.sub_0_r, Nat2Z.id. cbn [Z.to_nat].
  rewrite <- (string_app_nil_r s) at 2. apply substring_prefix.
Qed.

Lemma string_app_same_length (a b x y : string) :
  a ++ x = b ++ y -> String.length a = String.length b -> x = y.
Proof.
  revert b. induction a as [|c a IH]; destruct b as [|d b]; cbn [String.length];
    intros Hxy Hlen; try lia.
  - now rewrite !string_app_nil_l in Hxy.
  - rewrite !string_app_cons in Hxy. injection Hxy as _ Hxy. eauto.
Qed.

Lemma extractJSON_cases (text : string) :
  (JS.extractJSON text = text /\
   (lacks "{" text \/
    exists pre post, text = pre ++ post /\ lacks "{" pre /\ lacks "}" post)) \/
  exists pre mid post,
    text = pre ++ String "{" (mid ++ String "}" post) /\
    lacks "{" pre /\ lacks "}" post /\
    JS.extractJSON text = String "{" (mid ++ "}").
Proof.
  unfold JS.extractJSON.
  destruct (indexOf_spec "{" text) as [[-> Hl]|(pre & r & E & Hpre & ->)].
  { left. cbn. auto. }
  destruct (lastIndexOf_spec "}" text) as [[-> Hl]|(p2 & post & E2 & Hpost & ->)].
  { left. replace (_ && _) with false
      by (symmetry; apply andb_false_iff; right; rewrite Z.gtb_ltb; apply Z.ltb_ge; lia).
    split; auto. right. exists pre, (String "{" r). rewrite E in Hl.
    apply lacks_app in Hl. tauto. }
  destruct (Nat.lt_ge_cases (String.length pre) (String.length p2)) as [Hlt|Hge].
  - right. rewrite E in E2.
    destruct (string_app_split _ _ _ _ E2 Hlt) as (m & -> & Er).
    destruct m as [|c mid]; [rewrite string_app_nil_r in Hlt; lia|].
    rewrite string_app_cons in Er. injection Er as <- ->.
    exists pre, mid, post. split; [exact E|]. split; [exact Hpre|].
    split; [exact Hpost|].
    replace (_ && _) with true
      by (symmetry; apply andb_true_iff; split;
          [apply negb_true_iff, Z.eqb_neq; lia | rewrite Z.gtb_ltb; apply Z.ltb_lt; lia]).
    rewrite E. unfold JS.substring.
    rewrite !string_length_app in *. cbn [String.length] in *.
    rewrite !string_length_app in *. cbn [String.length] in *.
    match goal with |- String.substring ?a ?n _ = _ =>
      replace a with (String.length pre) by lia;
      replace n with (String.length (String "{" (mid ++ "}")))
        by (cbn [String.length]; rewrite string_length_app; cbn [String.length]; lia)
    end.
    rewrite substring_skip.
    replace (String "{" (mid ++ String "}" post))
      with (String "{" (mid ++ "}") ++ post).
    + apply substring_prefix.
    + rewrite string_app_cons. f_equal. rewrite string_app_assoc.
      now rewrite string_app_cons, string_app_nil_l.
  - left. replace (_ && _) with false.
    2:{ symmetry. apply andb_false_iff. right. rewrite Z.gtb_ltb; apply Z.ltb_ge.
        assert (String.length p2 <> String.length pre); [|lia].
        intros Heq. rewrite E in E2.
        pose proof (string_app_same_length _ _ _ _ E2 (eq_sym Heq)). discriminate. }
    split; auto. right.
    assert (Hlt : (String.length p2 < String.length pre)%nat).
    { destruct (Nat.eq_dec (String.length p2) (String.length pre)) as [Heq|]; [|lia].
      exfalso. rewrite E in E2.
      pose proof (string_app_same_length _ _ _ _ E2 (eq_sym Heq)). discriminate. }
    rewrite E2 in E. symmetry in E.
    destruct (string_app_split _ _ _ _ (eq_sym E) Hlt) as (m & Epre & Er).
    exists pre, (String "{" r). split; [now rewrite E2, <- E|].
    split; [exact Hpre|].
    (* every closing brace lies in [pre] *)
    destruct m as [|c m]; [rewrite Epre, string_app_nil_r in Hlt; lia|].
    rewrite string_app_cons in Er. injection Er as <- Er.
    rewrite Er in Hpost. apply lacks_app in Hpost. tauto.
Qed.

Lemma extractJSON_idem (text : string) :
  JS.extractJSON (JS.extractJSON text) = JS.extractJSON text.
Proof.
  destruct (extractJSON_cases text) as [[E _]|(pre & mid & post & _ & _ & _ & ->)];
    [now rewrite !E|].
  unfold JS.extractJSON. rewrite indexOf_head.
  change (String "{" (mid ++ "}")) with (String "{" (mid ++ String "}" "")) at 1.
  rewrite <- string_app_cons.
  rewrite lastIndexOf_last by exact I.
  replace (_ && _) with true
    by (symmetry; apply andb_true_iff; split; [reflexivity | rewrite Z.gtb_ltb; apply Z.ltb_lt; lia]).
  rewrite string_app_cons.
  replace (Z.of_nat (String.length (String "{" mid)) + 1)%Z
    with (Z.of_nat (String.length (String "{" (mid ++ "}")))).
  - apply substring_whole.
  - cbn [String.length]. rewrite string_length_app. cbn [String.length]. lia.
Qed.

Lemma occurs_trans (a b c : string) : occurs a b -> occurs b c -> occurs a c.
Proof.
  intros (p & q & ->) (p' & q' & ->). exists (p' ++ p), (q ++ q').
  now rewrite !string_app_assoc.
Qed.

Lemma occurs_extractJSON (text : string) : occurs (JS.extractJSON text) text.
Proof.
  destruct (extractJSON_cases text)
    as [[-> _]|(pre & mid & post & E & _ & _ & ->)].
  - exists "", "". now rewrite string_app_nil_l, string_app_nil_r.
  - exists pre, post. rewrite E. f_equal.
    rewrite !string_app_cons. f_equal. rewrite string_app_assoc.
    now rewrite string_app_cons, string_app_nil_l.
Qed.

Lemma trimEnd_closed (c : ascii) (a : string) :
  JS.is_space c = false -> JS.trimEnd (a ++ String c "") = a ++ String c "".
Proof.
  intros Hc. induction a as [|x a IH].
  - rewrite string_app_nil_l. cbn [JS.trimEnd]. now rewrite Hc.
  - rewrite string_app_cons. cbn [JS.trimEnd]. rewrite IH.
    replace (String.eqb (a ++ String c "") "") with false.
    + now rewrite andb_false_r.
    + destruct a; reflexivity.
Qed.

Lemma trim_braced (mid : string) :
  JS.trim (String "{" (mid ++ "}")) = String "{" (mid ++ "}").
Proof.
  unfold JS.trim. rewrite trimStart_fixed by reflexivity.
  rewrite <- string_app_cons. now apply trimEnd_closed.
Qed.

(** X18.  The cleaning of the model's reply before [JSON.parse]
    ([callClaudeAI], and [parseJSONOutput] after its [trim]).  Either every
    closing brace comes before the first opening one (in particular when
    one of them is missing) and the text is left as it is; or the text reads [pre { mid } post] with no opening brace in
    [pre] and no closing brace in [post], and exactly [{ mid }] is kept.
    The cleaned text is always a segment of the reply, and cleaning a
    cleaned text changes nothing, for either engine. *)
Theorem json_cleaning (text : string) :
  ((JS.extractJSON text = text /\
    exists pre post, text = pre ++ post /\ lacks "{" pre /\ lacks "}" post) \/
   (exists pre mid post,
      text = pre ++ String "{" (mid ++ String "}" post) /\
      lacks "{" pre /\ lacks "}" post /\
      JS.extractJSON text = String "{" (mid ++ "}"))) /\
  occurs (JS.extractJSON text) text /\
  occurs (LangChain.cleanInput text) text /\
  JS.extractJSON (JS.extractJSON text) = JS.extractJSON text /\
  LangChain.cleanInput (LangChain.cleanInput text) = LangChain.cleanInput text.
Proof.
  split; [|split; [|split; [|split]]].
  - destruct (extractJSON_cases text) as [[E [H|H]]|H].
    + left. split; [exact E|]. exists text, "".
      rewrite string_app_nil_r. cbn. auto.
    + left. auto.
    + right. exact H.
  - apply occurs_extractJSON.
  - unfold LangChain.cleanInput.
    apply (occurs_trans _ (JS.trim text)); [apply occurs_extractJSON|].
    destruct (trim_spec text) as (lead & trail & E & _). now exists lead, trail.
  - apply extractJSON_idem.
  - unfold LangChain.cleanInput.
    destruct (extractJSON_cases (JS.trim text))
      as [[E _]|(pre & mid & post & _ & _ & _ & E)]; rewrite E.
    + now rewrite trim_idem, E.
    + rewrite trim_braced.
      rewrite <- E at 1. rewrite extractJSON_idem. exact E.
Qed.

End Extraction.

(** ** Files and session reports of the legacy server *)

Section LegacyFiles.

Import Legacy.

Lemma cleanup_files (now : Z) (sessions : gmap string Session) (x : string) :
  In x (fst (cleanup now sessions)) <->
  exists k s, sessions !! k = Some s /\ (now - lastActivity s > oneHour)%Z /\
              In x (map filename (generatedFiles s)).
Proof.
  unfold cleanup. rewrite cleanup_files_fold. cbn [fst In]. tauto.
Qed.

Lemma truthy_nonempty (s : string) : JS.truthy s = true <-> s <> "".
Proof. destruct s; cbn; split; congruence. Qed.

Lemma generatePdf_cases (now : Z) (rendered : bool) (sessionId : option string)
    (sessions : gmap string Session) :
  (generatePdf now rendered sessionId sessions = (pdf_failed, sessions) \/
   exists e, generatePdf now rendered sessionId sessions = (pdf_refused e, sessions)) /\
  (rendered = false \/
   ~ exists sid s, sessionId = Some sid /\ sid <> "" /\
                   sessions !! sid = Some s /\ state s = COMPLETE)
  \/
  exists sid s file,
    rendered = true /\ sessionId = Some sid /\ sid <> "" /\
    sessions !! sid = Some s /\ state s = COMPLETE /\
    file = match orElse (currentForm s) None with
           | Some f => f
           | None => "government_form"
           end ++ "_" ++ String.substring 0 8 sid ++ "_" ++ JS.ofNumber now ++ ".pdf" /\
    generatePdf now rendered sessionId sessions
    = (pdf_generated file,
       <[sid := withActivity now
                  (withFiles (generatedFiles s ++ [mkFile file (currentForm s) now]) s)]>
         sessions).
Proof.
  unfold generatePdf.
  destruct sessionId as [sid|].
  2:{ left. split; [right; eauto|]. right. intros (sid & s & H & _). discriminate. }
  destruct (JS.truthy sid) eqn:Ht; cbn [negb].
  2:{ left. split; [right; eauto|]. right. intros (k & s & [= <-] & Hk & _).
      apply truthy_nonempty in Hk. congruence. }
  apply truthy_nonempty in Ht.
  destruct (sessions !! sid) as [s|] eqn:Hl.
  2:{ left. split; [right; eauto|]. right.
      intros (k & s & [= <-] & _ & Hs & _). congruence. }
  destruct (state s) eqn:Hs;
    try (left; split; [right; eauto|]; right;
         intros (k & s' & [= <-] & _ & Hs' & Hc); congruence).
  destruct rendered.
  - right. exists sid, s. eexists. repeat split; eauto.
  - left. split; [left; reflexivity | left; reflexivity].
Qed.

(** X19.  [POST /api/generate-pdf] of the legacy server.  A file name comes
    back exactly when the renderer succeeded for a non-empty identifier of a
    stored session in state [COMPLETE]; in every other case the store is
    left as it was, and no session is created.  On success only the named
    session changes: the file is appended to its [generatedFiles] with the
    form and the time, [lastActivity] is the time of the request, and the
    state, cursor, answers, form and conversation are kept.  A [cleanup] run
    on that store more than one hour after the request hands the file name
    over for deletion and drops the session; a run within the hour keeps
    the session with its file. *)
Theorem pdf_recorded_until_cleanup (now : Z) (rendered : bool)
    (sessionId : option string) (sessions : gmap string Session) :
  let out := generatePdf now rendered sessionId sessions in
  ((exists file, fst out = pdf_generated file) <->
   rendered = true /\
   exists sid s, sessionId = Some sid /\ sid <> "" /\
                 sessions !! sid = Some s /\ state s = COMPLETE) /\
  ((forall file, fst out <> pdf_generated file) -> snd out = sessions) /\
  (forall file, fst out = pdf_generated file ->
     exists sid s s',
       sessionId = Some sid /\ sessions !! sid = Some s /\
       snd out !! sid = Some s' /\
       (forall k, k <> sid -> snd out !! k = sessions !! k) /\
       generatedFiles s' = (generatedFiles s ++ [mkFile file (currentForm s) now])%list /\
       lastActivity s' = now /\
       state s' = COMPLETE /\ currentField s' = currentField s /\
       formData s' = formData s /\ currentForm s' = currentForm s /\
       conversation s' = conversation s /\
       (forall later, (later - now > oneHour)%Z ->
          In file (fst (cleanup later (snd out))) /\
          snd (cleanup later (snd out)) !! sid = None) /\
       (forall later, (later - now <= oneHour)%Z ->
          snd (cleanup later (snd out)) !! sid = Some s')).
Proof.
  intros out. subst out.
  destruct (generatePdf_cases now rendered sessionId sessions)
    as [[Hout Hno] | (sid & s & file & -> & -> & Hsid & Hl & Hs & Hf & Hout)].
  - assert (Hnot : forall file,
              fst (generatePdf now rendered sessionId sessions) <> pdf_generated file).
    { intros file. destruct Hout as [-> | [e ->]]; discriminate. }
    split; [|split].
    + split.
      * intros [file Hfile]. now destruct (Hnot file).
      * intros [Hr Hex]. destruct Hno as [Hno | Hno]; [congruence | tauto].
    + intros _. destruct Hout as [-> | [e ->]]; reflexivity.
    + intros file Hfile. now destruct (Hnot file).
  - rewrite Hout. cbn [fst snd]. split; [|split].
    + split; [|eauto]. intros _. split; [reflexivity|]. exists sid, s. auto.
    + intros Hnone. now destruct (Hnone file).
    + intros file' [= <-]. exists sid, s. eexists.
      split; [reflexivity|]. split; [exact Hl|].
      split; [apply lookup_insert_eq|].
      split; [intros k Hk; now apply lookup_insert_ne|].
      cbn. repeat split; auto.
      * apply cleanup_files. eexists sid, _. rewrite lookup_insert_eq.
        split; [reflexivity|]. split; [exact H|]. cbn.
        rewrite map_app, in_app_iff. right. now left.
      * rewrite legacy_cleanup_lookup, lookup_insert_eq. cbn.
        now replace (later - now >? oneHour)%Z with true
          by (symmetry; apply Z.gtb_gt; exact H).
      * intros later Hlater.
        rewrite legacy_cleanup_lookup, lookup_insert_eq. cbn.
        replace (later - now >? oneHour)%Z with false; [reflexivity|].
        symmetry. rewrite Z.gtb_ltb. apply Z.ltb_ge. lia.
Qed.

Lemma filter_filenames (file x : string) (files : list GeneratedFile) :
  In x (map filename
          (List.filter (fun f => negb (String.eqb (filename f) file)) files))
  <-> x <> file /\ In x (map filename files).
Proof.
  rewrite !in_map_iff. split.
  - intros (f & <- & Hf). apply filter_In in Hf. destruct Hf as [Hin Hne].
    apply negb_true_iff, String.eqb_neq in Hne. eauto.
  - intros (Hne & f & <- & Hin). exists f. split; [reflexivity|].
    apply filter_In. split; [exact Hin|]. now apply negb_true_iff, String.eqb_neq.
Qed.

(** X20.  [DELETE /api/files/:filename].  When the file was unlinked, every
    session stays in the store and keeps its activity time, state, form,
    cursor, answers and conversation, and lists exactly the file names it
    listed before other than the deleted one.  So a later [cleanup] hands
    over the same file names as it would have, the deleted one apart, and
    keeps the same sessions: deleting a file does not count as activity.
    When the file was missing or the unlink failed, the store is left as it
    was. *)
Theorem deleted_file_forgotten (file : string) (sessions : gmap string Session) :
  let out := deleteFile unlinked file sessions in
  fst out = file_deleted /\
  (forall k, sessions !! k = None -> snd out !! k = None) /\
  (forall k s, sessions !! k = Some s ->
     exists s', snd out !! k = Some s' /\
       (forall x, In x (map filename (generatedFiles s'))
                  <-> x <> file /\ In x (map filename (generatedFiles s))) /\
       lastActivity s' = lastActivity s /\ state s' = state s /\
       currentForm s' = currentForm s /\ currentField s' = currentField s /\
       formData s' = formData s /\ conversation s' = conversation s) /\
  (forall later x,
     In x (fst (cleanup later (snd out)))
     <-> x <> file /\ In x (fst (cleanup later sessions))) /\
  (forall later k,
     is_Some (snd (cleanup later (snd out)) !! k)
     <-> is_Some (snd (cleanup later sessions) !! k)) /\
  snd (deleteFile no_such_file file sessions) = sessions /\
  snd (deleteFile unlink_failed file sessions) = sessions.
Proof.
  cbn zeta. cbn [deleteFile fst snd].
  split; [reflexivity|]. split; [|split; [|split; [|split; [|split; reflexivity]]]].
  - intros k Hk. now rewrite lookup_fmap, Hk.
  - intros k s Hk. eexists. rewrite lookup_fmap, Hk. split; [reflexivity|].
    cbn. split; [|repeat split]. intros x. apply filter_filenames.
  - intros later x. rewrite !cleanup_files. split.
    + intros (k & s' & Hl & He & Hx). rewrite lookup_fmap in Hl.
      destruct (sessions !! k) as [s|] eqn:Hk; [|discriminate].
      injection Hl as <-. cbn in He, Hx. apply filter_filenames in Hx.
      split; [tauto|]. exists k, s. tauto.
    + intros (Hne & k & s & Hk & He & Hx). eexists k, _.
      rewrite lookup_fmap, Hk. split; [reflexivity|]. cbn.
      split; [exact He|]. apply filter_filenames. tauto.
  - intros later k. rewrite !legacy_cleanup_lookup, lookup_fmap.
    destruct (sessions !! k) as [s|]; cbn; [|tauto].
    destruct (later - lastActivity s >? oneHour)%Z; split; intros [y Hy];
      try discriminate; eauto.
Qed.

Lemma governmentForms_keys (form : string) :
  (assoc form governmentForms = None <->
   form <> "pan_card" /\ form <> "driving_license" /\ form <> "passport") /\
  (forall fields, assoc form governmentForms = Some fields -> length fields = 8%nat).
Proof.
  unfold governmentForms. cbn [assoc].
  destruct (String.eqb_spec "pan_card" form) as [<-|H1].
  { split; [split; [discriminate | tauto]|]. now intros fields [= <-]. }
  destruct (String.eqb_spec "driving_license" form) as [<-|H2].
  { split; [split; [discriminate | tauto]|]. now intros fields [= <-]. }
  destruct (String.eqb_spec "passport" form) as [<-|H3].
  { split; [split; [discriminate | tauto]|]. now intros fields [= <-]. }
  split; [split; auto | discriminate].
Qed.

Lemma sessionInfo_threw (k : string) (m : gmap string Session) :
  sessionInfo k m = info_threw <->
  exists s form, m !! k = Some s /\ currentForm s = Some form /\ form <> "" /\
    form <> "pan_card" /\ form <> "driving_license" /\ form <> "passport".
Proof.
  unfold sessionInfo. destruct (m !! k) as [s|].
  2:{ split; [discriminate|]. intros (s & f & H & _). discriminate. }
  destruct (currentForm s) as [form|] eqn:Hf; cbn [orElse].
  2:{ split; [discriminate|]. intros (s' & f & [= <-] & H & _). congruence. }
  destruct (JS.truthy form) eqn:Ht.
  - apply truthy_nonempty in Ht. unfold getProperty.
    destruct (assoc form governmentForms) as [fields|] eqn:Ha.
    + split; [discriminate|]. intros (s' & f & [= <-] & Hf' & _ & Hk).
      rewrite Hf in Hf'. injection Hf' as <-.
      apply (proj1 (governmentForms_keys form)) in Hk. congruence.
    + apply (proj1 (governmentForms_keys form)) in Ha.
      destruct (existsb (String.eqb form) objectPrototype);
        (split; [|reflexivity]); intros _; exists s, form; tauto.
  - split; [discriminate|]. intros (s' & f & [= <-] & Hf' & Hne & _).
    rewrite Hf in Hf'. injection Hf' as <-. apply truthy_nonempty in Hne. congruence.
Qed.

Lemma discovery_chat (builtins : Builtins) (uuid : string) (now : Z)
    (text msg sid : string) (sessions : gmap string Session) (ft fname : string) :
  msg <> "" -> sid <> "" -> sessions !! sid = None ->
  detect (JS.toLowerCase msg) governmentFormKeywords = Some (ft, fname) ->
  snd (chat builtins uuid now (Unparsable text) msg (Some sid) sessions) !! sid
  = Some (mkSession sid now now COLLECTING
            [ mkTurn user msg now;
              mkTurn bot ("I can help you with " ++ fname ++
                          ". Let me gather the required information.") now ]
            (Some ft) ∅ 0 [] (Some (generateUniversalFormDetails ft fname))).
Proof.
  intros Hmsg Hsid Hl Hd. unfold chat.
  apply truthy_nonempty in Hmsg. rewrite Hmsg. cbn [negb].
  rewrite (legacy_getSession_unknown uuid now (Some sid) sessions)
    by (right; exact Hl).
  unfold createSession. cbn [orElse].
  apply truthy_nonempty in Hsid. rewrite Hsid.
  cbn [callClaudeAI]. unfold analyzeUniversalTextResponse.
  cbn [state]. rewrite Hd.
  unfold processConversation. cbn [intent form_type form_details message].
  rewrite (detect_truthy _ _ _ Hd).
  cbn [snd]. unfold bindForm, withConversation.
  cbn [id createdAt conversation generatedFiles app].
  apply lookup_insert_eq.
Qed.

(** X22.  [GET /api/session/:sessionId] against the forms the engine binds.
    The handler throws exactly for a stored session whose form is a
    non-empty key other than [pan_card], [driving_license] and [passport].
    A first message in which a keyword is detected binds the detected form
    to a new session; asked about that session, the handler throws unless
    the form is one of those three, and for those three it reports the
    progress [0/8], counted on the eight fields of [governmentForms], while
    the engine will ask the six fields of the bound details. *)
Theorem session_info_needs_legacy_form (builtins : Builtins) (uuid : string)
    (now : Z) (text msg sid : string) (sessions : gmap string Session)
    (ft fname : string) :
  msg <> "" -> sid <> "" -> sessions !! sid = None ->
  detect (JS.toLowerCase msg) governmentFormKeywords = Some (ft, fname) ->
  let store :=
    snd (chat builtins uuid now (Unparsable text) msg (Some sid) sessions) in
  (forall k m,
     sessionInfo k m = info_threw <->
     exists s form, m !! k = Some s /\ currentForm s = Some form /\ form <> "" /\
       form <> "pan_card" /\ form <> "driving_license" /\ form <> "passport") /\
  (exists s, store !! sid = Some s /\ state s = COLLECTING /\
             currentForm s = Some ft /\ currentField s = 0%Z /\
             dynamicFormDetails s = Some (generateUniversalFormDetails ft fname)) /\
  (ft = "pan_card" \/ ft = "driving_license" \/ ft = "passport" ->
     sessionInfo sid store = info_reply COLLECTING (Some ft) ∅ (Some "0/8") [] /\
     totalFieldsOf (generateUniversalFormDetails ft fname) = Some 6%Z) /\
  (ft <> "pan_card" /\ ft <> "driving_license" /\ ft <> "passport" ->
     sessionInfo sid store = info_threw).
Proof.
  intros Hmsg Hsid Hl Hd store.
  pose proof (discovery_chat builtins uuid now text msg sid sessions ft fname
                Hmsg Hsid Hl Hd) as Hs.
  fold store in Hs.
  split; [exact sessionInfo_threw|]. split; [|split].
  - eexists. split; [exact Hs|]. cbn. auto.
  - intros Hft. unfold sessionInfo. rewrite Hs.
    cbn [currentForm orElse]. rewrite (detect_truthy _ _ _ Hd).
    destruct Hft as [-> | [-> | ->]]; split; reflexivity.
  - intros Hft. apply sessionInfo_threw. eexists _, ft. split; [exact Hs|].
    cbn [currentForm]. split; [reflexivity|]. split; [|exact Hft].
    apply truthy_nonempty. exact (detect_truthy _ _ _ Hd).
Qed.

Lemma session_info_scenario :
  detect (JS.toLowerCase "I want a GST number") governmentFormKeywords
    = Some ("gst_registration", "GST Registration") /\
  sessionInfo "s1"
    (snd (chat silent "u" 0 (Unparsable "sorry") "I want a GST number"
            (Some "s1") ∅))
    = info_threw.
Proof.
  assert (Hd : detect (JS.toLowerCase "I want a GST number") governmentFormKeywords
               = Some ("gst_registration", "GST Registration")) by reflexivity.
  split; [exact Hd|].
  refine (proj2 (proj2 (proj2
    (session_info_needs_legacy_form silent "u" 0 "sorry" "I want a GST number" "s1" ∅
       "gst_registration" "GST Registration" _ _ _ Hd))) _).
  - discriminate.
  - discriminate.
  - apply lookup_empty.
  - repeat split; discriminate.
Defined.

End LegacyFiles.

(** ** The PDF route and the history of the LangChain server *)

Section LangChainFiles.

Import LangChain.

Lemma generatePdf_store (uuid : string) (now : Z) (rendered : bool)
    (sessionId : option string) (sessions : gmap string LangChainSession) :
  snd (generatePdf uuid now rendered sessionId sessions)
    = snd (getSession uuid now sessionId sessions).
Proof.
  unfold generatePdf.
  destruct (getSession uuid now sessionId sessions) as [s m]. cbn [snd].
  destruct (state s); try reflexivity.
  destruct rendered; [|reflexivity].
  now destruct (verifiedFormStructure s).
Qed.

(** X21.  [POST /generate-pdf] of [routes/chat.js].  The session is fetched
    with [getSession], so a request with an absent, empty or unknown
    identifier is refused and still leaves a new session behind, in state
    [INIT] with no form, answers or messages, under the caller's identifier
    or the generated one.  For a stored session the request counts as
    activity and changes nothing else, nothing being recorded under
    [generatedFiles]; the file name, built from the form and the time, comes
    back when the session is [COMPLETE], the renderer succeeded and
    something is bound (the answer reads the bound form's name, which
    throws on [null]); the request fails when the renderer threw or nothing
    is bound, and is refused in every other state.  No other entry of the
    store is touched. *)
Theorem pdf_request_opens_session (uuid : string) (now : Z) (rendered : bool)
    (sessionId : option string) (sessions : gmap string LangChainSession) :
  let out := generatePdf uuid now rendered sessionId sessions in
  (unknown sessionId sessions ->
     fst out = pdf_refused /\
     exists fresh,
       snd out = <[id fresh := fresh]> sessions /\
       id fresh = match orElse sessionId (Some uuid) with
                  | Some i => i
                  | None => uuid
                  end /\
       state fresh = INIT /\ currentForm fresh = None /\
       formData fresh = ∅ /\ memory fresh = [] /\ lastActivity fresh = now) /\
  (forall sid s,
     sessionId = Some sid -> sid <> "" -> sessions !! sid = Some s ->
     snd out = <[sid := withActivity now s]> sessions /\
     (state s = COMPLETE ->
        fst out =
          if rendered
          then match verifiedFormStructure s with
               | Some _ =>
                   pdf_generated
                     (match currentForm s with Some f => f | None => "null" end
                      ++ "_langchain_" ++ JS.ofNumber now ++ ".pdf")
               | None => pdf_failed
               end
          else pdf_failed) /\
     (state s <> COMPLETE -> fst out = pdf_refused)) /\
  (forall k, k <> match orElse sessionId (Some uuid) with
                  | Some i => i
                  | None => uuid
                  end ->
     snd out !! k = sessions !! k).
Proof.
  intros out. subst out. split; [|split].
  - intros Hu. unfold generatePdf. rewrite (langchain_getSession_unknown _ _ _ _ Hu).
    cbn [fst snd state newSession]. split; [reflexivity|].
    exists (newSession uuid now sessionId). split; [reflexivity|].
    unfold newSession. cbn [id state currentForm formData memory lastActivity]. repeat split.
  - intros sid s -> Hsid Hl. unfold generatePdf.
    rewrite (getSession_known _ _ _ _ _ Hsid Hl).
    destruct s as [i c l st cf cu fd vs gf mem]. cbn.
    destruct st, rendered, vs; cbn; repeat split; auto; try discriminate;
      intros H; now destruct H.
  - intros k Hk. rewrite generatePdf_store. unfold getSession.
    destruct sessionId as [sid|]; cbn in Hk |- *.
    + destruct sid as [|c sid]; cbn in Hk |- *.
      * now rewrite lookup_insert_ne by congruence.
      * destruct (sessions !! String c sid) eqn:Hl; cbn;
          now rewrite lookup_insert_ne by congruence.
    + now rewrite lookup_insert_ne by congruence.
Qed.

Lemma slice_neg {A} (n : nat) (xs : list A) :
  (0 < n)%nat -> JS.slice (- Z.of_nat n) xs = skipn (length xs - n) xs.
Proof.
  intros Hn. unfold JS.slice.
  replace (- Z.of_nat n <? 0)%Z with true by (symmetry; apply Z.ltb_lt; lia).
  f_equal. lia.
Qed.

Lemma slice_window {A} (n : nat) (old recent : list A) :
  (0 < n)%nat -> length recent = n ->
  JS.slice (- Z.of_nat n) (old ++ recent) = recent.
Proof.
  intros Hn Hl. rewrite slice_neg by exact Hn.
  rewrite length_app, Hl.
  replace (length old + n - n)%nat with (length old + 0)%nat by lia.
  now rewrite skipn_app, Nat.add_0_r, skipn_all, Nat.sub_diag.
Qed.

Lemma slice_short {A} (n : nat) (xs : list A) :
  (0 < n)%nat -> (length xs <= n)%nat -> JS.slice (- Z.of_nat n) xs = xs.
Proof.
  intros Hn Hl. rewrite slice_neg by exact Hn.
  now replace (length xs - n)%nat with 0%nat by lia.
Qed.

Lemma slice_snoc {A} (n : nat) (xs : list A) (x : A) :
  exists before, JS.slice (- Z.of_nat (S n)) (xs ++ [x]) = (before ++ [x])%list /\
                 (length before <= n)%nat.
Proof.
  rewrite slice_neg by lia. rewrite length_app. cbn [length].
  exists (skipn (length xs - n) xs). split.
  - rewrite skipn_app.
    replace (length xs + 1 - S n)%nat with (length xs - n)%nat by lia.
    replace (length xs - n - length xs)%nat with 0%nat by lia. reflexivity.
  - rewrite length_skipn. lia.
Qed.

Lemma join_snoc (sep : string) (xs : list string) (x : string) :
  exists before, JS.join sep (xs ++ [x]) = before ++ x.
Proof.
  induction xs as [|y xs [before IH]].
  - exists "". reflexivity.
  - destruct xs as [|z xs].
    + exists (y ++ sep). cbn [app JS.join]. now rewrite string_app_assoc.
    + exists (y ++ sep ++ before).
      change (JS.join sep ((y :: z :: xs) ++ [x]))
        with (y ++ sep ++ JS.join sep ((z :: xs) ++ [x])).
      rewrite IH. now rewrite !string_app_assoc.
Qed.

(** X23.  [getConversationHistory].  At most six messages are read, and
    they are the last six: two sessions whose memories end in the same six
    messages have the same history, whatever came before.  A memory of six
    messages or fewer is rendered whole.  Right after [addMessage('user', m)],
    as in [processUserMessage], the history ends with the line
    [human: m]. *)
Theorem history_window (s : LangChainSession) :
  (length (JS.slice (-6) (memory s)) <= 6)%nat /\
  (forall s' old old' recent,
     memory s = (old ++ recent)%list -> memory s' = (old' ++ recent)%list ->
     length recent = 6%nat ->
     getConversationHistory s = getConversationHistory s') /\
  ((length (memory s) <= 6)%nat ->
   getConversationHistory s
   = JS.join nl (map (fun msg => typeName (messageType msg) ++ ": " ++ content msg)
                   (memory s))) /\
  (forall now msg,
     exists before,
       getConversationHistory (addMessage now human msg s)
       = before ++ "human: " ++ msg).
Proof.
  split; [|split; [|split]].
  - change (-6)%Z with (- Z.of_nat 6)%Z. rewrite slice_neg by lia.
    rewrite length_skipn. lia.
  - intros s' old old' recent E E' Hl. unfold getConversationHistory.
    rewrite E, E'. change (-6)%Z with (- Z.of_nat 6)%Z.
    now rewrite !slice_window by (lia || exact Hl).
  - intros Hl. unfold getConversationHistory.
    change (-6)%Z with (- Z.of_nat 6)%Z. now rewrite slice_short by lia.
  - intros now msg. unfold getConversationHistory, addMessage. cbn [memory].
    change (-6)%Z with (- Z.of_nat 6)%Z.
    destruct (slice_snoc 5 (memory s) (mkMessage human msg)) as (before & -> & _).
    rewrite map_app. cbn [map messageType content typeName].
    apply join_snoc.
Qed.

End LangChainFiles.
